(** * AI-Visibility-Platform: the scoring engine and the ranking composer

    A shallow embedding of [backend/services/scorer.py],
    [backend/services/ranker.py], [backend/services/embedder.py],
    [backend/schemas/product.py] and the constants of
    [backend/core/config.py], followed by the properties of the
    specification that concern them.

    Conventions of the model.
    - A Python [str] is the list of its code points ([pystr]); [len] is
      [length], [a in b] is [contains a b].  [str.lower] is modelled on the
      ASCII range: the letters A-Z are mapped to a-z and every other code
      point is left as it is.
    - Python numbers ([int] counts and [float] scores) are exact rationals
      ([Q]); the rounding error of IEEE-754 arithmetic is outside the
      model.  Comparisons of scores are stated with [Qle] and [Qeq].
    - Code that can raise returns a [result]; [Raise e] stands for the
      exception [e] leaving the function.
    - The sentence-embedding model, the cosine of two vectors, textstat's
      Flesch reading ease and the sentiment service are external to the
      repository; they are variables of the section that holds the
      services. *)

From Stdlib Require Import String Ascii.
From Stdlib Require Import List Bool NArith ZArith QArith Qround Qabs.
From Stdlib Require Import Lia Lqa Permutation Sorted.
From Stdlib Require Import DecimalString.
Import ListNotations.

Local Open Scope Q_scope.

(** ** Python strings *)

Definition pystr := list N.

(** A literal of the source, given as an ASCII string. *)
Definition lit (s : string) : pystr :=
  map N_of_ascii (list_ascii_of_string s).

(** The bullet U+2022 of the structure-marker tests. *)
Definition bullet : pystr := [8226%N].

(** [a == b] on strings. *)
Fixpoint pystr_eqb (a b : pystr) : bool :=
  match a, b with
  | [], [] => true
  | x :: a', y :: b' => (x =? y)%N && pystr_eqb a' b'
  | _, _ => false
  end.

Definition lower_cp (c : N) : N :=
  if ((65 <=? c) && (c <=? 90))%N then (c + 32)%N else c.

(** [s.lower()] *)
Definition lower (s : pystr) : pystr := map lower_cp s.

Fixpoint startswith (needle hay : pystr) : bool :=
  match needle, hay with
  | [], _ => true
  | _ :: _, [] => false
  | a :: needle', b :: hay' => (a =? b)%N && startswith needle' hay'
  end.

(** [needle in hay] *)
Fixpoint contains (needle hay : pystr) : bool :=
  startswith needle hay ||
  match hay with
  | [] => false
  | _ :: hay' => contains needle hay'
  end.

(** [len(s)] as a number. *)
Definition len {A} (l : list A) : Q := inject_Z (Z.of_nat (length l)).

(** Code points for which [str.isspace] holds; [str.split()] cuts on them. *)
Definition is_space (c : N) : bool :=
  (((9 <=? c) && (c <=? 13)) || ((28 <=? c) && (c <=? 32)) ||
   (c =? 133) || (c =? 160) || (c =? 5760) ||
   ((8192 <=? c) && (c <=? 8202)) || (c =? 8232) || (c =? 8233) ||
   (c =? 8239) || (c =? 8287) || (c =? 12288))%N.

(** [s.split()]: the maximal runs of non-space code points; [cur] holds the
    run being read, in reverse. *)
Fixpoint split_from (cur : pystr) (s : pystr) : list pystr :=
  match s with
  | [] => match cur with [] => [] | _ => [rev cur] end
  | c :: s' =>
      if is_space c
      then match cur with
           | [] => split_from [] s'
           | _ => rev cur :: split_from [] s'
           end
      else split_from (c :: cur) s'
  end.

Definition split (s : pystr) : list pystr := split_from [] s.

(** [sep.join(parts)] *)
Fixpoint join (sep : pystr) (parts : list pystr) : pystr :=
  match parts with
  | [] => []
  | [p] => p
  | p :: rest => p ++ sep ++ join sep rest
  end.

(** ** Exceptions *)

Inductive exn : Set :=
| ZeroDivisionError
| ValueError
| KeyError
| StopIteration
| ValidationError.

Inductive result (A : Type) : Type :=
| Ok (a : A)
| Raise (e : exn).

Arguments Ok {A} a.
Arguments Raise {A} e.

Definition bind {A B} (m : result A) (k : A -> result B) : result B :=
  match m with
  | Ok a => k a
  | Raise e => Raise e
  end.

Notation "x <- m ;; k" := (bind m (fun x => k))
  (at level 61, m at next level, right associativity).

(** [try: body except: handler] with a bare [except]. *)
Definition try_except {A} (body : result A) (handler : result A) : result A :=
  match body with
  | Ok a => Ok a
  | Raise _ => handler
  end.

Fixpoint mapM {A B} (f : A -> result B) (l : list A) : result (list B) :=
  match l with
  | [] => Ok []
  | x :: l' => y <- f x ;; ys <- mapM f l' ;; Ok (y :: ys)
  end.

(** ** Python arithmetic on numbers *)

Definition Qltb (a b : Q) : bool := negb (Qle_bool b a).

(** [a / b] *)
Definition pdiv (a b : Q) : result Q :=
  if Qeq_bool b 0 then Raise ZeroDivisionError else Ok (a / b).

(** [max(a, b)] keeps its first argument unless the second is greater. *)
Definition py_max (a b : Q) : Q := if Qltb a b then b else a.

(** [min(a, b)] keeps its first argument unless the second is smaller. *)
Definition py_min (a b : Q) : Q := if Qltb b a then b else a.

(** [sum(l)]: starts from 0 and adds from the left. *)
Definition py_sum (l : list Q) : Q := fold_left Qplus l 0.

(** [max(l)] of a list; [ValueError] on the empty list. *)
Definition list_max (l : list Q) : result Q :=
  match l with
  | [] => Raise ValueError
  | x :: l' => Ok (fold_left py_max l' x)
  end.

(** Round to the nearest integer, ties to the even one. *)
Definition round_half_even (q : Q) : Z :=
  let f := Qfloor q in
  let r := q - inject_Z f in
  if Qltb r (1 # 2) then f
  else if Qltb (1 # 2) r then (f + 1)%Z
  else if Z.even f then f else (f + 1)%Z.

(** [round(q, 2)] *)
Definition py_round2 (q : Q) : Q :=
  inject_Z (round_half_even (q * 100)) / 100.

(** The clamp [min(100, max(0, score))] that closes every sub-score. *)
Definition clamp (score : Q) : Q := py_min 100 (py_max 0 score).

(** ** schemas/product.py *)

Record ProductInput : Type := {
  title : pystr;
  description : pystr;
  category : pystr;
  brand : pystr;
  platform : option pystr;
  url : option pystr;
  market_rank : option Z;
  image_url : option pystr;
  price : option Q
}.

(** The field constraints of [ProductInput]: [min_length=1] on title,
    category and brand, [min_length=10] on the description. *)
Definition valid_product (p : ProductInput) : bool :=
  (1 <=? length (title p))%nat && (10 <=? length (description p))%nat &&
  (1 <=? length (category p))%nat && (1 <=? length (brand p))%nat.

Record ScoreBreakdown : Type := {
  semantic_relevance : Q;
  keyword_coverage : Q;
  completeness : Q;
  readability : Q
}.

Definition in_0_100 (x : Q) : bool := Qle_bool 0 x && Qle_bool x 100.

(** The constructor of [ScoreBreakdown] checks [ge=0, le=100] on every
    field and raises a validation error otherwise. *)
Definition new_ScoreBreakdown (s k c r : Q) : result ScoreBreakdown :=
  if in_0_100 s && in_0_100 k && in_0_100 c && in_0_100 r
  then Ok {| semantic_relevance := s; keyword_coverage := k;
             completeness := c; readability := r |}
  else Raise ValidationError.

Record WeaknessAnalysis : Type := {
  missing_specs : list pystr;
  missing_keywords : list pystr;
  clarity_issues : list pystr;
  suggestions : list pystr
}.

Record SentimentResult : Type := {
  pros : list pystr;
  cons : list pystr
}.

Record RankedProduct : Type := {
  product : ProductInput;
  score : Q;
  rank : Z;
  rp_market_rank : option Z;
  rp_platform : option pystr;
  rp_url : option pystr;
  sentiment : option SentimentResult
}.

(** [a == b] on two products: field by field; prices compare as numbers. *)
Definition option_eqb {A} (eqb : A -> A -> bool) (a b : option A) : bool :=
  match a, b with
  | None, None => true
  | Some x, Some y => eqb x y
  | _, _ => false
  end.

Definition product_eqb (a b : ProductInput) : bool :=
  pystr_eqb (title a) (title b) &&
  pystr_eqb (description a) (description b) &&
  pystr_eqb (category a) (category b) &&
  pystr_eqb (brand a) (brand b) &&
  option_eqb pystr_eqb (platform a) (platform b) &&
  option_eqb pystr_eqb (url a) (url b) &&
  option_eqb Z.eqb (market_rank a) (market_rank b) &&
  option_eqb pystr_eqb (image_url a) (image_url b) &&
  option_eqb Qeq_bool (price a) (price b).

(** ** core/config.py *)

Module settings.

Definition WEIGHT_SEMANTIC : Q := 0.4.
Definition WEIGHT_KEYWORD : Q := 0.2.
Definition WEIGHT_COMPLETENESS : Q := 0.2.
Definition WEIGHT_READABILITY : Q := 0.2.

Definition AI_QUERY_TEMPLATES : list pystr :=
  map lit
    ["Best {category} for {use_case}";
     "Top rated {category}";
     "Affordable {category}";
     "{category} with {feature}";
     "High quality {category}";
     "Professional {category}";
     "{brand} {category} review"]%string.

Definition COMPLETENESS_KEYWORDS : list pystr :=
  map lit
    ["specifications"; "specs"; "features"; "dimensions"; "weight";
     "material"; "color"; "size"; "warranty"; "compatibility";
     "battery"; "power"; "capacity"; "performance"; "quality";
     "use case"; "application"; "suitable for"; "ideal for";
     "technical"; "highlights"; "overview"; "included"; "package";
     "design"; "technology"; "engineered"; "certified"]%string.

Definition MIN_DESCRIPTION_LENGTH : Q := 50.
Definition MAX_DESCRIPTION_LENGTH : Q := 5000.
Definition TARGET_READABILITY_SCORE : Q := 60.

End settings.

(** ** [str.format] with keyword arguments

    The template is read left to right; [field] is [Some name] while the
    name of a replacement field is being read (in reverse).  A field that
    no keyword resolves raises [KeyError]; a brace that is not matched
    raises [ValueError].  Doubled braces, conversions and format
    specifications do not occur in the templates of the configuration and
    are not modelled. *)

Fixpoint lookup_kw (name : pystr) (kwargs : list (pystr * pystr)) : result pystr :=
  match kwargs with
  | [] => Raise KeyError
  | (k, v) :: rest => if pystr_eqb k name then Ok v else lookup_kw name rest
  end.

Fixpoint format_from (field : option pystr) (tpl : pystr)
    (kwargs : list (pystr * pystr)) : result pystr :=
  match tpl with
  | [] => match field with None => Ok [] | Some _ => Raise ValueError end
  | c :: rest =>
      match field with
      | None =>
          if (c =? 123)%N then format_from (Some []) rest kwargs
          else if (c =? 125)%N then Raise ValueError
          else out <- format_from None rest kwargs ;; Ok (c :: out)
      | Some name =>
          if (c =? 125)%N
          then v <- lookup_kw (rev name) kwargs ;;
               out <- format_from None rest kwargs ;;
               Ok (v ++ out)
          else format_from (Some (c :: name)) rest kwargs
      end
  end.

Definition format (tpl : pystr) (kwargs : list (pystr * pystr)) : result pystr :=
  format_from None tpl kwargs.

(** ** services/embedder.py *)

(** A numpy array of one or two dimensions. *)
Inductive ndarray : Type :=
| Arr1 (v : list Q)
| Arr2 (rows : list (list Q)).

Definition ndim (a : ndarray) : nat :=
  match a with Arr1 _ => 1 | Arr2 _ => 2 end.

(** [a.reshape(1, -1)] *)
Definition reshape_row (a : ndarray) : ndarray :=
  match a with
  | Arr1 v => Arr2 [v]
  | Arr2 rows => Arr2 [concat rows]
  end.

(** [m[0]] on the rows of a matrix. *)
Definition first_row (m : list (list Q)) : result (list Q) :=
  match m with
  | [] => Raise ValueError
  | r :: _ => Ok r
  end.

Section EmbeddingService.

(** The sentence-transformer: one vector per text. *)
Variable embed : pystr -> list Q.
(** The cosine of the angle of two vectors. *)
Variable cosine : list Q -> list Q -> Q.

(** [self.encode(text)] on one text: a vector of shape (D,). *)
Definition encode_text (text : pystr) : ndarray := Arr1 (embed text).

(** [self.encode(texts)] on a list: one row per text, shape (N, D); for
    the empty list the library stacks no row and returns the empty
    one-dimensional array. *)
Definition encode_list (texts : list pystr) : ndarray :=
  match texts with
  | [] => Arr1 []
  | _ :: _ => Arr2 (map embed texts)
  end.

(** scikit-learn's [cosine_similarity(X, Y)]: both arguments are
    validated first (two-dimensional, at least one sample) and a
    [ValueError] is raised otherwise; the result has one row per row of
    [X] and one column per row of [Y].  All rows come from the same
    model, so the check of equal feature counts always passes and is
    left out. *)
Definition cosine_similarity (X Y : ndarray) : result (list (list Q)) :=
  match X, Y with
  | Arr2 (x :: xs), Arr2 (y :: ys) =>
      Ok (map (fun a => map (cosine a) (y :: ys)) (x :: xs))
  | _, _ => Raise ValueError
  end.

Definition compute_similarity_batch (query : pystr) (documents : list pystr)
  : result (list Q) :=
  let query_embedding := encode_text query in
  let query_embedding :=
    if (ndim query_embedding =? 1)%nat then reshape_row query_embedding
    else query_embedding in
  let doc_embeddings := encode_list documents in
  m <- cosine_similarity query_embedding doc_embeddings ;;
  first_row m.

End EmbeddingService.

Arguments lit s%_string.

(** ** services/scorer.py *)

(** [any(trigger in text for trigger in triggers)] *)
Definition any_in (triggers : list pystr) (text : pystr) : bool :=
  existsb (fun trigger => contains trigger text) triggers.

(** [sum(1 for kw in kws if kw in text)] *)
Definition count_in (kws : list pystr) (text : pystr) : Q :=
  len (filter (fun kw => contains kw text) kws).

(** The test for bullet points shared by completeness and readability. *)
Definition has_structure_marker (d : pystr) : bool :=
  contains bullet d || contains (lit "-") d || contains (lit ":") d.

(** [for i in range(0, len(words), chunk_size)]: the words are consumed
    [chunk_size] at a time; [fuel] bounds the number of rounds. *)
Fixpoint chunks_of (fuel chunk_size : nat) (words : list pystr) : list pystr :=
  match fuel, words with
  | S fuel', _ :: _ =>
      join (lit " ") (firstn chunk_size words)
        :: chunks_of fuel' chunk_size (skipn chunk_size words)
  | _, _ => []
  end.

(** [s.split(sep)] on a one-character separator. *)
Fixpoint split_on (sep : N) (s : pystr) : list pystr :=
  match s with
  | [] => [[]]
  | c :: s' =>
      if (c =? sep)%N then [] :: split_on sep s'
      else match split_on sep s' with
           | [] => [[c]]
           | w :: ws => (c :: w) :: ws
           end
  end.

Definition concepts : list (pystr * list pystr) :=
  [ (lit "battery",
      map lit ["battery"; "mah"; "runtime"; "hours"; "charging";
               "powered by"; "h playback"; "playtime"]%string);
    (lit "dimensions",
      map lit ["mm"; "cm"; "inch"; "x"; "folded"; "compact"; "size";
               "dimensions"]%string);
    (lit "material",
      map lit ["leather"; "carbon fiber"; "plastic"; "metal"; "aluminum";
               "steel"; "fabric"; "silicone"; "premium"]%string);
    (lit "warranty",
      map lit ["warranty"; "guarantee"; "year"; "month"; "protection"]%string);
    (lit "connectivity",
      map lit ["bluetooth"; "wireless"; "nfc"; "ldac"; "wifi"; "cable";
               "jack"; "aux"; "5.0"; "5.3"]%string);
    (lit "performance",
      map lit ["fast"; "speed"; "processor"; "optimized"; "high fidelity";
               "noise cancel"; "hz"; "khz"; "anc"]%string) ].

Definition mapping : list (pystr * list pystr) :=
  [ (lit "wireless",
      map lit ["wireless"; "cordless"; "wifi"; "radio frequency"]%string);
    (lit "bluetooth",
      map lit ["bluetooth"; "bt 5"; "5.0"; "5.1"; "5.2"; "5.3"; "ldac"]%string);
    (lit "noise cancel",
      map lit ["noise cancel"; "anc"; "digital noise"; "isolation"; "qn1";
               "qn3"]%string);
    (lit "fast charge",
      map lit ["fast charge"; "quick charge"; "pd charge"; "3 min";
               "5 min"]%string);
    (lit "battery life",
      map lit ["hours"; "h playback"; "runtime"; "playtime"; "battery"]%string);
    (lit "material",
      map lit ["leather"; "carbon fiber"; "metal"; "aluminum"; "fabric"]%string);
    (lit "design",
      map lit ["folded"; "swivel"; "foldable"; "compact";
               "carrying case"]%string) ].

Definition concepts_to_check : list (pystr * list pystr) :=
  [ (lit "specifications/battery",
      map lit ["battery"; "mah"; "runtime"; "hours"; "charging";
               "powered by"]%string);
    (lit "dimensions/size",
      map lit ["mm"; "cm"; "inch"; "folded"; "compact"; "size"]%string);
    (lit "weight",
      map lit ["weight"; "grams"; " kg"; "lbs"; "lightweight"]%string);
    (lit "material",
      map lit ["leather"; "carbon fiber"; "plastic"; "metal"; "aluminum";
               "steel"; "fabric"; "silicone"]%string);
    (lit "warranty",
      map lit ["warranty"; "guarantee"; "protection"]%string) ].

Definition important_kw : list pystr :=
  map lit ["quality"; "features"; "benefits"; "use case"]%string.

(** The list built at the head of [calculate_keyword_coverage]. *)
Definition important_keywords (p : ProductInput) : list pystr :=
  lower (category p) :: lower (brand p) ::
  map lit ["quality"; "premium"; "best"; "top"; "features";
           "specifications"; "performance"; "technology"; "design";
           "professional"; "benefits"]%string.

Definition generate_ai_queries (p : ProductInput) : result (list pystr) :=
  queries <-
    mapM (fun template =>
            format template
              [ (lit "category", category p);
                (lit "brand", brand p);
                (lit "use_case", lit "daily use");
                (lit "feature", lit "best features") ])
         settings.AI_QUERY_TEMPLATES ;;
  Ok (queries ++
      [ category p;
        brand p ++ lit " " ++ category p;
        lit "best " ++ category p;
        lit "top " ++ category p ++ lit " brands" ]).

Definition calculate_keyword_coverage (p : ProductInput) : result Q :=
  let description_lower := lower (description p) in
  let found_keywords := count_in (important_keywords p) description_lower in
  ratio <- pdiv found_keywords (len (important_keywords p)) ;;
  let coverage := ratio * 100 in
  Ok (clamp coverage).

Definition calculate_completeness (p : ProductInput) : result Q :=
  let text_to_check := lower (title p ++ lit " " ++ description p) in
  let found_concepts :=
    fold_left
      (fun found (ct : pystr * list pystr) =>
         if any_in (snd ct) text_to_check then found + 1 else found)
      concepts 0 in
  let target_len := 2000 in
  len_ratio <- pdiv (len (description p)) target_len ;;
  let length_score := py_min 100 (len_ratio * 100) in
  concept_ratio <- pdiv found_concepts (len concepts) ;;
  let concept_score := concept_ratio * 100 in
  let keyword_overlap := count_in settings.COMPLETENESS_KEYWORDS text_to_check in
  keyword_ratio <- pdiv keyword_overlap (len settings.COMPLETENESS_KEYWORDS) ;;
  let keyword_score := keyword_ratio * 100 in
  let score :=
    (concept_score * 0.7) + (keyword_score * 0.1) + (length_score * 0.2) in
  let score :=
    if has_structure_marker (description p) then score + 15 else score in
  Ok (clamp score).

Definition extract_features (title description : pystr) : list pystr :=
  let text := lower (title ++ lit " " ++ description) in
  fold_left
    (fun features (ft : pystr * list pystr) =>
       if any_in (snd ft) text then features ++ [fst ft] else features)
    mapping [].

Definition analyze_weaknesses (p : ProductInput) (score_breakdown : ScoreBreakdown)
  : WeaknessAnalysis :=
  let description_lower := lower (description p) in
  let missing_specs :=
    fold_left
      (fun missing (ct : pystr * list pystr) =>
         if negb (any_in (snd ct) description_lower)
         then missing ++ [hd [] (split_on 47 (fst ct))]
         else missing)
      concepts_to_check [] in
  let missing_keywords :=
    fold_left
      (fun missing kw =>
         if negb (contains kw description_lower) then missing ++ [kw]
         else missing)
      important_kw [] in
  let '(clarity_issues, suggestions) :=
    if Qltb (len (description p)) settings.MIN_DESCRIPTION_LENGTH
    then ([lit "Description too short"],
          [lit "Expand description with more details"])
    else ([], []) in
  let suggestions :=
    if Qltb (semantic_relevance score_breakdown) 50
    then suggestions ++
         [lit "Add more context about product use cases and benefits"]
    else suggestions in
  let suggestions :=
    if Qltb (keyword_coverage score_breakdown) 50
    then suggestions ++
         [lit "Include more keywords related to " ++ category p]
    else suggestions in
  let suggestions :=
    if Qltb (completeness score_breakdown) 50
    then suggestions ++ [lit "Add specifications and technical details"]
    else suggestions in
  let suggestions :=
    if Qltb (readability score_breakdown) 50
    then suggestions ++ [lit "Simplify language for better readability"]
    else suggestions in
  {| missing_specs := missing_specs;
     missing_keywords := missing_keywords;
     clarity_issues := clarity_issues;
     suggestions := suggestions |}.

Definition calculate_final_score (score_breakdown : ScoreBreakdown) : Q :=
  let final_score :=
    semantic_relevance score_breakdown * settings.WEIGHT_SEMANTIC +
    keyword_coverage score_breakdown * settings.WEIGHT_KEYWORD +
    completeness score_breakdown * settings.WEIGHT_COMPLETENESS +
    readability score_breakdown * settings.WEIGHT_READABILITY in
  py_round2 final_score.

Section ScoringService.

Variable embed : pystr -> list Q.
Variable cosine : list Q -> list Q -> Q.
(** [textstat.flesch_reading_ease]; [Raise] when the library fails. *)
Variable flesch_reading_ease : pystr -> result Q.

Definition calculate_semantic_relevance (p : ProductInput)
    (queries : list pystr) : result Q :=
  let product_text := title p ++ lit ". " ++ description p in
  let words := split product_text in
  let chunk_size := 200%nat in
  let chunks := chunks_of (length words) chunk_size words in
  match chunks with
  | [] => Ok 0
  | _ :: _ =>
      all_chunk_similarities <-
        mapM (fun chunk =>
                similarities <-
                  compute_similarity_batch embed cosine chunk queries ;;
                pdiv (py_sum similarities) (len similarities))
             chunks ;;
      max_similarity <- list_max all_chunk_similarities ;;
      avg_similarity <-
        pdiv (py_sum all_chunk_similarities) (len all_chunk_similarities) ;;
      let top_similarity := (max_similarity * 0.8) + (avg_similarity * 0.2) in
      scaled <- pdiv top_similarity 0.6 ;;
      let score := scaled * 100 in
      let score :=
        if contains (lower (brand p)) (lower (title p)) then score + 10
        else score in
      Ok (clamp score)
  end.

Definition calculate_readability (p : ProductInput) : result Q :=
  let description := description p in
  normalized_score <-
    try_except
      (flesch_score <- flesch_reading_ease description ;;
       normalized_score <-
         (if Qltb flesch_score 0 then Ok 10
          else if Qltb flesch_score 30
          then r <- pdiv flesch_score 30 ;; Ok (40 + r * 10)
          else r <- pdiv (flesch_score - 30) 70 ;; Ok (50 + r * 50)) ;;
       Ok (if has_structure_marker description
           then normalized_score + 10 else normalized_score))
      (Ok 50) ;;
  Ok (clamp normalized_score).

Definition score_product (p : ProductInput)
  : result (Q * ScoreBreakdown * list pystr) :=
  queries <- generate_ai_queries p ;;
  semantic_score <- calculate_semantic_relevance p queries ;;
  keyword_score <- calculate_keyword_coverage p ;;
  completeness_score <- calculate_completeness p ;;
  readability_score <- calculate_readability p ;;
  score_breakdown <-
    new_ScoreBreakdown semantic_score keyword_score completeness_score
      readability_score ;;
  let final_score := calculate_final_score score_breakdown in
  Ok (final_score, score_breakdown, queries).

End ScoringService.

(** ** services/ranker.py *)

(** [scored.sort(key=lambda x: x[1], reverse=True)].  Python's sort is
    stable, also under [reverse=True]: entries with equal keys keep their
    order.  On totally ordered keys the stable sort of a list is unique;
    it is computed here by inserting from the right, each entry going in
    front of the first one whose score is not greater than its own. *)
Fixpoint insert_desc {A} (x : A * Q) (l : list (A * Q)) : list (A * Q) :=
  match l with
  | [] => [x]
  | y :: l' =>
      if Qltb (snd x) (snd y) then y :: insert_desc x l' else x :: y :: l'
  end.

Definition sort_desc {A} (l : list (A * Q)) : list (A * Q) :=
  fold_right insert_desc [] l.

(** [enumerate(l, start)] *)
Fixpoint enumerate {A} (start : Z) (l : list A) : list (Z * A) :=
  match l with
  | [] => []
  | x :: l' => (start, x) :: enumerate (start + 1) l'
  end.

(** [next(x for x in l if f(x))] *)
Fixpoint next_where {A} (f : A -> bool) (l : list A) : result A :=
  match l with
  | [] => Raise StopIteration
  | x :: l' => if f x then Ok x else next_where f l'
  end.

Section RankingService.

Variable embed : pystr -> list Q.
Variable cosine : list Q -> list Q -> Q.
Variable flesch_reading_ease : pystr -> result Q.
(** [SentimentService.analyze_product_sentiment]: every path of it
    returns the two lists of findings. *)
Variable analyze_product_sentiment : ProductInput -> SentimentResult.

Definition score_all (products : list ProductInput)
  : result (list (ProductInput * Q)) :=
  mapM (fun product =>
          r <- score_product embed cosine flesch_reading_ease product ;;
          let '(score, _, _) := r in
          Ok (product, score))
       products.

Definition make_ranked (e : Z * (ProductInput * Q)) : RankedProduct :=
  let '(rank, (product, score)) := e in
  let sentiment_data := analyze_product_sentiment product in
  {| product := product;
     score := score;
     rank := rank;
     rp_market_rank := market_rank product;
     rp_platform := platform product;
     rp_url := url product;
     sentiment := Some sentiment_data |}.

Definition rank_products (products : list ProductInput)
  : result (list RankedProduct) :=
  scored_products <- score_all products ;;
  let scored_products := sort_desc scored_products in
  Ok (map make_ranked (enumerate 1 scored_products)).

Definition rank_against_competitors (user_product : ProductInput)
    (competitors : list ProductInput)
  : result (RankedProduct * list RankedProduct) :=
  let all_products := [user_product] ++ competitors in
  ranked <- rank_products all_products ;;
  user_ranked <-
    next_where (fun r => product_eqb (product r) user_product) ranked ;;
  Ok (user_ranked, ranked).

End RankingService.

(** ** services/embedder.py, the pairwise and the best-match queries *)

(** [a[i:j]] on the first axis. *)
Definition slice_rows (i j : nat) (a : ndarray) : ndarray :=
  match a with
  | Arr1 v => Arr1 (firstn (j - i) (skipn i v))
  | Arr2 rows => Arr2 (firstn (j - i) (skipn i rows))
  end.

(** [l[i]]; an index out of range raises. *)
Definition item {A} (l : list A) (i : nat) : result A :=
  match nth_error l i with
  | Some x => Ok x
  | None => Raise ValueError
  end.

(** [np.argmax]: the index of the first occurrence of the maximum;
    [best_idx] and [best] are the index and the value of the greatest
    entry seen so far, [idx] the index of the head of the list. *)
Fixpoint argmax_from (best_idx : nat) (best : Q) (idx : nat) (l : list Q) : nat :=
  match l with
  | [] => best_idx
  | x :: l' =>
      if Qltb best x then argmax_from idx x (S idx) l'
      else argmax_from best_idx best (S idx) l'
  end.

Definition argmax (l : list Q) : result nat :=
  match l with
  | [] => Raise ValueError
  | x :: l' => Ok (argmax_from 0 x 1 l')
  end.

Section EmbeddingQueries.

Variable embed : pystr -> list Q.
Variable cosine : list Q -> list Q -> Q.

Definition compute_similarity (text1 text2 : pystr) : result Q :=
  let embeddings := encode_list embed [text1; text2] in
  m <- cosine_similarity cosine (slice_rows 0 1 embeddings)
         (slice_rows 1 2 embeddings) ;;
  row <- item m 0 ;;
  item row 0.

Definition find_most_similar (query : pystr) (documents : list pystr)
  : result (Z * Q) :=
  similarities <- compute_similarity_batch embed cosine query documents ;;
  max_idx <- argmax similarities ;;
  max_score <- item similarities max_idx ;;
  Ok (Z.of_nat max_idx, max_score).

End EmbeddingQueries.

(** ** services/optimizer.py, the rule-based fallback *)

Definition _rule_based_optimization (p : ProductInput)
    (suggestions : list pystr) : pystr * list pystr :=
  let optimized := description p in
  let improvements : list pystr := [] in
  let '(optimized, improvements) :=
    if negb (contains (lower (category p)) (lower optimized))
    then (category p ++ lit ": " ++ optimized,
          improvements ++ [lit "Added category context"])
    else (optimized, improvements) in
  let '(optimized, improvements) :=
    if negb (contains (lower (brand p)) (lower optimized))
    then (brand p ++ lit " " ++ optimized,
          improvements ++ [lit "Added brand name"])
    else (optimized, improvements) in
  let additions : list pystr := [] in
  let '(additions, improvements) :=
    if existsb (fun s => contains (lit "specification") (lower s)) suggestions
    then (additions ++
            [lit "Features high-quality materials and construction."],
          improvements ++ [lit "Added quality indicators"])
    else (additions, improvements) in
  let '(additions, improvements) :=
    if existsb (fun s => contains (lit "use case") (lower s)) suggestions
    then (additions ++
            [lit "Ideal for daily use and professional applications."],
          improvements ++ [lit "Added use case information"])
    else (additions, improvements) in
  let '(additions, improvements) :=
    if existsb (fun s => contains (lit "keyword") (lower s)) suggestions
    then (additions ++
            [lit "Top-rated " ++ lower (category p) ++
             lit " with premium features."],
          improvements ++ [lit "Added relevant keywords"])
    else (additions, improvements) in
  let optimized :=
    match additions with
    | [] => optimized
    | _ :: _ => optimized ++ lit " " ++ join (lit " ") additions
    end in
  (optimized, improvements).

Definition improvement_keywords : list pystr :=
  map lit ["specifications"; "features"; "quality"; "premium";
           "professional"; "ideal for"]%string.

Definition _extract_improvements (original optimized : pystr) : list pystr :=
  let improvements : list pystr := [] in
  let improvements :=
    if Qltb (len original * 1.2) (len optimized)
    then improvements ++ [lit "Expanded description with more details"]
    else improvements in
  let improvements :=
    fold_left
      (fun improvements kw =>
         if contains kw (lower optimized) && negb (contains kw (lower original))
         then improvements ++ [lit "Added '" ++ kw ++ lit "' context"]
         else improvements)
      improvement_keywords improvements in
  match improvements with
  | [] => [lit "Enhanced overall clarity and structure"]
  | _ :: _ => improvements
  end.

(** ** More of Python's strings *)

(** [s.lstrip()], [s.rstrip()] and [s.strip()] for the characters that
    satisfy [f]. *)
Fixpoint lstrip_by (f : N -> bool) (s : pystr) : pystr :=
  match s with
  | [] => []
  | c :: s' => if f c then lstrip_by f s' else s
  end.

Definition rstrip_by (f : N -> bool) (s : pystr) : pystr :=
  rev (lstrip_by f (rev s)).

Definition strip_by (f : N -> bool) (s : pystr) : pystr :=
  rstrip_by f (lstrip_by f s).

(** [s.strip()] *)
Definition strip (s : pystr) : pystr := strip_by is_space s.

(** [s.strip(chars)] *)
Definition strip_chars (chars : pystr) (s : pystr) : pystr :=
  strip_by (fun c => existsb (N.eqb c) chars) s.

(** [s.replace(old, new)] for a non-empty [old]: the occurrences are
    replaced from the left and do not overlap; [skip] counts the
    characters of an occurrence still to be passed over. *)
Fixpoint replace_from (skip : nat) (old new s : pystr) : pystr :=
  match s with
  | [] => []
  | c :: s' =>
      match skip with
      | S k => replace_from k old new s'
      | O =>
          if startswith old s
          then new ++ replace_from (length old - 1) old new s'
          else c :: replace_from 0 old new s'
      end
  end.

Definition replace (old new s : pystr) : pystr := replace_from 0 old new s.

(** [str(n)] on an integer. *)
Definition str_int (n : Z) : pystr := lit (NilZero.string_of_int (Z.to_int n)).

(** ** services/searcher.py *)

(** An entry of the result list of the search engine; a key that is
    absent is [None]. *)
Record RawResult : Type := {
  href : option pystr;
  raw_title : option pystr;
  body : option pystr
}.

(** [d.get(key, default)] *)
Definition get_default (v : option pystr) (default : pystr) : pystr :=
  match v with Some x => x | None => default end.

(** The entries that [search_competitors] returns. *)
Record SearchResult : Type := {
  sr_title : pystr;
  sr_url : pystr;
  sr_snippet : pystr;
  sr_platform : pystr
}.

Record Platform : Type := {
  pf_name : pystr;
  pf_site : pystr;
  url_patterns : list pystr
}.

Definition platforms : list Platform :=
  [ {| pf_name := lit "Amazon"; pf_site := lit "amazon.in";
       url_patterns := [lit "/dp/"; lit "/gp/product/"] |};
    {| pf_name := lit "Flipkart"; pf_site := lit "flipkart.com";
       url_patterns := [lit "/p/"] |} ].

(** The price ceiling of the query: the price rounded to the nearest
    thousand, and 1000 when that is 0. *)
Definition rounded_price (price : Q) : Z :=
  let rounded_price := (round_half_even (price / 1000) * 1000)%Z in
  if (rounded_price =? 0)%Z then 1000%Z else rounded_price.

Definition price_query_part (price : option Q) : pystr :=
  match price with
  | Some pr =>
      if Qeq_bool pr 0 then []
      else lit "under " ++ str_int (rounded_price pr)
  | None => []
  end.

(** The cleaning of a result title. *)
Definition clean_title (title : pystr) : pystr :=
  let clean_title := title in
  let clean_title :=
    replace (lit "Amazon") []
      (replace (lit "Flipkart") []
         (replace (lit "Flipkart.com") []
            (replace (lit "Amazon.in") [] clean_title))) in
  let clean_title :=
    strip (replace (lit "Online at Best Price") []
             (replace (lit "Buy ") [] clean_title)) in
  let clean_title :=
    strip (hd [] (split_on 58 (hd [] (split_on 124 clean_title)))) in
  strip_chars (lit " -:.,") clean_title.

(** [if exclude_brand and exclude_brand.lower() in title.lower()] *)
Definition brand_excluded (exclude_brand : option pystr) (title : pystr) : bool :=
  match exclude_brand with
  | Some b =>
      match b with
      | [] => false
      | _ :: _ => contains (lower b) (lower title)
      end
  | None => false
  end.

(** The loop over the results of one platform; [platform_count] is the
    number of entries kept so far. *)
Fixpoint scan_results (platform : Platform) (exclude_brand : option pystr)
    (platform_count : nat) (search_results : list RawResult)
  : list SearchResult :=
  match search_results with
  | [] => []
  | res :: rest =>
      if (5 <=? platform_count)%nat then []
      else
        let url := lower (get_default (href res) []) in
        let title := get_default (raw_title res) [] in
        if negb (existsb (fun pattern => contains pattern url)
                   (url_patterns platform))
        then scan_results platform exclude_brand platform_count rest
        else if brand_excluded exclude_brand title
        then scan_results platform exclude_brand platform_count rest
        else
          {| sr_title := clean_title title;
             sr_url := get_default (href res) [];
             sr_snippet := get_default (body res) [];
             sr_platform := pf_name platform |}
          :: scan_results platform exclude_brand (S platform_count) rest
  end.

(** The query sent for one platform. *)
Definition platform_query (category : pystr) (price : option Q)
    (platform : Platform) : pystr :=
  let base_query := lit "best " ++ category in
  let base_query :=
    match price_query_part price with
    | [] => base_query
    | _ :: _ => base_query ++ lit " " ++ price_query_part price
    end in
  base_query ++ lit " site:" ++ pf_site platform.

Section SearchService.

(** [DDGS.text(query, region, max_results)]; [Raise] when the engine
    fails. *)
Variable ddgs_text : pystr -> result (list RawResult).

Definition search_competitors (product_name category : pystr)
    (exclude_brand : option pystr) (price : option Q) : list SearchResult :=
  concat
    (map (fun platform =>
            match ddgs_text (platform_query category price platform) with
            | Ok search_results =>
                scan_results platform exclude_brand 0 search_results
            | Raise _ => []
            end)
         platforms).

End SearchService.

(** The constructor of [ProductInput] with its field checks. *)
Definition new_ProductInput (title description category brand : pystr)
    (platform url : option pystr) (market_rank : option Z)
    (image_url : option pystr) (price : option Q) : result ProductInput :=
  let p := {| title := title; description := description;
              category := category; brand := brand; platform := platform;
              url := url; market_rank := market_rank;
              image_url := image_url; price := price |} in
  if valid_product p then Ok p else Raise ValidationError.

Section CompetitorSearch.

Variable ddgs_text : pystr -> result (list RawResult).

Definition get_automated_competitors (product : ProductInput)
  : result (list ProductInput) :=
  let search_results :=
    search_competitors ddgs_text (title product) (category product)
      (Some (brand product)) (price product) in
  mapM (fun e : Z * SearchResult =>
          let '(i, res) := e in
          let comp_desc := sr_snippet res in
          let comp_desc :=
            if Qltb (len comp_desc) 50
            then lit "Top rated " ++ category product ++ lit " from " ++
                 sr_title res ++ lit ". " ++ sr_snippet res
            else comp_desc in
          new_ProductInput (sr_title res) comp_desc (category product)
            (lit "Top Competitor") (Some (sr_platform res))
            (Some (sr_url res)) (Some i) None None)
       (enumerate 1 search_results).

End CompetitorSearch.

(** ** routers/analyze.py *)

(** The answer of an endpoint: the value returned, or the status code of
    the [HTTPException] raised. *)
Inductive http (A : Type) : Type :=
| Http_ok (a : A)
| HTTPException (status_code : Z).

Arguments Http_ok {A} a.
Arguments HTTPException {A} status_code.

(** The dictionary returned by [simulate_ai_recommendation]. *)
Record AiRecommendation : Type := {
  recommendation_text : pystr;
  is_recommended : bool;
  found_brand : bool;
  found_product : bool;
  sources : list pystr
}.

Record AnalysisResult : Type := {
  ar_product : ProductInput;
  ai_visibility_score : Q;
  score_breakdown : ScoreBreakdown;
  weakness_analysis : WeaknessAnalysis;
  generated_queries : list pystr;
  ar_sentiment : option SentimentResult;
  ai_recommendation : option AiRecommendation
}.

(** The constructor of [AnalysisResult] checks [ge=0, le=100] on the
    visibility score. *)
Definition new_AnalysisResult (product : ProductInput) (score : Q)
    (breakdown : ScoreBreakdown) (weaknesses : WeaknessAnalysis)
    (queries : list pystr) (sentiment : option SentimentResult)
    (recommendation : option AiRecommendation) : result AnalysisResult :=
  if in_0_100 score
  then Ok {| ar_product := product; ai_visibility_score := score;
             score_breakdown := breakdown; weakness_analysis := weaknesses;
             generated_queries := queries; ar_sentiment := sentiment;
             ai_recommendation := recommendation |}
  else Raise ValidationError.

Record URLAnalysisResult : Type := {
  scraped_data : ProductInput;
  analysis : AnalysisResult
}.

(** The dictionary returned by [fetch_product_details]. *)
Record ScrapedDetails : Type := {
  sd_title : pystr;
  sd_description : pystr;
  sd_image_url : option pystr
}.

Record MarketVisibility : Type := {
  mv_query : pystr;
  mv_position : Z + pystr;
  top_results : list SearchResult
}.

Record FeatureComparison : Type := {
  competitor : pystr;
  common_features : list pystr;
  missing_features : list pystr;
  unique_features : list pystr
}.

Record FeatureReport : Type := {
  your_features : list pystr;
  comparison : list FeatureComparison
}.

(** [x in l] on a list of strings. *)
Definition mem (x : pystr) (l : list pystr) : bool := existsb (pystr_eqb x) l.

(** [list(set(l))]: each element once.  Python leaves the order of the
    result open; here the elements come in the order of their first
    occurrence. *)
Fixpoint dedup (l : list pystr) : list pystr :=
  match l with
  | [] => []
  | x :: l' => x :: filter (fun y => negb (pystr_eqb x y)) (dedup l')
  end.

(** [list(set(a) & set(b))] and [list(set(a) - set(b))] *)
Definition set_inter (a b : list pystr) : list pystr :=
  filter (fun x => mem x b) (dedup a).
Definition set_diff (a b : list pystr) : list pystr :=
  filter (fun x => negb (mem x b)) (dedup a).

(** The search loop of [check_market_visibility]: [i] is the index of
    the head of the list. *)
Fixpoint found_at_from (brand_lower : pystr) (i : Z)
    (results : list SearchResult) : Z :=
  match results with
  | [] => (-1)%Z
  | res :: rest =>
      if contains brand_lower (lower (sr_title res)) ||
         contains brand_lower (lower (sr_url res))
      then (i + 1)%Z
      else found_at_from brand_lower (i + 1) rest
  end.

Section Router.

Variable embed : pystr -> list Q.
Variable cosine : list Q -> list Q -> Q.
Variable flesch_reading_ease : pystr -> result Q.
Variable analyze_product_sentiment : ProductInput -> SentimentResult.
(** [IntelligenceService.simulate_ai_recommendation]: every path of it
    returns the dictionary. *)
Variable simulate_ai_recommendation :
  ProductInput -> option Q -> AiRecommendation.
Variable ddgs_text : pystr -> result (list RawResult).
(** [SearchService.fetch_product_details]: the scraper catches its own
    failures and always returns the dictionary. *)
Variable fetch_product_details : pystr -> ScrapedDetails.

Definition analyze_product (product : ProductInput) : http AnalysisResult :=
  match
    (r <- score_product embed cosine flesch_reading_ease product ;;
     let '(final_score, score_breakdown, queries) := r in
     let weakness_analysis := analyze_weaknesses product score_breakdown in
     let sentiment := analyze_product_sentiment product in
     let ai_recommendation :=
       simulate_ai_recommendation product (price product) in
     let final_score :=
       if is_recommended ai_recommendation
       then py_min 100 (final_score + 10) else final_score in
     new_AnalysisResult product final_score score_breakdown
       weakness_analysis (firstn 5 queries) (Some sentiment)
       (Some ai_recommendation))
  with
  | Ok a => Http_ok a
  | Raise _ => HTTPException 500
  end.

Definition fetch_competitors (product : ProductInput)
  : http (list ProductInput) :=
  match get_automated_competitors ddgs_text product with
  | Ok competitors => Http_ok competitors
  | Raise _ => HTTPException 500
  end.

Definition check_market_visibility (product : ProductInput)
  : http MarketVisibility :=
  let results :=
    search_competitors ddgs_text (title product) (category product)
      None None in
  let found_at := found_at_from (lower (brand product)) 0 results in
  Http_ok
    {| mv_query := title product ++ lit " " ++ category product;
       mv_position :=
         if (0 <? found_at)%Z then inl found_at
         else inr (lit "Not found in top results");
       top_results := results |}.

Definition compare_features (product : ProductInput) : http FeatureReport :=
  match get_automated_competitors ddgs_text product with
  | Raise _ => HTTPException 500
  | Ok competitors =>
      let user_features :=
        extract_features (title product) (description product) in
      Http_ok
        {| your_features := user_features;
           comparison :=
             map (fun comp =>
                    let comp_features :=
                      extract_features (title comp) (description comp) in
                    {| competitor := title comp;
                       common_features := set_inter user_features comp_features;
                       missing_features := set_diff comp_features user_features;
                       unique_features := set_diff user_features comp_features |})
                 competitors |}
  end.

Definition analyze_url (request_url : pystr) : http URLAnalysisResult :=
  let scraped_details := fetch_product_details request_url in
  match sd_title scraped_details, sd_description scraped_details with
  | [], [] => HTTPException 400
  | _, _ =>
      let title :=
        match sd_title scraped_details with
        | [] => lit "Unknown Product"
        | _ :: _ =>
            if Qltb (len (sd_title scraped_details)) 2
            then lit "Unknown Product" else sd_title scraped_details
        end in
      let description :=
        match sd_description scraped_details with
        | [] => lit "No detailed description available for this product page."
        | _ :: _ =>
            if Qltb (len (sd_description scraped_details)) 10
            then lit "No detailed description available for this product page."
            else sd_description scraped_details
        end in
      let brand := lit "Extracted Brand" in
      let brand :=
        if contains (lit " ") title then hd [] (split_on 32 title)
        else brand in
      match new_ProductInput title description (lit "Extracted Category")
              brand None None None (sd_image_url scraped_details) None with
      | Raise _ => HTTPException 500
      | Ok product =>
          match analyze_product product with
          | HTTPException status_code => HTTPException status_code
          | Http_ok analysis =>
              Http_ok {| scraped_data := product; analysis := analysis |}
          end
      end
  end.

End Router.

(** The answer of [POST /rank-products] (the endpoint is called
    [rank_products] in the router, like the method of the ranking
    service that it ends up calling). *)
Record RankingResult : Type := {
  your_product : RankedProduct;
  all_products : list RankedProduct;
  total_products : Z
}.

Section RankingRouter.

Variable embed : pystr -> list Q.
Variable cosine : list Q -> list Q -> Q.
Variable flesch_reading_ease : pystr -> result Q.
Variable analyze_product_sentiment : ProductInput -> SentimentResult.

Definition rank_products_endpoint (request_product : ProductInput)
    (request_competitors : list ProductInput) : http RankingResult :=
  match rank_against_competitors embed cosine flesch_reading_ease
          analyze_product_sentiment request_product request_competitors with
  | Ok (user_ranked, all_ranked) =>
      Http_ok {| your_product := user_ranked;
                 all_products := all_ranked;
                 total_products := Z.of_nat (length all_ranked) |}
  | Raise _ => HTTPException 500
  end.

End RankingRouter.

(** ** services/optimizer.py: the prompt and the choice of the provider *)

Definition nl : pystr := [10%N].
Definition dq : pystr := [34%N].

(** The lines ["- " + s] joined by [chr(10)]. *)
Definition bullet_lines (items : list pystr) : pystr :=
  join nl (map (fun s => lit "- " ++ s) items).

Definition _build_optimization_prompt (product : ProductInput)
    (suggestions : list pystr) (target_queries : option (list pystr))
    (additional_specs : option pystr) : pystr :=
  let prompt :=
    lit "You are an expert AI Visibility Optimizer. Your goal is to rewrite the product description to maximize its ranking in AI-driven search engines (like Perplexity, Gemini, ChatGPT)." ++
    nl ++ nl ++
    lit "**Product Information:**" ++ nl ++
    lit "- Title: " ++ title product ++ nl ++
    lit "- Category: " ++ category product ++ nl ++
    lit "- Brand: " ++ brand product ++ nl ++
    lit "- Current Description: " ++ description product ++ nl in
  let prompt :=
    match additional_specs with
    | Some ((_ :: _) as specs) =>
        prompt ++ nl ++ lit "**User Provided Specifications:**" ++ nl ++
        specs ++ nl
    | _ => prompt
    end in
  let prompt :=
    prompt ++ nl ++
    lit "**Optimization Goals (Must Address):**" ++ nl ++
    bullet_lines suggestions ++ nl ++ nl ++
    lit "**Strict Requirements:**" ++ nl ++
    lit "1. **LENGTH**: You MUST generate at least 400-600 words of technical, dense content. Do not stop early." ++
    nl ++
    lit "2. **SPECS**: Prioritize and integrate ALL " ++ dq ++
    lit "User Provided Specifications" ++ dq ++
    lit " listed above. They are critical." ++ nl ++
    lit "3. **DO NOT SIMPLIFY**: Keep every technical detail from the current description and expand upon it." ++
    nl ++
    lit "4. **STRUCTURE**: Use exactly these markdown headers: '# Overview', '## Key Features', '## Technical Specifications', '## AI Search Optimization Benefits'." ++
    nl ++
    lit "5. **FORMATTING**: Use bullet points for all features and specifications." ++
    nl ++
    lit "6. **CONTENT**: If the product is '" ++ title product ++
    lit "', explain why it is the definitive choice in the '" ++
    category product ++ lit "' category." ++ nl in
  let prompt :=
    match target_queries with
    | Some ((_ :: _) as queries) =>
        prompt ++ nl ++
        lit "**Directly answer these AI search queries within the text to ensure high visibility:**" ++
        nl ++ bullet_lines queries ++ nl
    | _ => prompt
    end in
  prompt ++ nl ++
  lit "Provide ONLY the detailed, optimized markdown-formatted description. No conversational filler. Start with the # Overview header.".

Section OptimizerService.

(** The settings read from the environment. *)
Variable MODEL_PROVIDER : pystr.
Variable GEMINI_API_KEY : pystr.
Variable HF_API_KEY : pystr.
(** The OpenAI client, when one was set up: the content of the first
    choice of the chat completion for a prompt, or the failure of the
    call. *)
Variable openai_client : option (pystr -> result pystr).
(** The two calls that catch their own failures and return the text or
    [None]. *)
Variable _call_gemini_api : pystr -> option pystr.
Variable _call_hf_api : pystr -> option pystr.

Definition optimize_description (product : ProductInput)
    (weakness_suggestions : list pystr)
    (target_queries : option (list pystr)) (additional_specs : option pystr)
    (provider : option pystr) : pystr * list pystr :=
  let prompt :=
    _build_optimization_prompt product weakness_suggestions target_queries
      additional_specs in
  let active_provider :=
    match provider with
    | Some ((_ :: _) as given) => given
    | _ => MODEL_PROVIDER
    end in
  let optimized_description :=
    if pystr_eqb active_provider (lit "gemini") &&
       negb (pystr_eqb GEMINI_API_KEY [])
    then _call_gemini_api prompt
    else if pystr_eqb active_provider (lit "huggingface") &&
            negb (pystr_eqb HF_API_KEY [])
    then _call_hf_api prompt
    else
      match openai_client with
      | Some create =>
          match create prompt with
          | Ok content => Some (strip content)
          | Raise _ => None
          end
      | None => None
      end in
  match optimized_description with
  | Some ((_ :: _) as text) =>
      (text, _extract_improvements (description product) text)
  | _ => _rule_based_optimization product weakness_suggestions
  end.

End OptimizerService.

(** ** services/intelligence.py: the deep comparison *)

Section IntelligenceService.

(** The Gemini client, when a key is configured: for a prompt, the text
    of the response ([None] when it has none), or the message of the
    failure. *)
Variable client : option (pystr -> option pystr + pystr).

Definition deep_compare_competitors (user_url : pystr)
    (competitor_urls : list pystr) : pystr :=
  match client with
  | None => lit "AI Client unavailable."
  | Some generate_content =>
      match competitor_urls with
      | [] => lit "No competitor URLs provided for comparison."
      | _ :: _ =>
          let target_urls := firstn 2 competitor_urls in
          let urls_str := join (lit ", ") ([user_url] ++ target_urls) in
          let prompt :=
            nl ++
            lit "        Analyze and compare the products at these URLs: " ++
            urls_str ++ nl ++
            lit "        Perform a deep technical comparison of their specs, features, and overall value." ++
            nl ++
            lit "        Highlight which one is superior for professional use and why." ++
            nl ++ lit "        " in
          match generate_content prompt with
          | inl (Some ((_ :: _) as text)) => text
          | inl _ => lit "Comparison failed to generate text."
          | inr e => lit "Comparison failed: " ++ e
          end
      end
  end.

End IntelligenceService.

(** ** routers/analyze.py: optimisation and deep comparison *)

Record OptimizationResult : Type := {
  original_product : ProductInput;
  optimized_description : pystr;
  original_score : Q;
  optimized_score : Q;
  improvements : list pystr;
  score_delta : Q
}.

Section OptimizationRouter.

Variable embed : pystr -> list Q.
Variable cosine : list Q -> list Q -> Q.
Variable flesch_reading_ease : pystr -> result Q.
Variable MODEL_PROVIDER : pystr.
Variable GEMINI_API_KEY : pystr.
Variable HF_API_KEY : pystr.
Variable openai_client : option (pystr -> result pystr).
Variable _call_gemini_api : pystr -> option pystr.
Variable _call_hf_api : pystr -> option pystr.
Variable client : option (pystr -> option pystr + pystr).

(** [POST /optimize-description]; the endpoint has the name of the
    method of the optimizer that it calls. *)
Definition optimize_description_endpoint (request_product : ProductInput)
    (request_target_queries : option (list pystr))
    (request_additional_specs : option pystr)
    (request_provider : option pystr) : http OptimizationResult :=
  match
    (r <- score_product embed cosine flesch_reading_ease request_product ;;
     let '(original_score, original_breakdown, _) := r in
     let weakness_analysis :=
       analyze_weaknesses request_product original_breakdown in
     let '(optimized_desc, improvements) :=
       optimize_description MODEL_PROVIDER GEMINI_API_KEY HF_API_KEY
         openai_client _call_gemini_api _call_hf_api request_product
         (suggestions weakness_analysis) request_target_queries
         request_additional_specs request_provider in
     optimized_product <-
       new_ProductInput (title request_product) optimized_desc
         (category request_product) (brand request_product)
         None None None None None ;;
     r' <- score_product embed cosine flesch_reading_ease optimized_product ;;
     let '(optimized_score, _, _) := r' in
     Ok {| original_product := request_product;
           optimized_description := optimized_desc;
           original_score := original_score;
           optimized_score := optimized_score;
           improvements := improvements;
           score_delta := py_round2 (optimized_score - original_score) |})
  with
  | Ok a => Http_ok a
  | Raise _ => HTTPException 500
  end.

(** [POST /deep-compare]; the answer is the text under the key
    "comparison". *)
Definition deep_compare (request_product : ProductInput)
    (request_competitors : list ProductInput) : http pystr :=
  let user_url :=
    match url request_product with Some u => u | None => [] end in
  let comp_urls :=
    flat_map (fun c => match url c with
                       | Some ((_ :: _) as u) => [u]
                       | _ => []
                       end)
             request_competitors in
  match user_url, comp_urls with
  | [], _ => Http_ok (lit "Missing URLs for deep comparison.")
  | _ :: _, [] => Http_ok (lit "Missing URLs for deep comparison.")
  | _ :: _, _ :: _ =>
      Http_ok (deep_compare_competitors client user_url comp_urls)
  end.

End OptimizationRouter.

(** ** services/intelligence.py: the simulated recommendation *)

Section RecommendationService.

(** [str(x)] on a float. *)
Variable str_float : Q -> pystr.
(** The Gemini client, when a key is configured.  Its first component
    is the grounded call: for a prompt, the text of the response
    ([None] when it has none) with the addresses of its grounding
    chunks, or the message of the failure; the second is the plain call
    of the fallback. *)
Variable client :
  option ((pystr -> (option pystr * list pystr) + pystr) *
          (pystr -> option pystr + pystr)).

Definition simulate_ai_recommendation (product : ProductInput)
    (price : option Q) : AiRecommendation :=
  match client with
  | None =>
      {| recommendation_text := lit "AI Client unavailable.";
         is_recommended := false; found_brand := false;
         found_product := false; sources := [] |}
  | Some (generate_grounded, generate_plain) =>
      let region := lit "India" in
      let price_context :=
        match price with
        | Some pr =>
            if Qeq_bool pr 0 then []
            else lit "under " ++ [8377%N] ++ str_float pr
        | None => []
        end in
      let prompt :=
        lit "Recommend 5 top products for " ++ category product ++
        lit " in " ++ region ++ lit " " ++ price_context ++
        lit ". Check specifically for '" ++ brand product ++
        lit "' and '" ++ title product ++ lit "'." in
      match generate_grounded prompt with
      | inl (response_text, uris) =>
          let text :=
            match response_text with
            | Some ((_ :: _) as t) => t
            | _ => lit "No response text available."
            end in
          let found_brand := contains (lower (brand product)) (lower text) in
          let found_product := contains (lower (title product)) (lower text) in
          let sources :=
            filter (fun uri => negb (pystr_eqb uri [])) uris in
          {| recommendation_text := text;
             is_recommended := found_brand || found_product;
             found_brand := found_brand;
             found_product := found_product;
             sources := dedup sources |}
      | inr e =>
          match generate_plain prompt with
          | inl response_text =>
              let fallback_text :=
                match response_text with Some t => t | None => [] end in
              {| recommendation_text :=
                   fallback_text ++ nl ++ nl ++ lit "(Grounding failed: " ++
                   e ++ lit ")";
                 is_recommended :=
                   contains (lower (brand product)) (lower fallback_text);
                 found_brand :=
                   contains (lower (brand product)) (lower fallback_text);
                 found_product :=
                   contains (lower (title product)) (lower fallback_text);
                 sources := [] |}
          | inr _ =>
              {| recommendation_text := lit "Simulation failed: " ++ e;
                 is_recommended := false; found_brand := false;
                 found_product := false; sources := [] |}
          end
      end
  end.

End RecommendationService.

(** * Notions used by the properties *)

(** [p] with its description replaced: the "otherwise identical" product
    of the relational properties. *)
Definition with_description (p : ProductInput) (d : pystr) : ProductInput :=
  {| title := title p; description := d; category := category p;
     brand := brand p; platform := platform p; url := url p;
     market_rank := market_rank p; image_url := image_url p;
     price := price p |}.

(** The structure markers of the bullet-point bonus, as code points:
    the bullet, the hyphen and the colon. *)
Definition is_marker (c : N) : bool :=
  ((c =? 8226) || (c =? 45) || (c =? 58))%N.

(** The description with every marker character taken out. *)
Definition strip_markers (d : pystr) : pystr :=
  filter (fun c => negb (is_marker c)) d.

(** The three ingredients of the completeness score, as the body of
    [calculate_completeness] computes them. *)
Definition completeness_text (p : ProductInput) : pystr :=
  lower (title p ++ lit " " ++ description p).

Definition found_concepts (p : ProductInput) : Q :=
  fold_left
    (fun found (ct : pystr * list pystr) =>
       if any_in (snd ct) (completeness_text p) then found + 1 else found)
    concepts 0.

Definition keyword_overlap (p : ProductInput) : Q :=
  count_in settings.COMPLETENESS_KEYWORDS (completeness_text p).

Definition length_score (p : ProductInput) : Q :=
  py_min 100 (len (description p) / 2000 * 100).

(** The weighted combination before the bonus and the clamp. *)
Definition completeness_base (p : ProductInput) : Q :=
  (found_concepts p / 6 * 100) * 0.7 +
  (keyword_overlap p / 28 * 100) * 0.1 +
  length_score p * 0.2.

(** The weighted sum of the specification: 0.4, 0.2, 0.2 and 0.2. *)
Definition weighted_sum (s k c r : Q) : Q :=
  0.4 * s + 0.2 * k + 0.2 * c + 0.2 * r.

(** [r] is [x] rounded to two decimal places: a whole number of
    hundredths at distance at most half a hundredth from [x]. *)
Definition rounded_to_2_decimals (x r : Q) : Prop :=
  (exists n : Z, r == inject_Z n / 100) /\
  x - (1 # 200) <= r /\ r <= x + (1 # 200).

(** [l1] is [l2] with some entries left out, the order kept. *)
Inductive subsequence {A} : list A -> list A -> Prop :=
| subseq_nil : subsequence [] []
| subseq_skip x l1 l2 : subsequence l1 l2 -> subsequence l1 (x :: l2)
| subseq_keep x l1 l2 : subsequence l1 l2 -> subsequence (x :: l1) (x :: l2).

(** The seven feature tags, in the order of the mapping. *)
Definition feature_tags : list pystr :=
  map lit ["wireless"; "bluetooth"; "noise cancel"; "fast charge";
           "battery life"; "material"; "design"]%string.

(** A product given by its four required fields. *)
Definition mk_product (t d c b : pystr) : ProductInput :=
  {| title := t; description := d; category := c; brand := b;
     platform := None; url := None; market_rank := None;
     image_url := None; price := None |}.

(** The product of the weakness example of the specification. *)
Definition acme_x1 : ProductInput :=
  mk_product (lit "Acme X1") (lit "A decent gadget.") (lit "Gadgets")
    (lit "Acme").

(** A description whose hyphens hide three concept triggers, and one with
    a single colon. *)
Definition hyphenated : ProductInput :=
  mk_product (lit "T") (lit "blue-tooth bat-tery war-ranty") (lit "c")
    (lit "b").
Definition weight_250g : ProductInput :=
  mk_product (lit "T") (lit "Weight: 250g") (lit "c") (lit "b").

(** [b] may follow [a] in a list sorted by descending score. *)
Definition desc {A} (a b : A * Q) : Prop := snd b <= snd a.

(** The entries whose score is [v], in the order of the list. *)
Definition with_score {A} (v : Q) (l : list (A * Q)) : list (A * Q) :=
  filter (fun e => Qeq_bool (snd e) v) l.

(** The product and the score of a ranked entry. *)
Definition scored_of (r : RankedProduct) : ProductInput * Q :=
  (product r, score r).

(** The example product as listed on a marketplace: the same text, hence
    the same scores, and a product that differs from [acme_x1]. *)
Definition acme_x1_listed : ProductInput :=
  {| title := title acme_x1; description := description acme_x1;
     category := category acme_x1; brand := brand acme_x1;
     platform := Some (lit "amazon"); url := None; market_rank := Some 3%Z;
     image_url := None; price := Some 19.99 |}.

(** A listing whose description names the brand, which holds the
    category. *)
Definition smart_home_hub : ProductInput :=
  mk_product (lit "Hub") (lit "A smart home co hub.") (lit "Smart Home")
    (lit "Smart Home Co").

(** Stand-ins for the external services, for the concrete examples. *)
Definition embed0 (text : pystr) : list Q := [1; 0].
Definition cosine0 (a b : list Q) : Q := 0.3.
Definition flesch0 (text : pystr) : result Q := Ok 60.
Definition flesch_failing (text : pystr) : result Q := Raise ValueError.
Definition breakdown0 : ScoreBreakdown :=
  {| semantic_relevance := 60; keyword_coverage := 0;
     completeness := 11.83; readability := 71.43 |}.
Definition sentiment0 (p : ProductInput) : SentimentResult :=
  {| pros := [lit "High quality features"]; cons := [lit "None identified"] |}.

(** The remapping of the Flesch reading ease in [calculate_readability]. *)
Definition readability_curve (flesch_score : Q) : Q :=
  if Qltb flesch_score 0 then 10
  else if Qltb flesch_score 30 then 40 + flesch_score / 30 * 10
  else 50 + (flesch_score - 30) / 70 * 50.

(** The bonus of [calculate_semantic_relevance] for a brand named in the
    title. *)
Definition brand_bonus (p : ProductInput) : Q :=
  if contains (lower (brand p)) (lower (title p)) then 10 else 0.

(** The labels that [analyze_weaknesses] can report as missing. *)
Definition spec_labels : list pystr :=
  map lit ["specifications"; "dimensions"; "weight"; "material";
           "warranty"]%string.

(** Stand-ins that tell texts apart: the embedding of a text is its
    length, the similarity to a document is a tenth of that length. *)
Definition embed_len (text : pystr) : list Q := [len text].
Definition cosine_hd (a b : list Q) : Q := hd 0 b / 10.

(** The test of [_extract_improvements] for a keyword that the rewritten
    text has and the original has not. *)
Definition improvement_added (original optimized kw : pystr) : bool :=
  contains kw (lower optimized) && negb (contains kw (lower original)).

(** ** Notions for the competitor search and the endpoints *)

(** The punctuation taken from the ends of a cleaned title. *)
Definition is_edge_punctuation (c : N) : bool :=
  existsb (N.eqb c) (lit " -:.,").

(** A cleaned title holds no bar and no colon, and neither starts nor
    ends with a space, a hyphen, a colon, a full stop or a comma. *)
Definition title_is_clean (t : pystr) : Prop :=
  ~ In 124%N t /\ ~ In 58%N t /\
  (forall c, hd_error t = Some c -> is_edge_punctuation c = false) /\
  (forall c, hd_error (rev t) = Some c -> is_edge_punctuation c = false).

(** The address looks like a product page of the platform. *)
Definition url_matches (platform : Platform) (url : pystr) : bool :=
  existsb (fun pattern => contains pattern (lower url)) (url_patterns platform).

(** An entry kept for a platform: it carries the platform's name, its
    address is a product page, its title is a cleaned title. *)
Definition from_platform (platform : Platform) (r : SearchResult) : Prop :=
  sr_platform r = pf_name platform /\
  url_matches platform (sr_url r) = true /\
  exists title, sr_title r = clean_title title.

Definition amazon : Platform :=
  {| pf_name := lit "Amazon"; pf_site := lit "amazon.in";
     url_patterns := [lit "/dp/"; lit "/gp/product/"] |}.
Definition flipkart : Platform :=
  {| pf_name := lit "Flipkart"; pf_site := lit "flipkart.com";
     url_patterns := [lit "/p/"] |}.

(** The description given to a competitor: the snippet, introduced by a
    sentence when it has fewer than fifty characters. *)
Definition competitor_description (p : ProductInput) (res : SearchResult)
  : pystr :=
  if (length (sr_snippet res) <? 50)%nat
  then lit "Top rated " ++ category p ++ lit " from " ++ sr_title res ++
       lit ". " ++ sr_snippet res
  else sr_snippet res.

(** The competitor built from the numbered entry [e] of the search. *)
Definition competitor_of (p : ProductInput) (e : Z * SearchResult)
  : ProductInput :=
  {| title := sr_title (snd e);
     description := competitor_description p (snd e);
     category := category p; brand := lit "Top Competitor";
     platform := Some (sr_platform (snd e)); url := Some (sr_url (snd e));
     market_rank := Some (fst e); image_url := None; price := None |}.

(** The entry names the brand in its title or in its address. *)
Definition mentions_brand (p : ProductInput) (r : SearchResult) : bool :=
  contains (lower (brand p)) (lower (sr_title r)) ||
  contains (lower (brand p)) (lower (sr_url r)).

(** The features of a product. *)
Definition features_of (p : ProductInput) : list pystr :=
  extract_features (title p) (description p).

(** An entry of the feature comparison, read as sets of tags. *)
Definition compares (p comp : ProductInput) (entry : FeatureComparison)
  : Prop :=
  competitor entry = title comp /\
  NoDup (common_features entry) /\ NoDup (missing_features entry) /\
  NoDup (unique_features entry) /\
  forall tag,
    (In tag (common_features entry) <->
     In tag (features_of p) /\ In tag (features_of comp)) /\
    (In tag (missing_features entry) <->
     In tag (features_of comp) /\ ~ In tag (features_of p)) /\
    (In tag (unique_features entry) <->
     In tag (features_of p) /\ ~ In tag (features_of comp)).

(** A search engine that knows two Amazon pages, one of them a category
    page, and fails on every other site. *)
Definition ddgs0 (query : pystr) : result (list RawResult) :=
  if contains (lit "site:amazon.in") query
  then Ok [ {| href := Some (lit "https://www.amazon.in/s?k=gadgets");
               raw_title := Some (lit "Gadgets : Amazon.in");
               body := Some (lit "Shop gadgets online.") |};
            {| href := Some (lit "https://www.amazon.in/Zeta-Z2/dp/B0ZETA");
               raw_title :=
                 Some (lit "Buy Zeta Z2 Online at Best Price | Amazon.in");
               body := Some (lit "Wireless gadget with long battery life.") |} ]
  else Raise ValueError.

(** A search engine whose only product page is titled with the name of
    the platform. *)
Definition ddgs_untitled (query : pystr) : result (list RawResult) :=
  if contains (lit "site:amazon.in") query
  then Ok [ {| href := Some (lit "https://www.amazon.in/dp/B0ZETA");
               raw_title := Some (lit "Amazon.in");
               body := Some (lit "Wireless gadget.") |} ]
  else Raise ValueError.

(** The recommendation returned when no client is configured. *)
Definition recommendation0 (p : ProductInput) (price : option Q)
  : AiRecommendation :=
  {| recommendation_text := lit "AI Client unavailable.";
     is_recommended := false; found_brand := false; found_product := false;
     sources := [] |}.

(** Scraped pages: a title of one word, and a title that starts with a
    space. *)
Definition details0 (url : pystr) : ScrapedDetails :=
  {| sd_title := lit "Zeta Z2 Gadget"; sd_description := lit "Short.";
     sd_image_url := None |}.
Definition details_leading_space (url : pystr) : ScrapedDetails :=
  {| sd_title := lit " Zeta Z2"; sd_description := [];
     sd_image_url := None |}.

(** The title and the description kept from a scraped page, and the
    first word of a text. *)
Definition scraped_title (d : ScrapedDetails) : pystr :=
  if (length (sd_title d) <? 2)%nat then lit "Unknown Product"
  else sd_title d.
Definition scraped_description (d : ScrapedDetails) : pystr :=
  if (length (sd_description d) <? 10)%nat
  then lit "No detailed description available for this product page."
  else sd_description d.
Definition first_word (s : pystr) : pystr := hd [] (split_on 32 s).


(** The addresses of the competitors that have one. *)
Definition given_urls (competitors : list ProductInput) : list pystr :=
  filter (fun u => negb (pystr_eqb u []))
    (flat_map (fun c => match url c with Some u => [u] | None => [] end)
       competitors).

(** A language model that answers every prompt with the same text, and
    one that is not available. *)
Definition llm_fixed (text : pystr) (prompt : pystr) : option pystr :=
  Some text.
Definition llm_none (prompt : pystr) : option pystr := None.

(** The example product with the address of its page. *)
Definition acme_x1_online : ProductInput :=
  {| title := title acme_x1; description := description acme_x1;
     category := category acme_x1; brand := brand acme_x1;
     platform := Some (lit "Amazon");
     url := Some (lit "https://www.amazon.in/Acme-X1/dp/B0ACME");
     market_rank := None; image_url := None; price := None |}.


(** A client whose grounded answer names the brand Acme and cites one
    page twice, and a client whose calls both fail. *)
Definition client_acme :
  option ((pystr -> (option pystr * list pystr) + pystr) *
          (pystr -> option pystr + pystr)) :=
  Some (fun prompt =>
          inl (Some (lit "1. ACME X1 is a solid pick."),
               [lit "https://example.com/a"; []; lit "https://example.com/a"]),
        fun prompt => inl None).
Definition client_failing :
  option ((pystr -> (option pystr * list pystr) + pystr) *
          (pystr -> option pystr + pystr)) :=
  Some (fun prompt => inr (lit "quota"), fun prompt => inr (lit "quota")).

(** Floats printed by their integer part, for the examples. *)
Definition str_float0 (x : Q) : pystr := str_int (Qfloor x) ++ lit ".0".

(** * Properties *)

(** ** Numbers *)

Lemma Qltb_lt (a b : Q) : Qltb a b = true <-> a < b.
Proof.
  unfold Qltb. rewrite negb_true_iff.
  split; intro H.
  - apply Qnot_le_lt. intro Hle. apply Qle_bool_iff in Hle. congruence.
  - destruct (Qle_bool b a) eqn:E; [|reflexivity].
    apply Qle_bool_iff in E. exfalso. apply (Qlt_not_le _ _ H E).
Qed.

Lemma Qltb_ge (a b : Q) : Qltb a b = false <-> b <= a.
Proof.
  unfold Qltb. rewrite negb_false_iff. apply Qle_bool_iff.
Qed.

Lemma py_max_lub (a b : Q) : a <= py_max a b /\ b <= py_max a b.
Proof.
  unfold py_max. destruct (Qltb a b) eqn:E.
  - apply Qltb_lt in E. split; lra.
  - apply Qltb_ge in E. split; lra.
Qed.

Lemma py_min_glb (a b : Q) : py_min a b <= a /\ py_min a b <= b.
Proof.
  unfold py_min. destruct (Qltb b a) eqn:E.
  - apply Qltb_lt in E. split; lra.
  - apply Qltb_ge in E. split; lra.
Qed.

Lemma py_min_ge (a b c : Q) : c <= a -> c <= b -> c <= py_min a b.
Proof. unfold py_min. destruct (Qltb b a); auto. Qed.

Lemma py_min_mono (a b c : Q) : b <= c -> py_min a b <= py_min a c.
Proof.
  intro H. unfold py_min.
  destruct (Qltb b a) eqn:E1; destruct (Qltb c a) eqn:E2;
    try apply Qltb_lt in E1; try apply Qltb_ge in E1;
    try apply Qltb_lt in E2; try apply Qltb_ge in E2; lra.
Qed.

Lemma py_max_mono (a b c : Q) : b <= c -> py_max a b <= py_max a c.
Proof.
  intro H. unfold py_max.
  destruct (Qltb a b) eqn:E1; destruct (Qltb a c) eqn:E2;
    try apply Qltb_lt in E1; try apply Qltb_ge in E1;
    try apply Qltb_lt in E2; try apply Qltb_ge in E2; lra.
Qed.

Lemma clamp_range (x : Q) : 0 <= clamp x /\ clamp x <= 100.
Proof.
  unfold clamp. split.
  - apply py_min_ge; [lra | apply py_max_lub].
  - apply py_min_glb.
Qed.

Lemma clamp_mono (x y : Q) : x <= y -> clamp x <= clamp y.
Proof. intro H. unfold clamp. apply py_min_mono, py_max_mono, H. Qed.

Lemma clamp_nonneg (x : Q) : 0 <= x -> clamp x == py_min 100 x.
Proof.
  intro H. unfold clamp, py_max.
  destruct (Qltb 0 x) eqn:E; [reflexivity|].
  apply Qltb_ge in E. assert (Hx : x == 0) by lra.
  unfold py_min.
  destruct (Qltb 0 100) eqn:E1; destruct (Qltb x 100) eqn:E2;
    try apply Qltb_lt in E1; try apply Qltb_ge in E1;
    try apply Qltb_lt in E2; try apply Qltb_ge in E2; lra.
Qed.

Lemma clamp_id (x : Q) : 0 <= x -> x <= 100 -> clamp x == x.
Proof.
  intros H0 H1. rewrite (clamp_nonneg x H0). unfold py_min.
  destruct (Qltb x 100) eqn:E; [reflexivity|].
  apply Qltb_ge in E. lra.
Qed.

Lemma in_0_100_iff (x : Q) : in_0_100 x = true <-> 0 <= x /\ x <= 100.
Proof.
  unfold in_0_100. rewrite andb_true_iff, !Qle_bool_iff. reflexivity.
Qed.

Lemma pdiv_ok (a b : Q) : ~ b == 0 -> pdiv a b = Ok (a / b).
Proof.
  intro H. unfold pdiv. destruct (Qeq_bool b 0) eqn:E; [|reflexivity].
  apply Qeq_bool_iff in E. contradiction.
Qed.

Lemma round_half_even_cases (q : Q) :
  let f := Qfloor q in
  (round_half_even q = f /\ q - inject_Z f <= 1 # 2) \/
  (round_half_even q = (f + 1)%Z /\ 1 # 2 <= q - inject_Z f).
Proof.
  intro f. unfold round_half_even. fold f.
  destruct (Qltb (q - inject_Z f) (1 # 2)) eqn:E1.
  - left. apply Qltb_lt in E1. split; [reflexivity | lra].
  - apply Qltb_ge in E1.
    destruct (Qltb (1 # 2) (q - inject_Z f)) eqn:E2.
    + right. split; [reflexivity | exact E1].
    + apply Qltb_ge in E2.
      destruct (Z.even f); [left | right]; split;
        solve [reflexivity | assumption].
Qed.

Lemma round_half_even_near (q : Q) :
  q - (1 # 2) <= inject_Z (round_half_even q) /\
  inject_Z (round_half_even q) <= q + (1 # 2).
Proof.
  pose proof (Qfloor_le q) as Hlo.
  pose proof (Qlt_floor q) as Hhi.
  rewrite inject_Z_plus in Hhi. change (inject_Z 1) with 1 in Hhi.
  destruct (round_half_even_cases q) as [[-> H] | [-> H]].
  - split; lra.
  - rewrite inject_Z_plus. change (inject_Z 1) with 1. split; lra.
Qed.

Lemma round_half_even_range (q : Q) (lo hi : Z) :
  inject_Z lo <= q -> q <= inject_Z hi ->
  (lo <= round_half_even q <= hi)%Z.
Proof.
  intros Hlo Hhi.
  pose proof (Qfloor_le q) as Hf.
  assert (Hlof : (lo <= Qfloor q)%Z).
  { rewrite <- (Qfloor_Z lo). apply Qfloor_resp_le, Hlo. }
  assert (Hfhi : (Qfloor q <= hi)%Z).
  { rewrite <- (Qfloor_Z hi). apply Qfloor_resp_le, Hhi. }
  destruct (round_half_even_cases q) as [[-> H] | [-> H]].
  - lia.
  - split; [lia|].
    assert (Hlt : inject_Z (Qfloor q) < inject_Z hi) by lra.
    rewrite <- Zlt_Qlt in Hlt. lia.
Qed.

Lemma py_round2_hundredth (q : Q) :
  exists n : Z, py_round2 q == inject_Z n / 100.
Proof. exists (round_half_even (q * 100)). reflexivity. Qed.

Lemma py_round2_near (q : Q) :
  q - (1 # 200) <= py_round2 q /\ py_round2 q <= q + (1 # 200).
Proof.
  unfold py_round2.
  destruct (round_half_even_near (q * 100)) as [H1 H2].
  set (n := inject_Z (round_half_even (q * 100))) in *.
  split.
  - apply Qle_shift_div_l; lra.
  - apply Qle_shift_div_r; lra.
Qed.

Lemma py_round2_range (q : Q) :
  0 <= q -> q <= 100 -> 0 <= py_round2 q /\ py_round2 q <= 100.
Proof.
  intros H0 H1. unfold py_round2.
  destruct (round_half_even_range (q * 100) 0 10000) as [Hlo Hhi].
  - change (inject_Z 0) with 0. lra.
  - change (inject_Z 10000) with 10000. lra.
  - rewrite Zle_Qle in Hlo, Hhi.
    change (inject_Z 0) with 0 in Hlo.
    change (inject_Z 10000) with 10000 in Hhi.
    set (n := inject_Z (round_half_even (q * 100))) in *.
    split.
    + apply Qle_shift_div_l; lra.
    + apply Qle_shift_div_r; lra.
Qed.

(** ** Strings *)

Lemma startswith_iff (needle hay : pystr) :
  startswith needle hay = true <-> exists post, hay = needle ++ post.
Proof.
  revert hay. induction needle as [|a needle IH]; intros hay; simpl.
  - split; [intros _; exists hay; reflexivity | reflexivity].
  - destruct hay as [|b hay].
    + split; [discriminate | intros [post H]; discriminate].
    + rewrite andb_true_iff, N.eqb_eq, IH. split.
      * intros [-> [post ->]]. exists post. reflexivity.
      * intros [post H]. injection H as -> ->. split; [reflexivity|].
        exists post. reflexivity.
Qed.

Lemma contains_iff (needle hay : pystr) :
  contains needle hay = true <->
  exists pre post, hay = pre ++ needle ++ post.
Proof.
  induction hay as [|b hay IH]; simpl.
  - rewrite orb_false_r, startswith_iff. split.
    + intros [post H]. exists [], post. exact H.
    + intros [pre [post H]]. destruct pre; [exists post; exact H|discriminate].
  - rewrite orb_true_iff, startswith_iff, IH. split.
    + intros [[post H] | [pre [post H]]].
      * exists [], post. exact H.
      * exists (b :: pre), post. simpl. rewrite H. reflexivity.
    + intros [pre [post H]]. destruct pre as [|c pre].
      * left. exists post. exact H.
      * right. injection H as _ H. exists pre, post. exact H.
Qed.

Lemma contains_surround (needle pre hay post : pystr) :
  contains needle hay = true -> contains needle (pre ++ hay ++ post) = true.
Proof.
  rewrite !contains_iff. intros [a [b ->]].
  exists (pre ++ a), (b ++ post). rewrite <- !app_assoc. reflexivity.
Qed.

Lemma lower_app (a b : pystr) : lower (a ++ b) = lower a ++ lower b.
Proof. apply map_app. Qed.

Lemma lower_cp_idem (c : N) : lower_cp (lower_cp c) = lower_cp c.
Proof.
  unfold lower_cp.
  destruct ((65 <=? c) && (c <=? 90))%N eqn:E; [|rewrite E; reflexivity].
  apply andb_true_iff in E. destruct E as [E1 E2].
  apply N.leb_le in E1, E2.
  replace (c + 32 <=? 90)%N with false by (symmetry; apply N.leb_gt; lia).
  rewrite andb_false_r. reflexivity.
Qed.

Lemma lower_idem (s : pystr) : lower (lower s) = lower s.
Proof.
  unfold lower. rewrite map_map. apply map_ext, lower_cp_idem.
Qed.

(** ** Counting *)

Lemma len_cons_nonzero {A} (x : A) (l : list A) : ~ len (x :: l) == 0.
Proof.
  unfold len. intro H. unfold Qeq in H.
  cbn [Qnum Qden inject_Z length] in H. lia.
Qed.

Lemma len_le {A} (l l' : list A) :
  (length l <= length l')%nat -> len l <= len l'.
Proof. intro H. unfold len. rewrite <- Zle_Qle. lia. Qed.

Lemma len_nonneg {A} (l : list A) : 0 <= len l.
Proof. unfold len. change 0 with (inject_Z 0). rewrite <- Zle_Qle. lia. Qed.

Lemma filter_length_mono {A} (f g : A -> bool) (l : list A) :
  (forall x, In x l -> f x = true -> g x = true) ->
  (length (filter f l) <= length (filter g l))%nat.
Proof.
  induction l as [|x l IH]; intro H; simpl; [lia|].
  assert (IH' := IH (fun y Hy => H y (or_intror Hy))).
  destruct (f x) eqn:Ef.
  - rewrite (H x (or_introl eq_refl) Ef). simpl. lia.
  - destruct (g x); simpl; lia.
Qed.

Lemma filter_length_strict {A} (f g : A -> bool) (l : list A) (k : A) :
  (forall x, In x l -> f x = true -> g x = true) ->
  In k l -> f k = false -> g k = true ->
  (length (filter f l) < length (filter g l))%nat.
Proof.
  induction l as [|x l IH]; intros H Hin Hf Hg; simpl; [destruct Hin|].
  assert (Hmono := filter_length_mono f g l (fun y Hy => H y (or_intror Hy))).
  destruct Hin as [-> | Hin].
  - rewrite Hf, Hg. simpl. lia.
  - assert (IH' := IH (fun y Hy => H y (or_intror Hy)) Hin Hf Hg).
    destruct (f x) eqn:Ef.
    + rewrite (H x (or_introl eq_refl) Ef). simpl. lia.
    + destruct (g x); simpl; lia.
Qed.

Lemma count_in_le_len (kws : list pystr) (text : pystr) :
  count_in kws text <= len kws.
Proof. apply len_le, filter_length_le. Qed.

(** ** Keyword coverage *)

Lemma calculate_keyword_coverage_eq (p : ProductInput) :
  calculate_keyword_coverage p =
  Ok (clamp (count_in (important_keywords p) (lower (description p)) / 13 * 100)).
Proof. reflexivity. Qed.

Lemma keyword_ratio_range (p : ProductInput) (text : pystr) :
  0 <= count_in (important_keywords p) text / 13 * 100 <= 100.
Proof.
  pose proof (count_in_le_len (important_keywords p) text) as H.
  pose proof (len_nonneg
    (filter (fun kw => contains kw text) (important_keywords p))) as H0.
  fold (count_in (important_keywords p) text) in H0.
  change (len (important_keywords p)) with 13 in H.
  set (c := count_in (important_keywords p) text) in *.
  split.
  - apply Qmult_le_0_compat; [|lra]. apply Qle_shift_div_l; lra.
  - assert (c / 13 <= 1) by (apply Qle_shift_div_r; lra). lra.
Qed.

Lemma important_keywords_lowercase (p : ProductInput) (kw : pystr) :
  In kw (important_keywords p) -> lower kw = kw.
Proof.
  unfold important_keywords. intros [<- | [<- | H]];
    [apply lower_idem | apply lower_idem |].
  simpl in H.
  repeat (destruct H as [<- | H]; [reflexivity|]). destruct H.
Qed.

Lemma count_in_surround (kws : list pystr) (pre d post : pystr) :
  count_in kws (lower d) <= count_in kws (lower (pre ++ d ++ post)).
Proof.
  apply len_le, filter_length_mono. intros kw _ H.
  rewrite !lower_app. apply contains_surround, H.
Qed.

Lemma keyword_ratio_mono (a b : Q) : a <= b -> a / 13 * 100 <= b / 13 * 100.
Proof.
  intro H. apply Qmult_le_compat_r; [|lra].
  apply Qmult_le_compat_r; [exact H|]. discriminate.
Qed.

(** Text put around the description never lowers the coverage. *)
Lemma keyword_coverage_surround (p : ProductInput) (pre post : pystr) :
  exists c c',
    calculate_keyword_coverage p = Ok c /\
    calculate_keyword_coverage
      (with_description p (pre ++ description p ++ post)) = Ok c' /\
    c <= c'.
Proof.
  eexists. eexists. split; [apply calculate_keyword_coverage_eq|].
  split; [apply calculate_keyword_coverage_eq|].
  apply clamp_mono, keyword_ratio_mono.
  change (important_keywords (with_description p (pre ++ description p ++ post)))
    with (important_keywords p).
  change (description (with_description p (pre ++ description p ++ post)))
    with (pre ++ description p ++ post).
  apply count_in_surround.
Qed.

(** An added occurrence of an absent important keyword raises the count
    of found keywords, hence the coverage, strictly. *)
Lemma keyword_coverage_strict (p : ProductInput) (kw pre post : pystr) :
  In kw (important_keywords p) ->
  contains kw (lower (description p)) = false ->
  contains kw (lower (pre ++ description p ++ post)) = true ->
  exists c c',
    calculate_keyword_coverage p = Ok c /\
    calculate_keyword_coverage
      (with_description p (pre ++ description p ++ post)) = Ok c' /\
    c < c'.
Proof.
  intros Hin Habs Hnew.
  eexists. eexists. split; [apply calculate_keyword_coverage_eq|].
  split; [apply calculate_keyword_coverage_eq|].
  change (important_keywords (with_description p (pre ++ description p ++ post)))
    with (important_keywords p).
  change (description (with_description p (pre ++ description p ++ post)))
    with (pre ++ description p ++ post).
  destruct (keyword_ratio_range p (lower (description p))) as [Ha0 Ha1].
  destruct (keyword_ratio_range p (lower (pre ++ description p ++ post)))
    as [Hb0 Hb1].
  rewrite (clamp_id _ Ha0 Ha1), (clamp_id _ Hb0 Hb1).
  assert (Hlt : count_in (important_keywords p) (lower (description p)) <
                count_in (important_keywords p)
                  (lower (pre ++ description p ++ post))).
  { unfold count_in, len. rewrite <- Zlt_Qlt. apply Nat2Z.inj_lt.
    apply (filter_length_strict _ _ _ kw); try assumption.
    intros x _ H. rewrite !lower_app. apply contains_surround, H. }
  apply Qmult_lt_compat_r; [reflexivity|].
  apply Qmult_lt_compat_r; [reflexivity | exact Hlt].
Qed.



(** The addition above keeps the description in one piece.  A keyword
    written into the middle of it is another edit: between "smart" and
    "home" it breaks the occurrences of the category and of the brand,
    and the coverage goes from 2/13 to 1/13 of 100. *)
Example keyword_inserted_inside_phrase :
  exists c c',
    calculate_keyword_coverage smart_home_hub = Ok c /\
    calculate_keyword_coverage
      (with_description smart_home_hub (lit "A smart top home co hub."))
      = Ok c' /\
    c == (2 # 13) * 100 /\ c' == (1 # 13) * 100.
Proof.
  eexists. eexists.
  split; [vm_compute; reflexivity|]. split; [vm_compute; reflexivity|].
  split; vm_compute; reflexivity.
Qed.

(** ** The composite score *)

Lemma Qltb_comp (a a' b b' : Q) : a == a' -> b == b' -> Qltb a b = Qltb a' b'.
Proof.
  intros Ha Hb.
  destruct (Qltb a b) eqn:E; symmetry.
  - apply Qltb_lt in E. apply Qltb_lt. lra.
  - apply Qltb_ge in E. apply Qltb_ge. lra.
Qed.

Lemma round_half_even_comp (x y : Q) :
  x == y -> round_half_even x = round_half_even y.
Proof.
  intro H. unfold round_half_even.
  rewrite (Qfloor_comp x y H).
  rewrite (Qltb_comp (x - inject_Z (Qfloor y)) (y - inject_Z (Qfloor y))
             (1 # 2) (1 # 2)) by lra.
  rewrite (Qltb_comp (1 # 2) (1 # 2) (x - inject_Z (Qfloor y))
             (y - inject_Z (Qfloor y))) by lra.
  reflexivity.
Qed.

Lemma py_round2_comp (x y : Q) : x == y -> py_round2 x == py_round2 y.
Proof.
  intro H. unfold py_round2.
  rewrite (round_half_even_comp (x * 100) (y * 100)) by lra.
  reflexivity.
Qed.

Lemma new_ScoreBreakdown_ok (s k c r : Q) (b : ScoreBreakdown) :
  new_ScoreBreakdown s k c r = Ok b ->
  b = {| semantic_relevance := s; keyword_coverage := k;
         completeness := c; readability := r |} /\
  (0 <= s <= 100) /\ (0 <= k <= 100) /\ (0 <= c <= 100) /\ (0 <= r <= 100).
Proof.
  unfold new_ScoreBreakdown.
  destruct (in_0_100 s && in_0_100 k && in_0_100 c && in_0_100 r) eqn:E;
    [|discriminate].
  intro H. injection H as <-.
  rewrite !andb_true_iff, !in_0_100_iff in E.
  tauto.
Qed.

Lemma new_ScoreBreakdown_in_range (s k c r : Q) :
  0 <= s <= 100 -> 0 <= k <= 100 -> 0 <= c <= 100 -> 0 <= r <= 100 ->
  new_ScoreBreakdown s k c r =
  Ok {| semantic_relevance := s; keyword_coverage := k;
        completeness := c; readability := r |}.
Proof.
  intros Hs Hk Hc Hr. unfold new_ScoreBreakdown.
  apply in_0_100_iff in Hs, Hk, Hc, Hr. rewrite Hs, Hk, Hc, Hr.
  reflexivity.
Qed.

Lemma calculate_final_score_eq (s k c r : Q) :
  calculate_final_score
    {| semantic_relevance := s; keyword_coverage := k;
       completeness := c; readability := r |} ==
  py_round2 (weighted_sum s k c r).
Proof.
  unfold calculate_final_score, weighted_sum. cbn [semantic_relevance
    keyword_coverage completeness readability].
  apply py_round2_comp.
  unfold settings.WEIGHT_SEMANTIC, settings.WEIGHT_KEYWORD,
    settings.WEIGHT_COMPLETENESS, settings.WEIGHT_READABILITY.
  lra.
Qed.

Lemma weighted_sum_range (s k c r : Q) :
  0 <= s <= 100 -> 0 <= k <= 100 -> 0 <= c <= 100 -> 0 <= r <= 100 ->
  0 <= weighted_sum s k c r <= 100.
Proof. unfold weighted_sum. intros. lra. Qed.

Lemma calculate_final_score_range (s k c r : Q) :
  0 <= s <= 100 -> 0 <= k <= 100 -> 0 <= c <= 100 -> 0 <= r <= 100 ->
  0 <= calculate_final_score
         {| semantic_relevance := s; keyword_coverage := k;
            completeness := c; readability := r |} <= 100.
Proof.
  intros Hs Hk Hc Hr.
  rewrite calculate_final_score_eq.
  destruct (weighted_sum_range s k c r Hs Hk Hc Hr) as [H0 H1].
  apply py_round2_range; assumption.
Qed.



(** The composite of the example breakdown: 24 + 0 + 2.366 + 14.286
    is 40.652, which rounds to 40.65. *)
Example calculate_final_score_breakdown0 :
  calculate_final_score breakdown0 == 40.65.
Proof. reflexivity. Qed.

(** A tie between two hundredths goes to the even one: 0.125 rounds
    to 0.12 and 0.375 to 0.38. *)
Example py_round2_ties : py_round2 0.125 == 0.12 /\ py_round2 0.375 == 0.38.
Proof. split; reflexivity. Qed.

(** ** Weakness analysis *)

(** The label recorded for a missing concept is the part of its key in
    front of the slash. *)
Example concept_labels :
  map (fun ct : pystr * list pystr => hd [] (split_on 47 (fst ct)))
      concepts_to_check =
  map lit ["specifications"; "dimensions"; "weight"; "material";
           "warranty"]%string.
Proof. reflexivity. Qed.

(** C4, as the code has it. For the product with title "Acme X1",
    description "A decent gadget.", category "Gadgets" and brand "Acme",
    whose description is shorter than MIN_DESCRIPTION_LENGTH = 50, and for
    any score breakdown, the clarity issues of the weakness analysis are
    exactly "Description too short", and the missing specifications are
    exactly "specifications", "dimensions", "weight", "material" and
    "warranty", in this order: the battery concept is reported under the
    first part of its key "specifications/battery". *)
Theorem acme_x1_weaknesses (b : ScoreBreakdown) :
  len (description acme_x1) < settings.MIN_DESCRIPTION_LENGTH /\
  In (lit "Description too short")
     (clarity_issues (analyze_weaknesses acme_x1 b)) /\
  clarity_issues (analyze_weaknesses acme_x1 b) =
    [lit "Description too short"] /\
  missing_specs (analyze_weaknesses acme_x1 b) =
    map lit ["specifications"; "dimensions"; "weight"; "material";
             "warranty"]%string.
Proof.
  split; [reflexivity|].
  split; [left; reflexivity|].
  split; reflexivity.
Qed.

(** C4, as stated, fails: "battery" is not among the missing
    specifications reported for the product. *)
Lemma acme_x1_battery_not_reported :
  ~ In (lit "battery") (missing_specs (analyze_weaknesses acme_x1 breakdown0)).
Proof.
  vm_compute. intuition discriminate.
Qed.

(** ** Feature extraction *)

Lemma fold_left_collect {A B} (f : A -> bool) (g : A -> B) (l : list A)
    (acc : list B) :
  fold_left (fun features x => if f x then features ++ [g x] else features)
            l acc =
  acc ++ map g (filter f l).
Proof.
  revert acc. induction l as [|x l IH]; intro acc; simpl.
  - rewrite app_nil_r. reflexivity.
  - rewrite IH. destruct (f x); simpl; [|reflexivity].
    rewrite <- app_assoc. reflexivity.
Qed.

Lemma extract_features_filter (t d : pystr) :
  extract_features t d =
  map fst (filter (fun ft : pystr * list pystr =>
                     any_in (snd ft) (lower (t ++ lit " " ++ d))) mapping).
Proof.
  unfold extract_features.
  exact (fold_left_collect
           (fun ft : pystr * list pystr =>
              any_in (snd ft) (lower (t ++ lit " " ++ d)))
           fst mapping []).
Qed.

Lemma subsequence_map_filter {A B} (f : A -> bool) (g : A -> B) (l : list A) :
  subsequence (map g (filter f l)) (map g l).
Proof.
  induction l as [|x l IH]; simpl; [constructor|].
  destruct (f x); simpl; constructor; exact IH.
Qed.

Lemma subsequence_In {A} (l1 l2 : list A) (x : A) :
  subsequence l1 l2 -> In x l1 -> In x l2.
Proof.
  induction 1 as [|y l1 l2 _ IH|y l1 l2 _ IH]; simpl; intro H.
  - exact H.
  - right. apply IH, H.
  - destruct H as [-> | H]; [left; reflexivity | right; apply IH, H].
Qed.

Lemma subsequence_NoDup {A} (l1 l2 : list A) :
  subsequence l1 l2 -> NoDup l2 -> NoDup l1.
Proof.
  induction 1 as [|y l1 l2 Hs IH|y l1 l2 Hs IH]; intro Hnd.
  - constructor.
  - inversion Hnd; subst. apply IH. assumption.
  - inversion Hnd as [|? ? Hnin Hnd']; subst. constructor.
    + intro Hin. apply Hnin. apply (subsequence_In _ _ _ Hs Hin).
    + apply IH, Hnd'.
Qed.

Lemma feature_tags_mapping : map fst mapping = feature_tags.
Proof. reflexivity. Qed.

Lemma NoDup_feature_tags : NoDup feature_tags.
Proof.
  unfold feature_tags.
  repeat (constructor; [vm_compute; intuition discriminate|]).
  constructor.
Qed.

Lemma any_in_iff (triggers : list pystr) (text : pystr) :
  any_in triggers text = true <->
  exists trigger, In trigger triggers /\ contains trigger text = true.
Proof. unfold any_in. apply existsb_exists. Qed.


(** A listing that names wireless, Bluetooth 5.0, ANC and battery hours. *)
Example extract_features_headphones :
  extract_features (lit "Sony WH Wireless")
    (lit "Bluetooth 5.0 with ANC and 30 hours battery") =
  map lit ["wireless"; "bluetooth"; "noise cancel"; "battery life"]%string.
Proof. reflexivity. Qed.

(** ** Completeness *)

Lemma len_cons {A} (x : A) (l : list A) : len (x :: l) == len l + 1.
Proof.
  unfold len. cbn [length]. rewrite Nat2Z.inj_succ. unfold Z.succ.
  rewrite inject_Z_plus. reflexivity.
Qed.

Lemma fold_left_count {A} (f : A -> bool) (l : list A) (init : Q) :
  fold_left (fun found x => if f x then found + 1 else found) l init ==
  init + len (filter f l).
Proof.
  revert init. induction l as [|x l IH]; intro init; cbn [fold_left filter].
  - change (len (@nil A)) with 0. lra.
  - rewrite IH. destruct (f x).
    + rewrite len_cons. lra.
    + lra.
Qed.

Lemma clamp_comp (x y : Q) : x == y -> clamp x == clamp y.
Proof. intro H. apply Qle_antisym; apply clamp_mono; lra. Qed.

Lemma py_min_comp (a x y : Q) : x == y -> py_min a x == py_min a y.
Proof. intro H. apply Qle_antisym; apply py_min_mono; lra. Qed.

(** The body of [calculate_completeness] never raises: its three
    divisors are 2000, the six concepts and the 28 keywords. *)
Lemma calculate_completeness_eq (p : ProductInput) :
  calculate_completeness p =
  Ok (clamp (if has_structure_marker (description p)
             then completeness_base p + 15 else completeness_base p)).
Proof. reflexivity. Qed.

Lemma found_concepts_range (p : ProductInput) : 0 <= found_concepts p <= 6.
Proof.
  unfold found_concepts.
  pose proof (fold_left_count
    (fun ct : pystr * list pystr => any_in (snd ct) (completeness_text p))
    concepts 0) as H.
  set (fc := fold_left _ _ _) in *.
  pose proof (len_nonneg
    (filter (fun ct : pystr * list pystr =>
               any_in (snd ct) (completeness_text p)) concepts)) as H0.
  assert (H1 : len (filter (fun ct : pystr * list pystr =>
                              any_in (snd ct) (completeness_text p)) concepts)
               <= len concepts) by apply len_le, filter_length_le.
  change (len concepts) with 6 in H1.
  lra.
Qed.

Lemma keyword_overlap_range (p : ProductInput) : 0 <= keyword_overlap p <= 28.
Proof.
  unfold keyword_overlap. split.
  - apply len_nonneg.
  - apply (count_in_le_len settings.COMPLETENESS_KEYWORDS).
Qed.

Lemma length_score_range (p : ProductInput) : 0 <= length_score p <= 100.
Proof.
  unfold length_score. split.
  - apply py_min_ge; [lra|].
    pose proof (len_nonneg (description p)) as H.
    apply Qmult_le_0_compat; [|lra]. apply Qle_shift_div_l; lra.
  - apply py_min_glb.
Qed.

Lemma length_score_mono (p q : ProductInput) :
  (length (description q) <= length (description p))%nat ->
  length_score q <= length_score p.
Proof.
  intro H. unfold length_score. apply py_min_mono.
  apply Qmult_le_compat_r; [|lra].
  apply Qmult_le_compat_r; [apply len_le, H | discriminate].
Qed.

Lemma Qdiv_unit_range (x n : Q) :
  0 < n -> 0 <= x <= n -> 0 <= x / n <= 1.
Proof.
  intros Hn [H0 H1]. split.
  - apply Qle_shift_div_l; [exact Hn | lra].
  - apply Qle_shift_div_r; [exact Hn | lra].
Qed.

Lemma completeness_base_range (p : ProductInput) :
  0 <= completeness_base p <= 100.
Proof.
  pose proof (found_concepts_range p) as Hf.
  pose proof (keyword_overlap_range p) as Hk.
  pose proof (length_score_range p) as Hl.
  unfold completeness_base.
  pose proof (Qdiv_unit_range (found_concepts p) 6 eq_refl Hf) as Hf'.
  pose proof (Qdiv_unit_range (keyword_overlap p) 28 eq_refl Hk) as Hk'.
  set (f := found_concepts p / 6) in *.
  set (k := keyword_overlap p / 28) in *.
  set (l := length_score p) in *.
  split; lra.
Qed.

Lemma contains_single_In (c : N) (d : pystr) :
  contains [c] d = true <-> In c d.
Proof.
  rewrite contains_iff. split.
  - intros [pre [post ->]]. apply in_or_app. right. left. reflexivity.
  - intro H. apply in_split in H. destruct H as [pre [post ->]].
    exists pre, post. reflexivity.
Qed.

Lemma has_structure_marker_iff (d : pystr) :
  has_structure_marker d = true <-> exists c, In c d /\ is_marker c = true.
Proof.
  unfold has_structure_marker. change (lit "-") with [45%N].
  change (lit ":") with [58%N]. unfold bullet.
  rewrite !orb_true_iff, !contains_single_In. split.
  - intros [[H | H] | H]; eexists; (split; [exact H | reflexivity]).
  - intros [c [Hin Hm]]. unfold is_marker in Hm.
    rewrite !orb_true_iff, !N.eqb_eq in Hm.
    destruct Hm as [[-> | ->] | ->]; tauto.
Qed.

Lemma strip_markers_no_marker (d : pystr) :
  has_structure_marker (strip_markers d) = false.
Proof.
  destruct (has_structure_marker (strip_markers d)) eqn:E; [|reflexivity].
  apply has_structure_marker_iff in E. destruct E as [c [Hin Hm]].
  unfold strip_markers in Hin. apply filter_In in Hin.
  destruct Hin as [_ Hn]. rewrite Hm in Hn. discriminate.
Qed.

Lemma strip_markers_length (d : pystr) :
  (length (strip_markers d) <= length d)%nat.
Proof. apply filter_length_le. Qed.




(** Also where no concept changes, the difference is not 15: for
    "Weight: 250g" the colon is one character of the length score, and the
    two scores differ by 15.01. *)
Example completeness_weight_250g :
  exists c c0,
    calculate_completeness weight_250g = Ok c /\
    calculate_completeness
      (with_description weight_250g
         (strip_markers (description weight_250g))) = Ok c0 /\
    c - c0 == 15.01.
Proof.
  eexists. eexists.
  split; [vm_compute; reflexivity|]. split; vm_compute; reflexivity.
Qed.

(** ** The embedder *)

Lemma compute_similarity_batch_nonempty (embed : pystr -> list Q)
    (cosine : list Q -> list Q -> Q) (query doc : pystr) (docs : list pystr) :
  compute_similarity_batch embed cosine query (doc :: docs) =
  Ok (map (cosine (embed query)) (map embed (doc :: docs))).
Proof. reflexivity. Qed.

Lemma compute_similarity_batch_empty (embed : pystr -> list Q)
    (cosine : list Q -> list Q -> Q) (query : pystr) :
  compute_similarity_batch embed cosine query [] = Raise ValueError.
Proof. reflexivity. Qed.

(** C5, as the code has it. For every query and every non-empty list of
    documents, [compute_similarity_batch] returns one score per document,
    in the order of the documents: the result has the length of the list
    and its i-th entry is the cosine of the query embedding and the
    embedding of the i-th document.  For the empty list there is no guard:
    the empty array of embeddings is handed to the similarity routine,
    whose input check raises. *)
Theorem compute_similarity_batch_spec (embed : pystr -> list Q)
    (cosine : list Q -> list Q -> Q) (query : pystr)
    (documents : list pystr) :
  documents <> [] ->
  (exists scores,
     compute_similarity_batch embed cosine query documents = Ok scores /\
     length scores = length documents /\
     forall i doc,
       nth_error documents i = Some doc ->
       nth_error scores i = Some (cosine (embed query) (embed doc))) /\
  compute_similarity_batch embed cosine query [] = Raise ValueError.
Proof.
  intro Hne. split; [|reflexivity].
  destruct documents as [|doc docs]; [contradiction|].
  rewrite compute_similarity_batch_nonempty.
  eexists. split; [reflexivity|]. split.
  - rewrite !length_map. reflexivity.
  - intros i d Hi. rewrite map_map.
    rewrite nth_error_map, Hi. reflexivity.
Qed.

Lemma compute_similarity_batch_spec_witness :
  (exists scores,
     compute_similarity_batch embed0 cosine0 (lit "query")
       [lit "first"; lit "second"] = Ok scores /\
     length scores = length [lit "first"; lit "second"] /\
     forall i doc,
       nth_error [lit "first"; lit "second"] i = Some doc ->
       nth_error scores i = Some (cosine0 (embed0 (lit "query")) (embed0 doc))) /\
  compute_similarity_batch embed0 cosine0 (lit "query") [] = Raise ValueError.
Proof.
  apply (compute_similarity_batch_spec embed0 cosine0 (lit "query")
           [lit "first"; lit "second"]).
  discriminate.
Defined.

(** C5, as stated, fails on the empty list of documents: the call raises
    and returns no sequence, empty or not. *)
Lemma compute_similarity_batch_empty_counterexample :
  compute_similarity_batch embed0 cosine0 (lit "query") [] <> Ok [] /\
  forall scores,
    compute_similarity_batch embed0 cosine0 (lit "query") [] <> Ok scores.
Proof.
  split; [discriminate|]. intros scores. discriminate.
Qed.

(** ** The sub-scores and the composite: totality and range *)

Lemma mapM_total {A B} (f : A -> result B) (l : list A) :
  (forall x, In x l -> exists y, f x = Ok y) ->
  exists ys, mapM f l = Ok ys /\ length ys = length l.
Proof.
  induction l as [|x l IH]; intro H.
  - exists []. split; reflexivity.
  - destruct (H x (or_introl eq_refl)) as [y Hy].
    destruct (IH (fun z Hz => H z (or_intror Hz))) as [ys [Hys Hlen]].
    exists (y :: ys). cbn [mapM]. rewrite Hy. cbn [bind]. rewrite Hys.
    cbn [bind length]. split; [reflexivity | congruence].
Qed.

Lemma bind_Ok_inv {A B} (m : result A) (k : A -> result B) (b : B) :
  bind m k = Ok b -> exists a, m = Ok a /\ k a = Ok b.
Proof.
  destruct m as [a|e]; cbn [bind]; intro H; [|discriminate].
  exists a. split; [reflexivity | exact H].
Qed.

(** The eleven probe queries: the seven templates filled in, then the
    four queries built from the category and the brand. *)
Lemma generate_ai_queries_eq (p : ProductInput) :
  generate_ai_queries p =
  Ok [ lit "Best " ++ category p ++ lit " for daily use";
       lit "Top rated " ++ category p;
       lit "Affordable " ++ category p;
       category p ++ lit " with best features";
       lit "High quality " ++ category p;
       lit "Professional " ++ category p;
       brand p ++ lit " " ++ category p ++ lit " review";
       category p;
       brand p ++ lit " " ++ category p;
       lit "best " ++ category p;
       lit "top " ++ category p ++ lit " brands" ].
Proof.
  vm_compute. fold (@app N). rewrite !app_nil_r. reflexivity.
Qed.

Section ScoringProperties.

Variable embed : pystr -> list Q.
Variable cosine : list Q -> list Q -> Q.
Variable flesch_reading_ease : pystr -> result Q.

Lemma calculate_semantic_relevance_total (p : ProductInput)
    (query : pystr) (queries : list pystr) :
  exists s,
    calculate_semantic_relevance embed cosine p (query :: queries) = Ok s /\
    0 <= s <= 100.
Proof.
  unfold calculate_semantic_relevance. cbv zeta.
  destruct (chunks_of _ _ _) as [|chunk chunks] eqn:E.
  - exists 0. split; [reflexivity | lra].
  - destruct (mapM_total
      (fun chunk0 =>
         similarities <-
           compute_similarity_batch embed cosine chunk0 (query :: queries) ;;
         pdiv (py_sum similarities) (len similarities))
      (chunk :: chunks)) as [ys [Hm Hlen]].
    { intros c _. rewrite compute_similarity_batch_nonempty. cbn [bind map].
      rewrite pdiv_ok by apply len_cons_nonzero. eexists. reflexivity. }
    rewrite Hm. cbn [bind].
    destruct ys as [|y ys]; [discriminate|].
    cbn [list_max bind].
    rewrite pdiv_ok by apply len_cons_nonzero. cbn [bind].
    rewrite pdiv_ok by (intro H; lra). cbn [bind].
    eexists. split; [reflexivity | apply clamp_range].
Qed.

Lemma calculate_semantic_relevance_range (p : ProductInput)
    (queries : list pystr) (s : Q) :
  calculate_semantic_relevance embed cosine p queries = Ok s ->
  0 <= s <= 100.
Proof.
  unfold calculate_semantic_relevance. cbv zeta.
  destruct (chunks_of _ _ _) as [|chunk chunks].
  - intro H. injection H as <-. lra.
  - intro H.
    apply bind_Ok_inv in H. destruct H as [all [_ H]].
    apply bind_Ok_inv in H. destruct H as [mx [_ H]].
    apply bind_Ok_inv in H. destruct H as [avg [_ H]].
    apply bind_Ok_inv in H. destruct H as [scaled [_ H]].
    injection H as <-. apply clamp_range.
Qed.

Lemma calculate_readability_total (p : ProductInput) :
  exists r, calculate_readability flesch_reading_ease p = Ok r /\
            0 <= r <= 100.
Proof.
  unfold calculate_readability. cbv zeta.
  destruct (flesch_reading_ease (description p)) as [f|e]; cbn [bind try_except].
  - destruct (Qltb f 0); cbn [bind try_except];
      [eexists; split; [reflexivity | apply clamp_range]|].
    destruct (Qltb f 30); unfold pdiv;
      [change (Qeq_bool 30 0) with false | change (Qeq_bool 70 0) with false];
      cbn [bind try_except];
      eexists; (split; [reflexivity | apply clamp_range]).
  - eexists. split; [reflexivity | apply clamp_range].
Qed.

(** The fallback of the bare [except]: the neutral 50. *)
Lemma calculate_readability_fallback (p : ProductInput) (e : exn) :
  flesch_reading_ease (description p) = Raise e ->
  calculate_readability flesch_reading_ease p = Ok 50.
Proof.
  intro H. unfold calculate_readability. cbv zeta. rewrite H. reflexivity.
Qed.

Lemma score_product_total (p : ProductInput) :
  exists queries s k c r,
    generate_ai_queries p = Ok queries /\
    calculate_semantic_relevance embed cosine p queries = Ok s /\
    calculate_keyword_coverage p = Ok k /\
    calculate_completeness p = Ok c /\
    calculate_readability flesch_reading_ease p = Ok r /\
    (0 <= s <= 100) /\ (0 <= k <= 100) /\ (0 <= c <= 100) /\
    (0 <= r <= 100) /\
    score_product embed cosine flesch_reading_ease p =
    Ok (calculate_final_score
          {| semantic_relevance := s; keyword_coverage := k;
             completeness := c; readability := r |},
        {| semantic_relevance := s; keyword_coverage := k;
           completeness := c; readability := r |},
        queries).
Proof.
  assert (Hex : exists q qs, generate_ai_queries p = Ok (q :: qs))
    by (rewrite generate_ai_queries_eq; eauto).
  destruct Hex as [q [qs Hq]].
  destruct (calculate_semantic_relevance_total p q qs) as [s [Hs Hsr]].
  exists (q :: qs).
  destruct (calculate_readability_total p) as [r [Hr Hrr]].
  exists s.
  exists (clamp (count_in (important_keywords p) (lower (description p))
                 / 13 * 100)).
  exists (clamp (if has_structure_marker (description p)
                 then completeness_base p + 15 else completeness_base p)).
  exists r.
  pose proof (clamp_range (count_in (important_keywords p)
                             (lower (description p)) / 13 * 100)) as Hkr.
  pose proof (clamp_range (if has_structure_marker (description p)
                           then completeness_base p + 15
                           else completeness_base p)) as Hcr.
  split; [exact Hq|]. split; [exact Hs|].
  split; [apply calculate_keyword_coverage_eq|].
  split; [apply calculate_completeness_eq|].
  split; [exact Hr|].
  split; [exact Hsr|]. split; [exact Hkr|]. split; [exact Hcr|].
  split; [exact Hrr|].
  unfold score_product. rewrite Hq. cbn [bind]. rewrite Hs. cbn [bind].
  rewrite calculate_keyword_coverage_eq. cbn [bind].
  rewrite calculate_completeness_eq. cbn [bind].
  rewrite Hr. cbn [bind].
  rewrite (new_ScoreBreakdown_in_range _ _ _ _ Hsr Hkr Hcr Hrr).
  reflexivity.
Qed.

End ScoringProperties.

Section ScoringClaims.

Variable embed : pystr -> list Q.
Variable cosine : list Q -> list Q -> Q.
Variable flesch_reading_ease : pystr -> result Q.

(** C1. For every valid product (non-empty title, category and brand, a
    description of at least ten characters), the four sub-scores
    returned by [calculate_semantic_relevance] on the generated queries,
    [calculate_keyword_coverage], [calculate_completeness] and
    [calculate_readability], and the composite returned by
    [score_product], exist and lie in the closed interval from 0 to
    100; so does any value that [calculate_semantic_relevance] returns
    on other queries. *)
Theorem scores_in_range (p : ProductInput) :
  valid_product p = true ->
  (exists queries s k c r f b,
     generate_ai_queries p = Ok queries /\
     calculate_semantic_relevance embed cosine p queries = Ok s /\
     calculate_keyword_coverage p = Ok k /\
     calculate_completeness p = Ok c /\
     calculate_readability flesch_reading_ease p = Ok r /\
     score_product embed cosine flesch_reading_ease p = Ok (f, b, queries) /\
     b = {| semantic_relevance := s; keyword_coverage := k;
            completeness := c; readability := r |} /\
     (0 <= s <= 100) /\ (0 <= k <= 100) /\ (0 <= c <= 100) /\
     (0 <= r <= 100) /\ (0 <= f <= 100)) /\
  (forall queries s,
     calculate_semantic_relevance embed cosine p queries = Ok s ->
     0 <= s <= 100).
Proof.
  intros _. split; [|apply calculate_semantic_relevance_range].
  destruct (score_product_total embed cosine flesch_reading_ease p)
    as [queries [s [k [c [r H]]]]].
  destruct H as [Hq [Hs [Hk [Hc [Hr [Hsr [Hkr [Hcr [Hrr Hsp]]]]]]]]].
  exists queries, s, k, c, r.
  eexists. eexists.
  split; [exact Hq|]. split; [exact Hs|]. split; [exact Hk|].
  split; [exact Hc|]. split; [exact Hr|]. split; [exact Hsp|].
  split; [reflexivity|].
  split; [exact Hsr|]. split; [exact Hkr|]. split; [exact Hcr|].
  split; [exact Hrr|].
  apply calculate_final_score_range; assumption.
Qed.

(** C8. Every sub-score function is total on valid products: each of
    the four returns a value and none raises; inside
    [calculate_readability], whenever the Flesch reading ease fails on
    the description, the error is caught and the score is the neutral
    default 50. *)
Theorem sub_scores_total (p : ProductInput) :
  valid_product p = true ->
  (exists queries s,
     generate_ai_queries p = Ok queries /\
     calculate_semantic_relevance embed cosine p queries = Ok s) /\
  (exists k, calculate_keyword_coverage p = Ok k) /\
  (exists c, calculate_completeness p = Ok c) /\
  (exists r, calculate_readability flesch_reading_ease p = Ok r) /\
  (forall e,
     flesch_reading_ease (description p) = Raise e ->
     calculate_readability flesch_reading_ease p = Ok 50).
Proof.
  intros _.
  destruct (score_product_total embed cosine flesch_reading_ease p)
    as [queries [s [k [c [r H]]]]].
  destruct H as [Hq [Hs [Hk [Hc [Hr _]]]]].
  split; [exists queries, s; split; assumption|].
  split; [exists k; exact Hk|].
  split; [exists c; exact Hc|].
  split; [exists r; exact Hr|].
  intros e He. apply (calculate_readability_fallback _ p e He).
Qed.

End ScoringClaims.

Lemma scores_in_range_witness :
  valid_product acme_x1 = true /\
  (exists queries s k c r f b,
     generate_ai_queries acme_x1 = Ok queries /\
     calculate_semantic_relevance embed0 cosine0 acme_x1 queries = Ok s /\
     calculate_keyword_coverage acme_x1 = Ok k /\
     calculate_completeness acme_x1 = Ok c /\
     calculate_readability flesch0 acme_x1 = Ok r /\
     score_product embed0 cosine0 flesch0 acme_x1 = Ok (f, b, queries) /\
     b = {| semantic_relevance := s; keyword_coverage := k;
            completeness := c; readability := r |} /\
     (0 <= s <= 100) /\ (0 <= k <= 100) /\ (0 <= c <= 100) /\
     (0 <= r <= 100) /\ (0 <= f <= 100)) /\
  (forall queries s,
     calculate_semantic_relevance embed0 cosine0 acme_x1 queries = Ok s ->
     0 <= s <= 100).
Proof.
  split; [reflexivity|].
  apply (scores_in_range embed0 cosine0 flesch0 acme_x1).
  reflexivity.
Defined.

Lemma sub_scores_total_witness :
  valid_product acme_x1 = true /\
  (exists queries s,
     generate_ai_queries acme_x1 = Ok queries /\
     calculate_semantic_relevance embed0 cosine0 acme_x1 queries = Ok s) /\
  (exists k, calculate_keyword_coverage acme_x1 = Ok k) /\
  (exists c, calculate_completeness acme_x1 = Ok c) /\
  (exists r, calculate_readability flesch_failing acme_x1 = Ok r) /\
  (forall e,
     flesch_failing (description acme_x1) = Raise e ->
     calculate_readability flesch_failing acme_x1 = Ok 50).
Proof.
  split; [reflexivity|].
  apply (sub_scores_total embed0 cosine0 flesch_failing acme_x1).
  reflexivity.
Defined.

(** The scores of the example product with a similarity of 0.3 to every
    query and a reading ease of 60: semantic relevance 50 plus the bonus
    for the brand in the title, no keyword found, one concept (the "x"
    of the title), and a composite of 40.65. *)
Example score_product_acme_x1 :
  exists f b queries,
    score_product embed0 cosine0 flesch0 acme_x1 = Ok (f, b, queries) /\
    semantic_relevance b == 60 /\ keyword_coverage b == 0 /\
    completeness b == (1 # 6) * 70 + 0.16 /\
    readability b == 50 + (30 # 70) * 50 /\ f == 40.65.
Proof.
  eexists. eexists. eexists.
  split; [vm_compute; reflexivity|].
  repeat split; vm_compute; reflexivity.
Qed.

(** With a failing reading-ease metric the readability is 50. *)
Example calculate_readability_failing :
  calculate_readability flesch_failing acme_x1 = Ok 50.
Proof. reflexivity. Qed.

(** ** Sorting by descending score *)

Section SortDesc.

Context {A : Type}.

Lemma insert_desc_perm (x : A * Q) (l : list (A * Q)) :
  Permutation (insert_desc x l) (x :: l).
Proof.
  induction l as [|y l IH]; cbn [insert_desc]; [reflexivity|].
  destruct (Qltb (snd x) (snd y)); [|reflexivity].
  rewrite IH. apply perm_swap.
Qed.

Lemma sort_desc_perm (l : list (A * Q)) : Permutation (sort_desc l) l.
Proof.
  induction l as [|x l IH]; cbn [sort_desc fold_right]; [reflexivity|].
  fold (sort_desc l). rewrite insert_desc_perm, IH. reflexivity.
Qed.

Lemma insert_desc_Forall (P : A * Q -> Prop) (x : A * Q) (l : list (A * Q)) :
  P x -> Forall P l -> Forall P (insert_desc x l).
Proof.
  intros Hx Hl. induction Hl as [|y l Hy Hl IH]; cbn [insert_desc].
  - constructor; [exact Hx | constructor].
  - destruct (Qltb (snd x) (snd y)).
    + constructor; assumption.
    + constructor; [exact Hx|]. constructor; assumption.
Qed.

Lemma insert_desc_sorted (x : A * Q) (l : list (A * Q)) :
  StronglySorted desc l -> StronglySorted desc (insert_desc x l).
Proof.
  induction 1 as [|y l Hs IH Hy]; cbn [insert_desc].
  - constructor; constructor.
  - destruct (Qltb (snd x) (snd y)) eqn:E.
    + apply Qltb_lt in E. constructor; [exact IH|].
      apply insert_desc_Forall; [unfold desc; lra | exact Hy].
    + apply Qltb_ge in E. constructor.
      * constructor; assumption.
      * constructor; [exact E|].
        apply (Forall_impl _ (P := desc y)); [|exact Hy].
        unfold desc. intros z Hz. lra.
Qed.

Lemma sort_desc_sorted (l : list (A * Q)) : StronglySorted desc (sort_desc l).
Proof.
  induction l as [|x l IH]; cbn [sort_desc fold_right]; [constructor|].
  apply insert_desc_sorted, IH.
Qed.

(** An entry only moves past entries of a greater score, so the order
    among entries of one score is kept. *)
Lemma insert_desc_stable (v : Q) (x : A * Q) (l : list (A * Q)) :
  with_score v (insert_desc x l) = with_score v (x :: l).
Proof.
  induction l as [|y l IH]; cbn [insert_desc]; [reflexivity|].
  destruct (Qltb (snd x) (snd y)) eqn:E; [|reflexivity].
  apply Qltb_lt in E.
  unfold with_score in *. cbn [filter] in *. rewrite IH.
  destruct (Qeq_bool (snd x) v) eqn:Ex; [|reflexivity].
  destruct (Qeq_bool (snd y) v) eqn:Ey; [|reflexivity].
  apply Qeq_bool_iff in Ex, Ey. lra.
Qed.

Lemma sort_desc_stable (v : Q) (l : list (A * Q)) :
  with_score v (sort_desc l) = with_score v l.
Proof.
  induction l as [|x l IH]; cbn [sort_desc fold_right]; [reflexivity|].
  fold (sort_desc l). rewrite insert_desc_stable.
  unfold with_score in *. cbn [filter]. rewrite IH. reflexivity.
Qed.

(** Two entries of equal score stay as they are. *)
Lemma sort_desc_tie (a b : A * Q) :
  snd a == snd b -> sort_desc [a; b] = [a; b].
Proof.
  intro H. cbn [sort_desc fold_right insert_desc].
  destruct (Qltb (snd a) (snd b)) eqn:E; [|reflexivity].
  apply Qltb_lt in E. lra.
Qed.

End SortDesc.

Lemma StronglySorted_map_inv {A B} (R : B -> B -> Prop) (f : A -> B)
    (l : list A) :
  StronglySorted R (map f l) -> StronglySorted (fun a b => R (f a) (f b)) l.
Proof.
  induction l as [|x l IH]; cbn [map]; intro H; [constructor|].
  inversion H as [|? ? Hs Hf]; subst. constructor; [apply IH, Hs|].
  rewrite Forall_map in Hf. exact Hf.
Qed.

Lemma next_where_first {A} (f : A -> bool) (l : list A) :
  (exists x, In x l /\ f x = true) ->
  exists pre r post,
    l = pre ++ r :: post /\ next_where f l = Ok r /\ f r = true /\
    forall y, In y pre -> f y = false.
Proof.
  induction l as [|x l IH]; intros [z [Hin Hz]]; [destruct Hin|].
  cbn [next_where]. destruct (f x) eqn:E.
  - exists [], x, l. split; [reflexivity|]. split; [reflexivity|].
    split; [exact E|]. intros y [].
  - destruct IH as [pre [r [post [Hl [Hn [Hr Hpre]]]]]].
    { destruct Hin as [-> | Hin]; [congruence|]. exists z. tauto. }
    exists (x :: pre), r, post. rewrite Hl.
    split; [reflexivity|]. rewrite <- Hl.
    split; [exact Hn|]. split; [exact Hr|].
    intros y [<- | Hy]; [exact E | apply Hpre, Hy].
Qed.

Lemma pystr_eqb_refl (a : pystr) : pystr_eqb a a = true.
Proof.
  induction a as [|x a IH]; cbn [pystr_eqb]; [reflexivity|].
  rewrite N.eqb_refl, IH. reflexivity.
Qed.

Lemma pystr_eqb_eq (a b : pystr) : pystr_eqb a b = true <-> a = b.
Proof.
  split; [|intros ->; apply pystr_eqb_refl].
  revert b. induction a as [|x a IH]; intros [|y b]; cbn [pystr_eqb];
    try discriminate; [reflexivity|].
  rewrite andb_true_iff, N.eqb_eq. intros [-> H]. f_equal. apply IH, H.
Qed.

Lemma option_eqb_refl {A} (eqb : A -> A -> bool) (o : option A) :
  (forall x, eqb x x = true) -> option_eqb eqb o o = true.
Proof. intro H. destruct o; cbn [option_eqb]; [apply H | reflexivity]. Qed.

Lemma product_eqb_refl (p : ProductInput) : product_eqb p p = true.
Proof.
  unfold product_eqb.
  rewrite !pystr_eqb_refl, !(option_eqb_refl pystr_eqb) by apply pystr_eqb_refl.
  rewrite (option_eqb_refl Z.eqb) by apply Z.eqb_refl.
  rewrite (option_eqb_refl Qeq_bool); [reflexivity|].
  intro x. apply Qeq_bool_iff. reflexivity.
Qed.

(** Products that compare equal agree on the four required fields. *)
Lemma product_eqb_fields (a b : ProductInput) :
  product_eqb a b = true ->
  title a = title b /\ description a = description b /\
  category a = category b /\ brand a = brand b.
Proof.
  unfold product_eqb. rewrite !andb_true_iff, !pystr_eqb_eq. tauto.
Qed.

(** ** Ranking *)

Section RankingProperties.

Variable embed : pystr -> list Q.
Variable cosine : list Q -> list Q -> Q.
Variable flesch_reading_ease : pystr -> result Q.
Variable analyze_product_sentiment : ProductInput -> SentimentResult.

Abbreviation score_product' := (score_product embed cosine flesch_reading_ease).
Abbreviation score_all' := (score_all embed cosine flesch_reading_ease).
Abbreviation make_ranked' := (make_ranked analyze_product_sentiment).
Abbreviation rank_products' :=
  (rank_products embed cosine flesch_reading_ease analyze_product_sentiment).
Abbreviation rank_against_competitors' :=
  (rank_against_competitors embed cosine flesch_reading_ease
     analyze_product_sentiment).

(** Every product of the cohort is scored, in order. *)
Lemma score_all_total (products : list ProductInput) :
  exists scored,
    score_all' products = Ok scored /\
    map fst scored = products /\
    forall p s, In (p, s) scored ->
                exists b queries, score_product' p = Ok (s, b, queries).
Proof.
  induction products as [|p products IH].
  - exists []. split; [reflexivity|]. split; [reflexivity|]. intros p s [].
  - destruct IH as [scored [Hs [Hm Hin]]].
    destruct (score_product_total embed cosine flesch_reading_ease p)
      as [queries [s [k [c [r H]]]]].
    destruct H as [_ [_ [_ [_ [_ [_ [_ [_ [_ Hp]]]]]]]]].
    eexists ((p, _) :: scored).
    unfold score_all in *. cbn [mapM]. rewrite Hp. cbn [bind].
    rewrite Hs. cbn [bind map fst].
    split; [reflexivity|]. split; [rewrite Hm; reflexivity|].
    intros p' s' [Heq | Hin'].
    + injection Heq as <- <-. eauto.
    + apply Hin, Hin'.
Qed.

Lemma scored_of_make_ranked (start : Z) (l : list (ProductInput * Q)) :
  map scored_of (map make_ranked' (enumerate start l)) = l.
Proof.
  revert start. induction l as [|[p s] l IH]; intro start; [reflexivity|].
  cbn [enumerate map]. rewrite IH. reflexivity.
Qed.

Lemma rank_of_make_ranked (start : Z) (l : list (ProductInput * Q))
    (i : nat) (r : RankedProduct) :
  nth_error (map make_ranked' (enumerate start l)) i = Some r ->
  rank r = (start + Z.of_nat i)%Z.
Proof.
  revert start i. induction l as [|[p s] l IH]; intros start i H.
  - destruct i; discriminate H.
  - destruct i as [|i]; cbn [enumerate map nth_error] in H.
    + injection H as <-. cbn [make_ranked rank]. lia.
    + apply IH in H. rewrite H. lia.
Qed.



End RankingProperties.


(** The subject twice in the cohort: the hyphenated product scores 40.89
    and leads, the two copies of the subject follow at 40.65 in their
    input order, and the entry returned for the subject is the one at
    rank 2. *)
Example rank_against_competitors_duplicate :
  exists user_ranked ranked,
    rank_against_competitors embed0 cosine0 flesch0 sentiment0 acme_x1
      [hyphenated; acme_x1] = Ok (user_ranked, ranked) /\
    map (fun r => (title (product r), rank r)) ranked =
      [(lit "T", 1%Z); (lit "Acme X1", 2%Z); (lit "Acme X1", 3%Z)] /\
    rank user_ranked = 2%Z.
Proof.
  eexists. eexists. split; [vm_compute; reflexivity|].
  split; vm_compute; reflexivity.
Qed.

(** Two products of equal score: the one listed first takes rank 1. *)
Example rank_products_tie :
  exists ranked,
    rank_products embed0 cosine0 flesch0 sentiment0
      [acme_x1; acme_x1_listed] = Ok ranked /\
    map (fun r => (product r, rank r)) ranked =
      [(acme_x1, 1%Z); (acme_x1_listed, 2%Z)] /\
    map (fun r => (rp_platform r, rp_market_rank r)) ranked =
      [(None, None); (Some (lit "amazon"), Some 3%Z)].
Proof.
  eexists. split; [vm_compute; reflexivity|].
  split; vm_compute; reflexivity.
Qed.

(** The same two products in the other order: again the first one leads. *)
Example rank_products_tie_swapped :
  exists ranked,
    rank_products embed0 cosine0 flesch0 sentiment0
      [acme_x1_listed; acme_x1] = Ok ranked /\
    map (fun r => (product r, rank r)) ranked =
      [(acme_x1_listed, 1%Z); (acme_x1, 2%Z)].
Proof.
  eexists. split; vm_compute; reflexivity.
Qed.

(** ** Adequacy of the loop and sort models *)

(** The rounds of the chunking loop: any fuel that covers the words gives
    the same chunks, so the loop always runs to its end. *)
Lemma chunks_of_fuel (n fuel1 fuel2 : nat) (words : list pystr) :
  (length words <= fuel1)%nat -> (length words <= fuel2)%nat ->
  chunks_of fuel1 (S n) words = chunks_of fuel2 (S n) words.
Proof.
  revert fuel2 words.
  induction fuel1 as [|fuel1 IH]; intros fuel2 words H1 H2.
  - destruct words; [|cbn [length] in H1; lia].
    destruct fuel2; reflexivity.
  - destruct words as [|w ws]; [destruct fuel2; reflexivity|].
    destruct fuel2 as [|fuel2]; [cbn [length] in H2; lia|].
    cbn [chunks_of]. f_equal.
    cbn [length] in H1, H2.
    pose proof (length_skipn (S n) (w :: ws)) as Hl. cbn [length] in Hl.
    apply IH; lia.
Qed.

(** The text scored for semantic relevance holds the full stop put
    after the title, so it always has a word and a first chunk. *)
Lemma split_from_nonempty (cur s : pystr) :
  cur <> [] -> split_from cur s <> [].
Proof.
  revert cur. induction s as [|c s IH]; intros cur Hc; cbn [split_from].
  - destruct cur; [contradiction | discriminate].
  - destruct (is_space c).
    + destruct cur; [contradiction | discriminate].
    + apply IH. discriminate.
Qed.

Lemma split_word (pre s : pystr) (c : N) :
  is_space c = false -> split_from [] (pre ++ c :: s) <> [].
Proof.
  intro Hc.
  assert (H : forall cur, split_from cur (pre ++ c :: s) <> []).
  { induction pre as [|a pre IH]; intro cur; cbn [app split_from].
    - rewrite Hc. apply split_from_nonempty. discriminate.
    - destruct (is_space a); [destruct cur|]; try apply IH; discriminate. }
  apply H.
Qed.

Lemma product_text_has_chunk (p : ProductInput) :
  chunks_of (length (split (title p ++ lit ". " ++ description p))) 200
    (split (title p ++ lit ". " ++ description p)) <> [].
Proof.
  pose proof (split_word (title p) (32%N :: description p) 46 eq_refl) as H.
  change (lit ". " ++ description p) with (46%N :: 32%N :: description p).
  unfold split.
  destruct (split_from [] (title p ++ 46%N :: 32%N :: description p));
    [contradiction | discriminate].
Qed.

(** A list sorted by descending score that agrees with [l] on the entries
    of every score, in their order, is the list computed by [sort_desc]:
    the stable sort is unique, whatever the algorithm. *)
Lemma stable_sorted_unique {A} (l1 l2 : list (A * Q)) :
  StronglySorted desc l1 -> StronglySorted desc l2 ->
  Permutation l1 l2 ->
  (forall v, with_score v l1 = with_score v l2) ->
  l1 = l2.
Proof.
  revert l2. induction l1 as [|x l1 IH]; intros l2 H1 H2 Hp Hs.
  - apply Permutation_nil in Hp. congruence.
  - destruct l2 as [|y l2];
      [apply Permutation_sym, Permutation_nil in Hp; discriminate|].
    inversion H1 as [|? ? H1s H1f]; subst.
    inversion H2 as [|? ? H2s H2f]; subst.
    assert (Hxy : snd x == snd y).
    { apply Qle_antisym.
      - assert (Hin : In x (y :: l2))
          by (apply (Permutation_in _ Hp); left; reflexivity).
        destruct Hin as [<- | Hin]; [lra|].
        rewrite Forall_forall in H2f. apply (H2f x Hin).
      - assert (Hin : In y (x :: l1))
          by (apply (Permutation_in _ (Permutation_sym Hp)); left;
              reflexivity).
        destruct Hin as [<- | Hin]; [lra|].
        rewrite Forall_forall in H1f. apply (H1f y Hin). }
    assert (Heq : x = y).
    { specialize (Hs (snd x)). unfold with_score in Hs. cbn [filter] in Hs.
      replace (Qeq_bool (snd x) (snd x)) with true in Hs
        by (symmetry; apply Qeq_bool_iff; reflexivity).
      replace (Qeq_bool (snd y) (snd x)) with true in Hs
        by (symmetry; apply Qeq_bool_iff; lra).
      congruence. }
    subst y. f_equal. apply IH; try assumption.
    + apply (Permutation_cons_inv Hp).
    + intro v. specialize (Hs v). unfold with_score in *. cbn [filter] in Hs.
      destruct (Qeq_bool (snd x) v); congruence.
Qed.

Lemma sort_desc_unique {A} (l l' : list (A * Q)) :
  StronglySorted desc l' -> Permutation l' l ->
  (forall v, with_score v l' = with_score v l) ->
  l' = sort_desc l.
Proof.
  intros Hs Hp Hst. apply stable_sorted_unique.
  - exact Hs.
  - apply sort_desc_sorted.
  - rewrite Hp. symmetry. apply sort_desc_perm.
  - intro v. rewrite Hst. symmetry. apply sort_desc_stable.
Qed.

(** * Further properties of the scoring engine *)

(** ** The probe queries *)

Lemma contains_self (needle : pystr) : contains needle needle = true.
Proof. apply contains_iff. exists [], []. rewrite app_nil_r. reflexivity. Qed.

Lemma contains_prefix (needle post : pystr) :
  contains needle (needle ++ post) = true.
Proof. apply contains_iff. exists [], post. reflexivity. Qed.

Lemma contains_app_r (needle pre hay : pystr) :
  contains needle hay = true -> contains needle (pre ++ hay) = true.
Proof.
  intro H. rewrite <- (app_nil_r hay). apply contains_surround, H.
Qed.

Lemma contains_app_l (needle hay post : pystr) :
  contains needle hay = true -> contains needle (hay ++ post) = true.
Proof. intro H. apply (contains_surround needle [] hay post), H. Qed.

Ltac solve_contains :=
  repeat first [ apply contains_self | apply contains_prefix
               | apply contains_app_r ].

(** X1. [generate_ai_queries] never raises: every slot of every template
    is resolved.  It returns eleven queries, each of which holds the
    category as given, and the queries depend on the category and the
    brand only. *)
Theorem generate_ai_queries_spec (p : ProductInput) :
  exists queries,
    generate_ai_queries p = Ok queries /\
    length queries = 11%nat /\
    Forall (fun q => contains (category p) q = true) queries /\
    (forall p',
       category p' = category p -> brand p' = brand p ->
       generate_ai_queries p' = Ok queries).
Proof.
  eexists. split; [apply generate_ai_queries_eq|].
  split; [reflexivity|]. split.
  - repeat (apply Forall_cons; [solve [solve_contains]|]). apply Forall_nil.
  - intros p' Hc Hb. rewrite generate_ai_queries_eq, Hc, Hb. reflexivity.
Qed.

(** ** Semantic relevance between the extreme similarities *)

Lemma len_pos {A} (x : A) (l : list A) : 0 < len (x :: l).
Proof.
  pose proof (len_cons x l) as H. pose proof (len_nonneg l) as H0. lra.
Qed.

Lemma fold_left_Qplus_bounds (lo hi : Q) (l : list Q) (acc : Q) :
  Forall (fun x => lo <= x /\ x <= hi) l ->
  acc + lo * len l <= fold_left Qplus l acc /\
  fold_left Qplus l acc <= acc + hi * len l.
Proof.
  intro H. revert acc. induction H as [|x l [Hx1 Hx2] _ IH]; intro acc.
  - cbn [fold_left]. change (len (@nil Q)) with 0. split; lra.
  - cbn [fold_left]. destruct (IH (acc + x)) as [H1 H2].
    pose proof (len_cons x l) as Hl. pose proof (len_nonneg l) as Hn.
    split.
    + eapply Qle_trans; [|exact H1]. rewrite Hl. lra.
    + eapply Qle_trans; [exact H2|]. rewrite Hl. lra.
Qed.

Lemma mean_bounds (lo hi : Q) (x : Q) (l : list Q) :
  Forall (fun y => lo <= y /\ y <= hi) (x :: l) ->
  lo <= py_sum (x :: l) / len (x :: l) /\
  py_sum (x :: l) / len (x :: l) <= hi.
Proof.
  intro H. destruct (fold_left_Qplus_bounds lo hi (x :: l) 0 H) as [H1 H2].
  fold (py_sum (x :: l)) in H1, H2.
  pose proof (len_pos x l) as Hp.
  split.
  - apply Qle_shift_div_l; [exact Hp | lra].
  - apply Qle_shift_div_r; [exact Hp | lra].
Qed.

Lemma fold_left_py_max_bounds (lo hi : Q) (l : list Q) (x : Q) :
  lo <= x /\ x <= hi ->
  Forall (fun y => lo <= y /\ y <= hi) l ->
  lo <= fold_left py_max l x /\ fold_left py_max l x <= hi.
Proof.
  intros Hx H. revert x Hx. induction H as [|y l Hy _ IH]; intros x Hx.
  - exact Hx.
  - cbn [fold_left]. apply IH. unfold py_max. destruct (Qltb x y); assumption.
Qed.

Lemma mapM_Forall {A B} (f : A -> result B) (P : B -> Prop) (l : list A) :
  (forall x, In x l -> exists y, f x = Ok y /\ P y) ->
  exists ys, mapM f l = Ok ys /\ length ys = length l /\ Forall P ys.
Proof.
  induction l as [|x l IH]; intro H.
  - exists []. repeat split. constructor.
  - destruct (H x (or_introl eq_refl)) as [y [Hy Py]].
    destruct (IH (fun z Hz => H z (or_intror Hz))) as [ys [Hys [Hlen HP]]].
    exists (y :: ys). cbn [mapM]. rewrite Hy. cbn [bind]. rewrite Hys.
    cbn [bind length]. split; [reflexivity|]. split; [congruence|].
    constructor; assumption.
Qed.


(** ** Readability as a function of the reading ease *)

Lemma readability_curve_mono (f1 f2 : Q) :
  f1 <= f2 -> readability_curve f1 <= readability_curve f2.
Proof.
  intro H. unfold readability_curve, Qdiv.
  change (/ 30) with (1 # 30). change (/ 70) with (1 # 70).
  destruct (Qltb f1 0) eqn:E1; destruct (Qltb f2 0) eqn:E2;
  destruct (Qltb f1 30) eqn:E3; destruct (Qltb f2 30) eqn:E4;
    try apply Qltb_lt in E1; try apply Qltb_ge in E1;
    try apply Qltb_lt in E2; try apply Qltb_ge in E2;
    try apply Qltb_lt in E3; try apply Qltb_ge in E3;
    try apply Qltb_lt in E4; try apply Qltb_ge in E4; lra.
Qed.

Lemma calculate_readability_curve (flesch_reading_ease : pystr -> result Q)
    (p : ProductInput) (f : Q) :
  flesch_reading_ease (description p) = Ok f ->
  calculate_readability flesch_reading_ease p =
  Ok (clamp (if has_structure_marker (description p)
             then readability_curve f + 10 else readability_curve f)).
Proof.
  intro H. unfold calculate_readability, readability_curve. cbv zeta.
  rewrite H. cbn [bind try_except].
  destruct (Qltb f 0); [reflexivity|].
  destruct (Qltb f 30); reflexivity.
Qed.

(** X3. For one description, a greater Flesch reading ease never gives a
    smaller readability score; a negative reading ease gives at most 20,
    a non-negative one at least 40, and a reading ease of 100 or more
    gives 100. *)
Theorem readability_monotone (flesch1 flesch2 : pystr -> result Q)
    (p : ProductInput) (f1 f2 : Q) :
  flesch1 (description p) = Ok f1 ->
  flesch2 (description p) = Ok f2 ->
  f1 <= f2 ->
  exists r1 r2,
    calculate_readability flesch1 p = Ok r1 /\
    calculate_readability flesch2 p = Ok r2 /\
    r1 <= r2 /\
    (f1 < 0 -> r1 <= 20) /\
    (0 <= f1 -> 40 <= r1) /\
    (100 <= f2 -> r2 == 100).
Proof.
  intros H1 H2 Hle.
  rewrite (calculate_readability_curve flesch1 p f1 H1).
  rewrite (calculate_readability_curve flesch2 p f2 H2).
  eexists. eexists. split; [reflexivity|]. split; [reflexivity|].
  pose proof (readability_curve_mono f1 f2 Hle) as Hm.
  split; [|split; [|split]].
  - apply clamp_mono. destruct (has_structure_marker (description p)); lra.
  - intro Hneg. unfold readability_curve.
    replace (Qltb f1 0) with true by (symmetry; apply Qltb_lt; exact Hneg).
    destruct (has_structure_marker (description p)); vm_compute; discriminate.
  - intro Hpos.
    assert (H40 : 40 <= readability_curve f1).
    { pose proof (readability_curve_mono 0 f1 Hpos) as H0.
      change (readability_curve 0) with (40 + 0 / 30 * 10) in H0.
      assert (E : 40 + 0 / 30 * 10 == 40) by reflexivity. lra. }
    eapply Qle_trans; [|apply clamp_mono with (x := 40);
      destruct (has_structure_marker (description p)); lra].
    vm_compute. discriminate.
  - intro H100.
    assert (Hc : 100 <= readability_curve f2).
    { pose proof (readability_curve_mono 100 f2 H100) as H0.
      assert (E : readability_curve 100 == 100) by reflexivity. lra. }
    apply Qle_antisym; [apply clamp_range|].
    eapply Qle_trans; [|apply clamp_mono with (x := 100);
      destruct (has_structure_marker (description p)); lra].
    vm_compute. discriminate.
Qed.

(** ** The weakness report in general *)

Lemma missing_specs_filter (p : ProductInput) (b : ScoreBreakdown) :
  missing_specs (analyze_weaknesses p b) =
  map (fun ct : pystr * list pystr => hd [] (split_on 47 (fst ct)))
      (filter (fun ct : pystr * list pystr =>
                 negb (any_in (snd ct) (lower (description p))))
              concepts_to_check).
Proof.
  unfold analyze_weaknesses. cbv zeta.
  destruct (Qltb (len (description p)) settings.MIN_DESCRIPTION_LENGTH);
    cbn [missing_specs];
    exact (fold_left_collect
             (fun ct : pystr * list pystr =>
                negb (any_in (snd ct) (lower (description p))))
             (fun ct : pystr * list pystr => hd [] (split_on 47 (fst ct)))
             concepts_to_check []).
Qed.

Lemma missing_keywords_filter (p : ProductInput) (b : ScoreBreakdown) :
  missing_keywords (analyze_weaknesses p b) =
  filter (fun kw => negb (contains kw (lower (description p)))) important_kw.
Proof.
  unfold analyze_weaknesses. cbv zeta.
  destruct (Qltb (len (description p)) settings.MIN_DESCRIPTION_LENGTH);
    cbn [missing_keywords];
    rewrite (fold_left_collect
               (fun kw => negb (contains kw (lower (description p))))
               (fun kw => kw) important_kw []);
    rewrite map_id; reflexivity.
Qed.


(** ** Suggestions *)

(** X5. The clarity issue "Description too short" is reported exactly
    when the description has fewer than MIN_DESCRIPTION_LENGTH = 50
    characters; there are at most five suggestions; there is none exactly
    when the description has at least 50 characters and each of the four
    sub-scores is at least 50; and the suggestion that names the category
    is made exactly when the keyword coverage is below 50. *)
Theorem suggestions_spec (p : ProductInput) (b : ScoreBreakdown) :
  (clarity_issues (analyze_weaknesses p b) =
     if Qltb (len (description p)) settings.MIN_DESCRIPTION_LENGTH
     then [lit "Description too short"] else []) /\
  (length (suggestions (analyze_weaknesses p b)) <= 5)%nat /\
  (suggestions (analyze_weaknesses p b) = [] <->
     settings.MIN_DESCRIPTION_LENGTH <= len (description p) /\
     50 <= semantic_relevance b /\ 50 <= keyword_coverage b /\
     50 <= completeness b /\ 50 <= readability b) /\
  (In (lit "Include more keywords related to " ++ category p)
      (suggestions (analyze_weaknesses p b)) <->
   keyword_coverage b < 50).
Proof.
  unfold analyze_weaknesses. cbv zeta.
  rewrite <- !Qltb_ge, <- Qltb_lt.
  destruct (Qltb (len (description p)) settings.MIN_DESCRIPTION_LENGTH);
  destruct (Qltb (semantic_relevance b) 50);
  destruct (Qltb (keyword_coverage b) 50);
  destruct (Qltb (completeness b) 50);
  destruct (Qltb (readability b) 50);
  cbn [clarity_issues suggestions app length];
  (split; [reflexivity|]); (split; [lia|]);
  (split; [split; [try discriminate; tauto | intuition discriminate]|]);
  (split; [intro H; cbn [In] in H | intro H; try discriminate H; cbn [In]; tauto]).
  all: try reflexivity.
  all: exfalso; repeat (destruct H as [H | H]; [vm_compute in H; discriminate H|]); try destruct H.
Qed.

(** ** What the score does not depend on *)

Lemma score_product_same_text (embed : pystr -> list Q)
    (cosine : list Q -> list Q -> Q)
    (flesch_reading_ease : pystr -> result Q) (p p' : ProductInput) :
  title p' = title p -> description p' = description p ->
  category p' = category p -> brand p' = brand p ->
  score_product embed cosine flesch_reading_ease p' =
  score_product embed cosine flesch_reading_ease p.
Proof.
  destruct p as [t d c b pl u mr im pr].
  destruct p' as [t' d' c' b' pl' u' mr' im' pr'].
  cbn [title description category brand].
  intros -> -> -> ->. reflexivity.
Qed.

(** X6. The composite score, the breakdown and the queries of a product
    depend on its title, description, category and brand only: price,
    platform, URL, image and market rank never enter the score. *)
Theorem score_product_text_only (embed : pystr -> list Q)
    (cosine : list Q -> list Q -> Q)
    (flesch_reading_ease : pystr -> result Q) (p p' : ProductInput) :
  title p' = title p -> description p' = description p ->
  category p' = category p -> brand p' = brand p ->
  score_product embed cosine flesch_reading_ease p' =
  score_product embed cosine flesch_reading_ease p.
Proof. apply score_product_same_text. Qed.

(** ** The rank of the subject *)

Lemma filter_length_perm {A} (f : A -> bool) (l l' : list A) :
  Permutation l l' -> length (filter f l) = length (filter f l').
Proof.
  induction 1 as [|x l l' _ IH|x y l|l l' l'' _ IH1 _ IH2]; cbn [filter].
  - reflexivity.
  - destruct (f x); cbn [length]; congruence.
  - destruct (f x), (f y); reflexivity.
  - congruence.
Qed.

Lemma insert_desc_sorted_split {A} (x : A * Q) (l : list (A * Q)) :
  StronglySorted desc l ->
  insert_desc x l =
  filter (fun y => Qltb (snd x) (snd y)) l ++
  x :: filter (fun y => negb (Qltb (snd x) (snd y))) l.
Proof.
  induction 1 as [|y l Hs IH Hy]; [reflexivity|].
  cbn [insert_desc filter].
  destruct (Qltb (snd x) (snd y)) eqn:E; cbn [negb].
  - rewrite IH. reflexivity.
  - apply Qltb_ge in E.
    assert (Hall : forall z, In z l -> Qltb (snd x) (snd z) = false).
    { intros z Hz. apply Qltb_ge. rewrite Forall_forall in Hy.
      specialize (Hy z Hz). unfold desc in Hy. lra. }
    assert (H1 : filter (fun z => Qltb (snd x) (snd z)) l = []).
    { clear -Hall. induction l as [|z l IHl]; [reflexivity|]. cbn [filter].
      rewrite (Hall z (or_introl eq_refl)).
      apply IHl. intros w Hw. apply Hall. right. exact Hw. }
    assert (H2 : filter (fun z => negb (Qltb (snd x) (snd z))) l = l).
    { clear -Hall. induction l as [|z l IHl]; [reflexivity|]. cbn [filter].
      rewrite (Hall z (or_introl eq_refl)). cbn [negb]. f_equal.
      apply IHl. intros w Hw. apply Hall. right. exact Hw. }
    rewrite H1, H2. reflexivity.
Qed.

Section SubjectRank.

Variable embed : pystr -> list Q.
Variable cosine : list Q -> list Q -> Q.
Variable flesch_reading_ease : pystr -> result Q.
Variable analyze_product_sentiment : ProductInput -> SentimentResult.

Lemma next_where_enumerate (f : RankedProduct -> bool) (start : Z)
    (hi lo : list (ProductInput * Q)) (x : ProductInput * Q) :
  (forall k e, In e hi ->
     f (make_ranked analyze_product_sentiment (k, e)) = false) ->
  (forall k, f (make_ranked analyze_product_sentiment (k, x)) = true) ->
  next_where f
    (map (make_ranked analyze_product_sentiment)
         (enumerate start (hi ++ x :: lo))) =
  Ok (make_ranked analyze_product_sentiment
        ((start + Z.of_nat (length hi))%Z, x)).
Proof.
  intros Hhi Hx. revert start.
  induction hi as [|e hi IH]; intro start.
  - cbn [app enumerate map next_where length]. rewrite Hx.
    rewrite Z.add_0_r. reflexivity.
  - cbn [app enumerate map next_where].
    rewrite (Hhi start e (or_introl eq_refl)).
    rewrite IH by (intros k e' He'; apply Hhi; right; exact He').
    cbn [length]. rewrite Nat2Z.inj_succ.
    replace (start + 1 + Z.of_nat (length hi))%Z
      with (start + Z.succ (Z.of_nat (length hi)))%Z by lia.
    reflexivity.
Qed.


End SubjectRank.



Lemma readability_monotone_witness :
  flesch0 (description acme_x1) = Ok 60 /\
  exists r1 r2,
    calculate_readability (fun _ => Ok 20) acme_x1 = Ok r1 /\
    calculate_readability flesch0 acme_x1 = Ok r2 /\
    r1 <= r2 /\
    (20 < 0 -> r1 <= 20) /\ (0 <= 20 -> 40 <= r1) /\ (100 <= 60 -> r2 == 100).
Proof.
  split; [reflexivity|].
  apply (readability_monotone (fun _ => Ok 20) flesch0 acme_x1 20 60).
  - reflexivity.
  - reflexivity.
  - vm_compute. discriminate.
Defined.

Lemma score_product_text_only_witness :
  score_product embed0 cosine0 flesch0 acme_x1_listed =
  score_product embed0 cosine0 flesch0 acme_x1.
Proof.
  apply (score_product_text_only embed0 cosine0 flesch0 acme_x1
           acme_x1_listed); reflexivity.
Defined.

(** The cohort of the duplicate example: one competitor scores higher,
    the other ties, and the subject takes rank 2. *)
Example subject_rank_duplicate :
  exists user_ranked ranked,
    rank_against_competitors embed0 cosine0 flesch0 sentiment0 acme_x1
      [hyphenated; acme_x1_listed] = Ok (user_ranked, ranked) /\
    product user_ranked = acme_x1 /\ rank user_ranked = 2%Z.
Proof.
  eexists. eexists. split; [vm_compute; reflexivity|].
  split; vm_compute; reflexivity.
Qed.

(** ** Pairwise similarity and the best match *)

Lemma compute_similarity_eq (embed : pystr -> list Q)
    (cosine : list Q -> list Q -> Q) (text1 text2 : pystr) :
  compute_similarity embed cosine text1 text2 =
  Ok (cosine (embed text1) (embed text2)).
Proof. reflexivity. Qed.

(** X8. For a non-empty list of documents, the batch similarity is the list
    of the pairwise similarities: [compute_similarity_batch] returns, in
    order, what [compute_similarity] returns for the query and each
    document. *)
Theorem compute_similarity_batch_pairwise (embed : pystr -> list Q)
    (cosine : list Q -> list Q -> Q) (query : pystr)
    (documents : list pystr) :
  documents <> [] ->
  exists scores,
    compute_similarity_batch embed cosine query documents = Ok scores /\
    mapM (compute_similarity embed cosine query) documents = Ok scores.
Proof.
  intro Hne. destruct documents as [|doc docs]; [contradiction|].
  rewrite compute_similarity_batch_nonempty.
  eexists. split; [reflexivity|].
  rewrite map_map. clear Hne.
  generalize (doc :: docs) as l. intro l.
  induction l as [|d l IH]; [reflexivity|].
  cbn [mapM map]. rewrite compute_similarity_eq. cbn [bind].
  rewrite IH. reflexivity.
Qed.

Lemma argmax_from_spec (l pre : list Q) (best : Q) (best_idx : nat) :
  nth_error pre best_idx = Some best ->
  Forall (fun x => x <= best) pre ->
  (forall j x, (j < best_idx)%nat -> nth_error pre j = Some x -> x < best) ->
  exists m,
    nth_error (pre ++ l) (argmax_from best_idx best (length pre) l) = Some m /\
    Forall (fun x => x <= m) (pre ++ l) /\
    (forall j x,
       (j < argmax_from best_idx best (length pre) l)%nat ->
       nth_error (pre ++ l) j = Some x -> x < m).
Proof.
  revert pre best best_idx.
  induction l as [|y l IH]; intros pre best best_idx Hb Hall Hstrict.
  - cbn [argmax_from]. rewrite app_nil_r. exists best. tauto.
  - cbn [argmax_from].
    assert (Hlt : (best_idx < length pre)%nat)
      by (apply nth_error_Some; congruence).
    replace (pre ++ y :: l) with ((pre ++ [y]) ++ l)
      by (rewrite <- app_assoc; reflexivity).
    replace (S (length pre)) with (length (pre ++ [y]))
      by (rewrite length_app; cbn [length]; lia).
    destruct (Qltb best y) eqn:E.
    + apply Qltb_lt in E. apply IH.
      * rewrite nth_error_app2 by lia. rewrite Nat.sub_diag. reflexivity.
      * apply Forall_app. split.
        -- apply (Forall_impl _ (P := fun x => x <= best)); [|exact Hall].
           intros x Hx. lra.
        -- constructor; [lra | constructor].
      * intros j x Hj Hx. rewrite nth_error_app1 in Hx by exact Hj.
        apply nth_error_In in Hx. rewrite Forall_forall in Hall.
        specialize (Hall x Hx). lra.
    + apply Qltb_ge in E. apply IH.
      * rewrite nth_error_app1 by exact Hlt. exact Hb.
      * apply Forall_app. split; [exact Hall|].
        constructor; [exact E | constructor].
      * intros j x Hj Hx. rewrite nth_error_app1 in Hx by lia.
        apply (Hstrict j x Hj Hx).
Qed.

Lemma argmax_spec (x : Q) (l : list Q) :
  exists i m,
    argmax (x :: l) = Ok i /\ nth_error (x :: l) i = Some m /\
    Forall (fun y => y <= m) (x :: l) /\
    (forall j y, (j < i)%nat -> nth_error (x :: l) j = Some y -> y < m).
Proof.
  destruct (argmax_from_spec l [x] x 0) as [m [H1 [H2 H3]]].
  - reflexivity.
  - constructor; [lra | constructor].
  - intros j y Hj. lia.
  - exists (argmax_from 0 x 1 l), m. split; [reflexivity|].
    split; [exact H1|]. split; [exact H2 | exact H3].
Qed.

(** X9. For a non-empty list of documents, [find_most_similar] returns the
    index and the similarity of a document that no document exceeds, and
    among equally similar documents the first one: every document before
    it is strictly less similar.  For the empty list it raises. *)
Theorem find_most_similar_spec (embed : pystr -> list Q)
    (cosine : list Q -> list Q -> Q) (query : pystr)
    (documents : list pystr) :
  documents <> [] ->
  (exists i doc,
     find_most_similar embed cosine query documents =
       Ok (Z.of_nat i, cosine (embed query) (embed doc)) /\
     nth_error documents i = Some doc /\
     (forall d, In d documents ->
        cosine (embed query) (embed d) <= cosine (embed query) (embed doc)) /\
     (forall j d, (j < i)%nat -> nth_error documents j = Some d ->
        cosine (embed query) (embed d) < cosine (embed query) (embed doc))) /\
  find_most_similar embed cosine query [] = Raise ValueError.
Proof.
  intro Hne. split; [|reflexivity].
  destruct documents as [|doc0 docs]; [contradiction|].
  unfold find_most_similar.
  rewrite compute_similarity_batch_nonempty. cbn [bind].
  rewrite map_map.
  set (sim := fun d => cosine (embed query) (embed d)).
  change (map sim (doc0 :: docs)) with (sim doc0 :: map sim docs).
  destruct (argmax_spec (sim doc0) (map sim docs)) as [i [m [Ha [Hn [Hall Hs]]]]].
  rewrite Ha. cbn [bind]. unfold item. rewrite Hn. cbn [bind].
  change (sim doc0 :: map sim docs) with (map sim (doc0 :: docs)) in *.
  rewrite nth_error_map in Hn.
  destruct (nth_error (doc0 :: docs) i) as [doc|] eqn:Hd; [|discriminate].
  cbn [option_map] in Hn. injection Hn as <-.
  exists i, doc. split; [reflexivity|]. split; [exact Hd|]. split.
  - intros d Hin. rewrite Forall_forall in Hall.
    apply (Hall (sim d)). apply (in_map sim). exact Hin.
  - intros j d Hj Hjd. apply (Hs j (sim d) Hj).
    rewrite nth_error_map, Hjd. reflexivity.
Qed.

Lemma compute_similarity_batch_pairwise_witness :
  exists scores,
    compute_similarity_batch embed_len cosine_hd (lit "query")
      [lit "aa"; lit "bbbb"] = Ok scores /\
    mapM (compute_similarity embed_len cosine_hd (lit "query"))
      [lit "aa"; lit "bbbb"] = Ok scores.
Proof.
  apply (compute_similarity_batch_pairwise embed_len cosine_hd (lit "query")
           [lit "aa"; lit "bbbb"]).
  discriminate.
Defined.

Lemma find_most_similar_spec_witness :
  (exists i doc,
     find_most_similar embed_len cosine_hd (lit "query")
       [lit "aa"; lit "bbbb"; lit "cccc"] =
       Ok (Z.of_nat i, cosine_hd (embed_len (lit "query")) (embed_len doc)) /\
     nth_error [lit "aa"; lit "bbbb"; lit "cccc"] i = Some doc /\
     (forall d, In d [lit "aa"; lit "bbbb"; lit "cccc"] ->
        cosine_hd (embed_len (lit "query")) (embed_len d) <=
        cosine_hd (embed_len (lit "query")) (embed_len doc)) /\
     (forall j d, (j < i)%nat ->
        nth_error [lit "aa"; lit "bbbb"; lit "cccc"] j = Some d ->
        cosine_hd (embed_len (lit "query")) (embed_len d) <
        cosine_hd (embed_len (lit "query")) (embed_len doc))) /\
  find_most_similar embed_len cosine_hd (lit "query") [] = Raise ValueError.
Proof.
  apply (find_most_similar_spec embed_len cosine_hd (lit "query")
           [lit "aa"; lit "bbbb"; lit "cccc"]).
  discriminate.
Defined.

(** Two documents share the greatest similarity: the first of them is
    returned. *)
Example find_most_similar_tie :
  exists s,
    find_most_similar embed_len cosine_hd (lit "query")
      [lit "aa"; lit "bbbb"; lit "cccc"] = Ok (1%Z, s) /\ s == 0.4.
Proof. eexists. split; vm_compute; reflexivity. Qed.

(** ** The rule-based optimization *)

Ltac find_contains :=
  first [ assumption
        | apply contains_self
        | apply contains_prefix
        | reflexivity
        | apply contains_app_l; solve [find_contains]
        | apply contains_app_r; solve [find_contains] ].

(** What the fallback keeps and what it adds. *)
Lemma rule_based_structure (p : ProductInput) (suggestions : list pystr) :
  let optimized := fst (_rule_based_optimization p suggestions) in
  contains (description p) optimized = true /\
  contains (lower (category p)) (lower optimized) = true /\
  contains (lower (brand p)) (lower optimized) = true /\
  (existsb (fun s => contains (lit "keyword") (lower s)) suggestions = true ->
   contains (lit "top") (lower optimized) = true /\
   contains (lit "premium") (lower optimized) = true /\
   contains (lit "features") (lower optimized) = true).
Proof.
  unfold _rule_based_optimization. cbv zeta.
  destruct (contains (lower (category p)) (lower (description p))) eqn:E1;
    cbn [negb];
  [ destruct (contains (lower (brand p)) (lower (description p))) eqn:E2
  | destruct (contains (lower (brand p))
                (lower (category p ++ lit ": " ++ description p))) eqn:E2 ];
    cbn [negb];
  destruct (existsb (fun s => contains (lit "specification") (lower s))
              suggestions);
  destruct (existsb (fun s => contains (lit "use case") (lower s))
              suggestions);
  destruct (existsb (fun s => contains (lit "keyword") (lower s))
              suggestions);
  cbn [fst app join];
  rewrite ?lower_app, ?lower_idem in *;
  (split; [solve [find_contains]|]);
  (split; [solve [find_contains]|]);
  (split; [solve [find_contains]|]);
  intro H; try discriminate H;
  (split; [solve [find_contains]|]);
  (split; solve [find_contains]).
Qed.


Lemma filter_length_subsequence {A} (f : A -> bool) (s l : list A) :
  subsequence s l -> Forall (fun x => f x = true) s ->
  (length s <= length (filter f l))%nat.
Proof.
  induction 1 as [|x s l _ IH|x s l _ IH]; intro H; cbn [filter length].
  - lia.
  - specialize (IH H). destruct (f x); cbn [length]; lia.
  - inversion H as [|? ? Hx Hs]; subst. rewrite Hx. cbn [length].
    specialize (IH Hs). lia.
Qed.

Lemma keyword_coverage_at_least (p : ProductInput) (found : list pystr) :
  subsequence found (important_keywords p) ->
  Forall (fun kw => contains kw (lower (description p)) = true) found ->
  exists c,
    calculate_keyword_coverage p = Ok c /\ len found / 13 * 100 <= c.
Proof.
  intros Hs Hf. eexists. split; [apply calculate_keyword_coverage_eq|].
  destruct (keyword_ratio_range p (lower (description p))) as [H0 H1].
  rewrite (clamp_id _ H0 H1). apply keyword_ratio_mono.
  unfold count_in. apply len_le.
  apply (filter_length_subsequence
           (fun kw => contains kw (lower (description p)))), Hf.
  exact Hs.
Qed.

Ltac solve_subsequence :=
  repeat first [ apply subseq_nil | apply subseq_keep | apply subseq_skip ].

Lemma rule_based_coverage (p : ProductInput)
    (suggestions : list pystr) :
  exists c c',
    calculate_keyword_coverage p = Ok c /\
    calculate_keyword_coverage
      (with_description p (fst (_rule_based_optimization p suggestions)))
      = Ok c' /\
    c <= c' /\ (2 # 13) * 100 <= c' /\
    (existsb (fun s => contains (lit "keyword") (lower s)) suggestions = true ->
     (5 # 13) * 100 <= c').
Proof.
  destruct (rule_based_structure p suggestions) as [Hd [Hc [Hb Hk]]].
  apply contains_iff in Hd. destruct Hd as [pre [post Hd]].
  destruct (keyword_coverage_surround p pre post) as [c [c' [Hcov [Hcov' Hle]]]].
  rewrite <- Hd in Hcov'.
  set (q := with_description p (fst (_rule_based_optimization p suggestions)))
    in *.
  exists c, c'. split; [exact Hcov|]. split; [exact Hcov'|].
  split; [exact Hle|]. split.
  - destruct (keyword_coverage_at_least q [lower (category p); lower (brand p)])
      as [c2 [H2 Hge]].
    + unfold important_keywords. solve_subsequence.
    + repeat constructor; assumption.
    + rewrite Hcov' in H2. injection H2 as <-.
      eapply Qle_trans; [|exact Hge]. vm_compute. discriminate.
  - intro Hkw. destruct (Hk Hkw) as [Ht [Hp Hf]].
    destruct (keyword_coverage_at_least q
                [lower (category p); lower (brand p); lit "premium";
                 lit "top"; lit "features"]) as [c2 [H2 Hge]].
    + unfold important_keywords. solve_subsequence.
    + repeat constructor; assumption.
    + rewrite Hcov' in H2. injection H2 as <-.
      eapply Qle_trans; [|exact Hge]. vm_compute. discriminate.
Qed.

(** X11. The keyword coverage of the description rewritten by the
    rule-based fallback is never below that of the original and never
    below 2/13 of 100, the category and the brand being found; when one
    of the suggestions mentions keywords it is at least 5/13 of 100. *)
Theorem rule_based_optimization_coverage (p : ProductInput)
    (suggestions : list pystr) :
  exists c c',
    calculate_keyword_coverage p = Ok c /\
    calculate_keyword_coverage
      (with_description p (fst (_rule_based_optimization p suggestions)))
      = Ok c' /\
    c <= c' /\ (2 # 13) * 100 <= c' /\
    (existsb (fun s => contains (lit "keyword") (lower s)) suggestions = true ->
     (5 # 13) * 100 <= c').
Proof. apply rule_based_coverage. Qed.

Lemma rule_based_optimization_coverage_witness :
  existsb (fun s => contains (lit "keyword") (lower s))
    (suggestions (analyze_weaknesses acme_x1 breakdown0)) = true /\
  exists c c',
    calculate_keyword_coverage acme_x1 = Ok c /\
    calculate_keyword_coverage
      (with_description acme_x1
         (fst (_rule_based_optimization acme_x1
                 (suggestions (analyze_weaknesses acme_x1 breakdown0)))))
      = Ok c' /\
    c == 0 /\ c' == (6 # 13) * 100.
Proof.
  split; [vm_compute; reflexivity|].
  destruct (rule_based_optimization_coverage acme_x1
              (suggestions (analyze_weaknesses acme_x1 breakdown0)))
    as [c [c' [Hc [Hc' _]]]].
  exists c, c'. split; [exact Hc|]. split; [exact Hc'|].
  vm_compute in Hc. injection Hc as <-.
  vm_compute in Hc'. injection Hc' as <-.
  split; vm_compute; reflexivity.
Defined.

Lemma keyword_suggestion_made (p : ProductInput) (b : ScoreBreakdown) :
  keyword_coverage b < 50 ->
  In (lit "Include more keywords related to " ++ category p)
     (suggestions (analyze_weaknesses p b)).
Proof.
  intro H. apply Qltb_lt in H.
  unfold analyze_weaknesses. cbv zeta. rewrite H.
  destruct (Qltb (len (description p)) settings.MIN_DESCRIPTION_LENGTH);
  destruct (Qltb (semantic_relevance b) 50);
  destruct (Qltb (completeness b) 50);
  destruct (Qltb (readability b) 50);
  cbn [suggestions app In]; tauto.
Qed.

(** X12. When the keyword coverage of the breakdown is below 50, the
    suggestions of [analyze_weaknesses] make the rule-based fallback add
    its keyword sentence, and the rewritten description has a keyword
    coverage of at least 5/13 of 100. *)
Theorem weakness_driven_optimization (p : ProductInput) (b : ScoreBreakdown) :
  keyword_coverage b < 50 ->
  exists c',
    calculate_keyword_coverage
      (with_description p
         (fst (_rule_based_optimization p
                 (suggestions (analyze_weaknesses p b))))) = Ok c' /\
    (5 # 13) * 100 <= c'.
Proof.
  intro Hlow.
  apply (keyword_suggestion_made p) in Hlow.
  destruct (rule_based_coverage p
              (suggestions (analyze_weaknesses p b)))
    as [c [c' [_ [Hc' [_ [_ H5]]]]]].
  exists c'. split; [exact Hc'|]. apply H5.
  apply existsb_exists.
  exists (lit "Include more keywords related to " ++ category p).
  split; [exact Hlow|].
  rewrite lower_app. apply contains_app_l. reflexivity.
Qed.

(** X13. Without suggestions the rule-based fallback is idempotent:
    applied to its own result it changes nothing and reports no
    improvement. *)
Theorem rule_based_optimization_idempotent (p : ProductInput) :
  _rule_based_optimization
    (with_description p (fst (_rule_based_optimization p []))) [] =
  (fst (_rule_based_optimization p []), []).
Proof.
  destruct (rule_based_structure p []) as [_ [Hc [Hb _]]].
  revert Hc Hb.
  generalize (fst (_rule_based_optimization p [])) as o. intros o Hc Hb.
  unfold _rule_based_optimization. cbv zeta.
  cbn [with_description description category brand existsb].
  rewrite Hc. cbn [negb]. rewrite Hb. reflexivity.
Qed.


Lemma weakness_driven_optimization_witness :
  keyword_coverage breakdown0 < 50 /\
  exists c',
    calculate_keyword_coverage
      (with_description acme_x1
         (fst (_rule_based_optimization acme_x1
                 (suggestions (analyze_weaknesses acme_x1 breakdown0)))))
      = Ok c' /\
    (5 # 13) * 100 <= c'.
Proof.
  split; [reflexivity|].
  apply (weakness_driven_optimization acme_x1 breakdown0). reflexivity.
Defined.

(** The fallback on the example product: category and brand are put in
    front, and with suggestions the sentences follow. *)
Example rule_based_optimization_acme_x1 :
  _rule_based_optimization acme_x1 [] =
  (lit "Acme Gadgets: A decent gadget.",
   [lit "Added category context"; lit "Added brand name"]).
Proof. vm_compute. reflexivity. Qed.

(** ** The improvements read off a rewritten description *)

Lemma extract_improvements_eq (original optimized : pystr) :
  _extract_improvements original optimized =
  match
    (if Qltb (len original * 1.2) (len optimized)
     then [lit "Expanded description with more details"] else []) ++
    map (fun kw => lit "Added '" ++ kw ++ lit "' context")
        (filter (improvement_added original optimized) improvement_keywords)
  with
  | [] => [lit "Enhanced overall clarity and structure"]
  | x :: l => x :: l
  end.
Proof.
  unfold _extract_improvements. cbv zeta.
  rewrite (fold_left_collect (improvement_added original optimized)
             (fun kw => lit "Added '" ++ kw ++ lit "' context")).
  destruct (Qltb (len original * 1.2) (len optimized)); cbn [app];
    [reflexivity|].
  destruct (map _ _); reflexivity.
Qed.

Lemma added_label_inj (kw kw' : pystr) :
  lit "Added '" ++ kw ++ lit "' context" =
  lit "Added '" ++ kw' ++ lit "' context" -> kw = kw'.
Proof.
  intro H. apply app_inv_head in H. apply app_inv_tail in H. exact H.
Qed.

(** X14. [_extract_improvements] never returns an empty list.  It reports
    the expansion exactly when the rewritten text is more than 1.2 times
    as long as the original, reports a keyword of its list exactly when
    the rewritten text has it and the original has not (both lowercased),
    and falls back to "Enhanced overall clarity and structure" exactly
    when neither applies. *)
Theorem extract_improvements_spec (original optimized : pystr) :
  _extract_improvements original optimized <> [] /\
  (In (lit "Expanded description with more details")
      (_extract_improvements original optimized) <->
   len original * 1.2 < len optimized) /\
  (forall kw,
     In kw improvement_keywords ->
     (In (lit "Added '" ++ kw ++ lit "' context")
         (_extract_improvements original optimized) <->
      contains kw (lower optimized) = true /\
      contains kw (lower original) = false)) /\
  (In (lit "Enhanced overall clarity and structure")
      (_extract_improvements original optimized) <->
   ~ len original * 1.2 < len optimized /\
   forall kw, In kw improvement_keywords ->
              improvement_added original optimized kw = false).
Proof.
  rewrite extract_improvements_eq.
  rewrite <- Qltb_lt.
  set (added := filter (improvement_added original optimized)
                  improvement_keywords).
  assert (Hadded : forall kw, In kw added <->
            In kw improvement_keywords /\
            improvement_added original optimized kw = true)
    by (intro kw; apply filter_In).
  assert (Hlab : forall kw,
            In (lit "Added '" ++ kw ++ lit "' context")
               (map (fun k => lit "Added '" ++ k ++ lit "' context") added)
            <-> In kw added).
  { intro kw. rewrite in_map_iff. split.
    - intros [k [Hk Hin]]. apply added_label_inj in Hk. congruence.
    - intro Hin. exists kw. split; [reflexivity | exact Hin]. }
  assert (Hnot : forall s,
            In s (map (fun k => lit "Added '" ++ k ++ lit "' context") added) ->
            s <> lit "Expanded description with more details" /\
            s <> lit "Enhanced overall clarity and structure").
  { intros s Hs. apply in_map_iff in Hs. destruct Hs as [k [<- _]].
    split; discriminate. }
  assert (Hiff : forall kw,
            improvement_added original optimized kw = true <->
            contains kw (lower optimized) = true /\
            contains kw (lower original) = false).
  { intro kw. unfold improvement_added.
    rewrite andb_true_iff, negb_true_iff. reflexivity. }
  destruct (Qltb (len original * 1.2) (len optimized)) eqn:E; cbn [app].
  - split; [discriminate|]. split; [split; [reflexivity | left; reflexivity]|].
    split.
    + intros kw Hkw. rewrite <- Hiff. split.
      * intros [H | H]; [discriminate H|]. apply Hlab, Hadded in H. tauto.
      * intro H. right. apply Hlab, Hadded. tauto.
    + split.
      * intros [H | H]; [discriminate H|]. apply Hnot in H. tauto.
      * intros [H _]. congruence.
  - destruct added as [|k added'] eqn:Ea; cbn [map].
    + split; [discriminate|]. split.
      { split; [intros [H | []]; discriminate H | discriminate]. }
      split.
      * intros kw Hkw. rewrite <- Hiff. split.
        -- intros [H | []]. discriminate H.
        -- intro H. exfalso. apply (proj2 (Hadded kw)). tauto.
      * split; [|intros _; left; reflexivity].
        intros _. split; [discriminate|].
        intros kw Hkw.
        destruct (improvement_added original optimized kw) eqn:Ek;
          [|reflexivity].
        exfalso. apply (proj2 (Hadded kw)). tauto.
    + split; [discriminate|].
      change ((lit "Added '" ++ k ++ lit "' context")
              :: map (fun k0 => lit "Added '" ++ k0 ++ lit "' context") added')
        with (map (fun k0 => lit "Added '" ++ k0 ++ lit "' context")
                  (k :: added')).
      split.
      { split; [|discriminate]. intro H. apply Hnot in H. tauto. }
      split.
      * intros kw Hkw. rewrite <- Hiff, Hlab, Hadded. tauto.
      * split.
        -- intro H. apply Hnot in H. tauto.
        -- intros [_ H]. exfalso.
           assert (Hk : In k (k :: added')) by (left; reflexivity).
           apply Hadded in Hk. destruct Hk as [Hk1 Hk2].
           rewrite (H k Hk1) in Hk2. discriminate.
Qed.

(** * Properties of the competitor search and of the endpoints *)

(** ** Stripping and splitting *)

Lemma hd_split_on_no_sep (sep : N) (s : pystr) :
  ~ In sep (hd [] (split_on sep s)).
Proof.
  induction s as [|c s IH]; cbn [split_on hd]; [intros []|].
  destruct (c =? sep)%N eqn:E; cbn [hd]; [intros []|].
  apply N.eqb_neq in E.
  destruct (split_on sep s) as [|w ws]; cbn [hd] in *.
  - intros [H | []]. congruence.
  - intros [H | H]; [congruence | exact (IH H)].
Qed.

Lemma hd_split_on_In (sep : N) (s : pystr) (c : N) :
  In c (hd [] (split_on sep s)) -> In c s.
Proof.
  induction s as [|a s IH]; cbn [split_on hd]; [intros []|].
  destruct (a =? sep)%N; cbn [hd]; [intros []|].
  destruct (split_on sep s) as [|w ws]; cbn [hd] in *.
  - intros [-> | []]. left. reflexivity.
  - intros [-> | Hin]; [left; reflexivity | right; apply IH, Hin].
Qed.

(** The first piece is what stands in front of the first separator. *)
Lemma hd_split_on_prefix (sep : N) (s : pystr) :
  s = hd [] (split_on sep s) \/
  exists rest, s = hd [] (split_on sep s) ++ sep :: rest.
Proof.
  induction s as [|a s IH]; cbn [split_on hd]; [left; reflexivity|].
  destruct (a =? sep)%N eqn:E; cbn [hd].
  - apply N.eqb_eq in E. subst a. right. exists s. reflexivity.
  - destruct (split_on sep s) as [|w ws]; cbn [hd] in *.
    + destruct IH as [-> | [rest ->]]; [left; reflexivity|].
      right. exists rest. reflexivity.
    + destruct IH as [-> | [rest ->]]; [left; reflexivity|].
      right. exists rest. reflexivity.
Qed.

Lemma lstrip_by_suffix (f : N -> bool) (s : pystr) :
  exists pre, s = pre ++ lstrip_by f s.
Proof.
  induction s as [|c s [pre IH]]; cbn [lstrip_by]; [exists []; reflexivity|].
  destruct (f c).
  - exists (c :: pre). cbn [app]. f_equal. exact IH.
  - exists []. reflexivity.
Qed.

Lemma lstrip_by_head (f : N -> bool) (s : pystr) (c : N) :
  hd_error (lstrip_by f s) = Some c -> f c = false.
Proof.
  induction s as [|a s IH]; cbn [lstrip_by]; [discriminate|].
  destruct (f a) eqn:E; [exact IH|].
  cbn [hd_error]. intro H. injection H as <-. exact E.
Qed.

Lemma rstrip_by_prefix (f : N -> bool) (s : pystr) :
  exists post, s = rstrip_by f s ++ post.
Proof.
  unfold rstrip_by. destruct (lstrip_by_suffix f (rev s)) as [pre H].
  exists (rev pre). rewrite <- rev_app_distr, <- H, rev_involutive.
  reflexivity.
Qed.

Lemma rstrip_by_last (f : N -> bool) (s : pystr) (c : N) :
  hd_error (rev (rstrip_by f s)) = Some c -> f c = false.
Proof.
  unfold rstrip_by. rewrite rev_involutive. apply lstrip_by_head.
Qed.

Lemma strip_by_In (f : N -> bool) (s : pystr) (c : N) :
  In c (strip_by f s) -> In c s.
Proof.
  unfold strip_by. intro H.
  destruct (rstrip_by_prefix f (lstrip_by f s)) as [post Hp].
  destruct (lstrip_by_suffix f s) as [pre Hs].
  rewrite Hs, Hp. apply in_or_app. right. apply in_or_app. left. exact H.
Qed.

Lemma strip_by_ends (f : N -> bool) (s : pystr) (c : N) :
  (hd_error (strip_by f s) = Some c -> f c = false) /\
  (hd_error (rev (strip_by f s)) = Some c -> f c = false).
Proof.
  unfold strip_by. split; [|apply rstrip_by_last].
  destruct (rstrip_by_prefix f (lstrip_by f s)) as [post Hp].
  intro H. apply (lstrip_by_head f s). rewrite Hp.
  destruct (rstrip_by f (lstrip_by f s)); [discriminate | exact H].
Qed.

Lemma clean_title_clean (title : pystr) : title_is_clean (clean_title title).
Proof.
  unfold title_is_clean, clean_title. cbv zeta.
  set (t1 := strip (replace _ _ _)).
  set (t2 := hd [] (split_on 58 (hd [] (split_on 124 t1)))).
  assert (H58 : ~ In 58%N t2) by apply hd_split_on_no_sep.
  assert (H124 : ~ In 124%N t2).
  { intro H. apply (hd_split_on_no_sep 124 t1).
    apply (hd_split_on_In 58%N), H. }
  unfold strip_chars, strip.
  split; [intro H; apply H124; apply strip_by_In in H; apply strip_by_In in H;
          exact H|].
  split; [intro H; apply H58; apply strip_by_In in H; apply strip_by_In in H;
          exact H|].
  split; intro c; apply strip_by_ends.
Qed.

(** ** The competitor search *)

Lemma scan_results_spec (platform : Platform) (exclude_brand : option pystr)
    (search_results : list RawResult) (platform_count : nat) :
  (length (scan_results platform exclude_brand platform_count search_results)
   <= 5 - platform_count)%nat /\
  Forall (from_platform platform)
    (scan_results platform exclude_brand platform_count search_results).
Proof.
  revert platform_count.
  induction search_results as [|res rest IH]; intro n; cbn [scan_results].
  - split; [cbn [length]; lia | constructor].
  - destruct (5 <=? n)%nat eqn:E5; [split; [cbn [length]; lia | constructor]|].
    apply Nat.leb_gt in E5.
    destruct (existsb _ (url_patterns platform)) eqn:Ep; cbn [negb];
      [|apply IH].
    destruct (brand_excluded exclude_brand _); [apply IH|].
    destruct (IH (S n)) as [Hl Hf]. split; [cbn [length]; lia|].
    constructor; [|exact Hf].
    unfold from_platform, url_matches. cbn [sr_platform sr_url sr_title].
    split; [reflexivity|]. split; [exact Ep|]. eexists. reflexivity.
Qed.

(** No entry kept names the excluded brand in its raw title. *)
Lemma scan_results_brand (platform : Platform) (b : pystr)
    (search_results : list RawResult) (platform_count : nat) :
  Forall (fun r => exists title,
            sr_title r = clean_title title /\
            brand_excluded (Some b) title = false)
    (scan_results platform (Some b) platform_count search_results).
Proof.
  revert platform_count.
  induction search_results as [|res rest IH]; intro n; cbn [scan_results];
    [constructor|].
  destruct (5 <=? n)%nat; [constructor|].
  destruct (existsb _ (url_patterns platform)); cbn [negb]; [|apply IH].
  destruct (brand_excluded (Some b) _) eqn:Eb; [apply IH|].
  constructor; [|apply IH].
  cbn [sr_title]. eexists. split; [reflexivity | exact Eb].
Qed.

Lemma from_platform_clean (platform : Platform) (l : list SearchResult) :
  Forall (from_platform platform) l ->
  Forall (fun r => title_is_clean (sr_title r)) l.
Proof.
  apply Forall_impl. intros r [_ [_ [t ->]]]. apply clean_title_clean.
Qed.

(** The results are those of Amazon followed by those of Flipkart. *)
Lemma search_competitors_split (ddgs_text : pystr -> result (list RawResult))
    (product_name category : pystr) (exclude_brand : option pystr)
    (price : option Q) :
  exists from_amazon from_flipkart,
    search_competitors ddgs_text product_name category exclude_brand price =
      from_amazon ++ from_flipkart /\
    (length from_amazon <= 5)%nat /\ (length from_flipkart <= 5)%nat /\
    Forall (from_platform amazon) from_amazon /\
    Forall (from_platform flipkart) from_flipkart /\
    (forall e, ddgs_text (platform_query category price amazon) = Raise e ->
               from_amazon = []) /\
    (forall e, ddgs_text (platform_query category price flipkart) = Raise e ->
               from_flipkart = []).
Proof.
  unfold search_competitors. change platforms with [amazon; flipkart].
  cbn [map concat]. rewrite app_nil_r.
  eexists. eexists. split; [reflexivity|].
  assert (Hsc : forall pf,
            (length match ddgs_text (platform_query category price pf) with
                    | Ok rs => scan_results pf exclude_brand 0 rs
                    | Raise _ => []
                    end <= 5)%nat /\
            Forall (from_platform pf)
              match ddgs_text (platform_query category price pf) with
              | Ok rs => scan_results pf exclude_brand 0 rs
              | Raise _ => []
              end).
  { intro pf. destruct (ddgs_text (platform_query category price pf)) as [rs|e].
    - destruct (scan_results_spec pf exclude_brand rs 0) as [Hl Hf].
      split; [lia | exact Hf].
    - split; [cbn [length]; lia | constructor]. }
  destruct (Hsc amazon) as [Ha1 Ha2]. destruct (Hsc flipkart) as [Hf1 Hf2].
  split; [exact Ha1|]. split; [exact Hf1|]. split; [exact Ha2|].
  split; [exact Hf2|].
  split; intros e H; rewrite H; reflexivity.
Qed.

Lemma search_competitors_length (ddgs_text : pystr -> result (list RawResult))
    (product_name category : pystr) (exclude_brand : option pystr)
    (price : option Q) :
  (length (search_competitors ddgs_text product_name category exclude_brand
             price) <= 10)%nat.
Proof.
  destruct (search_competitors_split ddgs_text product_name category
              exclude_brand price) as [a [f [-> [Ha [Hf _]]]]].
  rewrite length_app. lia.
Qed.


(** On the example engine the category page is dropped and the product
    page is kept with its title cleaned. *)
Example search_competitors_ddgs0 :
  search_competitors ddgs0 (lit "Acme X1") (lit "Gadgets") (Some (lit "Acme"))
    None =
  [ {| sr_title := lit "Zeta Z2";
       sr_url := lit "https://www.amazon.in/Zeta-Z2/dp/B0ZETA";
       sr_snippet := lit "Wireless gadget with long battery life.";
       sr_platform := lit "Amazon" |} ].
Proof. vm_compute. reflexivity. Qed.



(** ** The price ceiling of the query *)

(** X17. For a positive price the ceiling put into the query is a whole
    number of thousands, at least 1000, not more than 500 below the price
    and not more than 1000 above it (not more than 500 above it for a
    price over 500). *)
Theorem rounded_price_spec (price : Q) :
  0 < price ->
  exists k : Z,
    rounded_price price = (1000 * k)%Z /\ (1 <= k)%Z /\
    price - 500 <= inject_Z (rounded_price price) /\
    inject_Z (rounded_price price) <= price + 1000 /\
    (500 < price -> inject_Z (rounded_price price) <= price + 500).
Proof.
  intro Hpos. unfold rounded_price. cbv zeta.
  destruct (round_half_even_near (price / 1000)) as [Hlo Hhi].
  assert (Hdiv : price / 1000 * 1000 == price) by (field).
  assert (Hq0 : 0 <= price / 1000) by (apply Qle_shift_div_l; lra).
  assert (Hk0 : (0 <= round_half_even (price / 1000))%Z).
  { apply (round_half_even_range (price / 1000) 0 (Qceiling (price / 1000))).
    - change (inject_Z 0) with 0. lra.
    - apply Qle_ceiling. }
  set (k := round_half_even (price / 1000)) in *.
  set (q := price / 1000) in *.
  destruct (k * 1000 =? 0)%Z eqn:E.
  - apply Z.eqb_eq in E. assert (Hk : k = 0%Z) by lia.
    exists 1%Z. split; [reflexivity|]. split; [lia|].
    rewrite Hk in Hlo, Hhi. change (inject_Z 0) with 0 in Hlo, Hhi.
    change (inject_Z 1000) with 1000.
    assert (price <= 500) by lra.
    split; [lra|]. split; [lra|]. intro H5. lra.
  - apply Z.eqb_neq in E. exists k.
    split; [lia|]. split; [lia|].
    rewrite inject_Z_mult. change (inject_Z 1000) with 1000.
    split; [lra|]. split; lra.
Qed.

Lemma rounded_price_spec_witness :
  0 < 27611 /\
  exists k : Z,
    rounded_price 27611 = (1000 * k)%Z /\ (1 <= k)%Z /\
    27611 - 500 <= inject_Z (rounded_price 27611) /\
    inject_Z (rounded_price 27611) <= 27611 + 1000 /\
    (500 < 27611 -> inject_Z (rounded_price 27611) <= 27611 + 500).
Proof.
  split; [reflexivity|]. apply (rounded_price_spec 27611). reflexivity.
Defined.

(** The example of the source, a price rounded downwards, a half rounded
    to the even thousand in both directions, a price below 500, and the
    price 0, which is treated as no price. *)
Example price_query_part_examples :
  price_query_part (Some 27611) = lit "under 28000" /\
  price_query_part (Some 27400) = lit "under 27000" /\
  price_query_part (Some 26500) = lit "under 26000" /\
  price_query_part (Some 27500) = lit "under 28000" /\
  price_query_part (Some 300) = lit "under 1000" /\
  price_query_part (Some 0) = [] /\
  price_query_part None = [].
Proof. vm_compute. repeat split. Qed.

Example platform_query_example :
  platform_query (lit "Headphones") (Some 27611) amazon =
    lit "best Headphones under 28000 site:amazon.in" /\
  platform_query (lit "Headphones") None flipkart =
    lit "best Headphones site:flipkart.com".
Proof. vm_compute. split; reflexivity. Qed.

(** ** Competitors built from the search results *)

Lemma Qltb_len {A} (l : list A) (n : nat) :
  Qltb (len l) (inject_Z (Z.of_nat n)) = (length l <? n)%nat.
Proof.
  unfold len. destruct (length l <? n)%nat eqn:E.
  - apply Nat.ltb_lt in E. apply Qltb_lt. rewrite <- Zlt_Qlt. lia.
  - apply Nat.ltb_ge in E. apply Qltb_ge. rewrite <- Zle_Qle. lia.
Qed.

Lemma competitor_description_length (p : ProductInput) (res : SearchResult) :
  (10 <= length (competitor_description p res))%nat.
Proof.
  unfold competitor_description.
  destruct (length (sr_snippet res) <? 50)%nat eqn:E.
  - rewrite length_app. change (length (lit "Top rated ")) with 10%nat. lia.
  - apply Nat.ltb_ge in E. lia.
Qed.

Lemma mapM_ext {A B} (f g : A -> result B) (l : list A) :
  (forall x, f x = g x) -> mapM f l = mapM g l.
Proof.
  intro H. induction l as [|x l IH]; [reflexivity|].
  cbn [mapM]. rewrite H, IH. reflexivity.
Qed.

Lemma get_automated_competitors_eq
    (ddgs_text : pystr -> result (list RawResult)) (p : ProductInput) :
  get_automated_competitors ddgs_text p =
  mapM (fun e => if valid_product (competitor_of p e)
                 then Ok (competitor_of p e) else Raise ValidationError)
       (enumerate 1 (search_competitors ddgs_text (title p) (category p)
                       (Some (brand p)) (price p))).
Proof.
  unfold get_automated_competitors. cbv zeta. apply mapM_ext.
  intros [i res]. unfold new_ProductInput, competitor_of,
    competitor_description. cbv zeta. cbn [fst snd].
  change 50 with (inject_Z (Z.of_nat 50)). rewrite Qltb_len. reflexivity.
Qed.

Lemma valid_competitor (p : ProductInput) (e : Z * SearchResult) :
  category p <> [] ->
  valid_product (competitor_of p e) =
  match sr_title (snd e) with [] => false | _ :: _ => true end.
Proof.
  intro Hc. pose proof (competitor_description_length p (snd e)) as Hd.
  unfold valid_product, competitor_of.
  cbn [title description category brand].
  destruct (sr_title (snd e)) as [|c t]; [reflexivity|].
  destruct (category p); [contradiction|].
  cbn [length].
  apply Nat.leb_le in Hd. rewrite Hd. reflexivity.
Qed.

Lemma build_all_ok (p : ProductInput) (l : list (Z * SearchResult)) :
  category p <> [] ->
  Forall (fun e => sr_title (snd e) <> []) l ->
  mapM (fun e => if valid_product (competitor_of p e)
                 then Ok (competitor_of p e) else Raise ValidationError) l =
  Ok (map (competitor_of p) l).
Proof.
  intros Hc H. induction H as [|e l He _ IH]; [reflexivity|].
  cbn [mapM map]. rewrite (valid_competitor p e Hc).
  destruct (sr_title (snd e)); [contradiction|].
  cbn [bind]. rewrite IH. reflexivity.
Qed.

Lemma build_some_empty (p : ProductInput) (l : list (Z * SearchResult)) :
  category p <> [] ->
  Exists (fun e => sr_title (snd e) = []) l ->
  mapM (fun e => if valid_product (competitor_of p e)
                 then Ok (competitor_of p e) else Raise ValidationError) l =
  Raise ValidationError.
Proof.
  intros Hc H. induction H as [e l He | e l _ IH]; cbn [mapM];
    rewrite (valid_competitor p e Hc).
  - rewrite He. reflexivity.
  - destruct (sr_title (snd e)); [reflexivity|].
    cbn [bind]. rewrite IH. reflexivity.
Qed.

Lemma nth_error_enumerate {A} (l : list A) (start : Z) (i : nat) :
  nth_error (enumerate start l) i =
  option_map (fun x => ((start + Z.of_nat i)%Z, x)) (nth_error l i).
Proof.
  revert start i. induction l as [|x l IH]; intros start i.
  - destruct i; reflexivity.
  - destruct i as [|i]; cbn [enumerate nth_error option_map].
    + rewrite Z.add_0_r. reflexivity.
    + rewrite IH. destruct (nth_error l i); cbn [option_map]; [|reflexivity].
      do 2 f_equal. lia.
Qed.

Lemma map_snd_enumerate {A} (l : list A) (start : Z) :
  map snd (enumerate start l) = l.
Proof.
  revert start. induction l as [|x l IH]; intro start; [reflexivity|].
  cbn [enumerate map snd]. rewrite IH. reflexivity.
Qed.

Lemma length_enumerate {A} (l : list A) (start : Z) :
  length (enumerate start l) = length l.
Proof. rewrite <- (map_snd_enumerate l start) at 2. rewrite length_map. reflexivity. Qed.

Lemma valid_product_category (p : ProductInput) :
  valid_product p = true -> category p <> [].
Proof.
  unfold valid_product. rewrite !andb_true_iff, !Nat.leb_le.
  intros [[[_ _] Hc] _] E. rewrite E in Hc. cbn [length] in Hc. lia.
Qed.



(** The competitor built on the example engine: the snippet is short, so
    the description starts with the introducing sentence. *)
Example get_automated_competitors_ddgs0 :
  get_automated_competitors ddgs0 acme_x1 =
  Ok [ {| title := lit "Zeta Z2";
          description :=
            lit "Top rated Gadgets from Zeta Z2. Wireless gadget with long battery life.";
          category := lit "Gadgets"; brand := lit "Top Competitor";
          platform := Some (lit "Amazon");
          url := Some (lit "https://www.amazon.in/Zeta-Z2/dp/B0ZETA");
          market_rank := Some 1%Z; image_url := None; price := None |} ].
Proof. vm_compute. reflexivity. Qed.

(** A product page titled "Amazon.in" is cleaned to the empty title, and
    the endpoint answers 500. *)
Example fetch_competitors_untitled :
  search_competitors ddgs_untitled (lit "Acme X1") (lit "Gadgets")
    (Some (lit "Acme")) None =
  [ {| sr_title := []; sr_url := lit "https://www.amazon.in/dp/B0ZETA";
       sr_snippet := lit "Wireless gadget."; sr_platform := lit "Amazon" |} ] /\
  fetch_competitors ddgs_untitled acme_x1 = HTTPException 500.
Proof. vm_compute. split; reflexivity. Qed.

(** ** The endpoints *)

Lemma found_at_from_spec (b : pystr) (i : Z) (results : list SearchResult) :
  let hit r := contains b (lower (sr_title r)) ||
               contains b (lower (sr_url r)) in
  (found_at_from b i results = (-1)%Z /\
   Forall (fun r => hit r = false) results) \/
  (exists pre r post,
     results = pre ++ r :: post /\
     Forall (fun r => hit r = false) pre /\ hit r = true /\
     found_at_from b i results = (i + Z.of_nat (length pre) + 1)%Z).
Proof.
  intro hit. revert i.
  induction results as [|r rest IH]; intro i; cbn [found_at_from].
  - left. split; [reflexivity | constructor].
  - fold (hit r). destruct (hit r) eqn:E.
    + right. exists [], r, rest. split; [reflexivity|].
      split; [constructor|]. split; [exact E|]. cbn [length]. lia.
    + destruct (IH (i + 1)%Z) as [[Hf Hall] | [pre [r' [post [-> [Hp [Hr Hf]]]]]]].
      * left. split; [exact Hf|]. constructor; assumption.
      * right. exists (r :: pre), r', post. split; [reflexivity|].
        split; [constructor; assumption|]. split; [exact Hr|].
        rewrite Hf. cbn [length]. lia.
Qed.


Example check_market_visibility_ddgs0 :
  (exists v, check_market_visibility ddgs0
               (mk_product (lit "Zeta Z2") (lit "A decent gadget.")
                  (lit "Gadgets") (lit "Zeta")) = Http_ok v /\
             mv_position v = inl 1%Z) /\
  (exists v, check_market_visibility ddgs0 acme_x1 = Http_ok v /\
             mv_position v = inr (lit "Not found in top results")).
Proof. split; eexists; split; vm_compute; reflexivity. Qed.

Lemma mem_In (x : pystr) (l : list pystr) : mem x l = true <-> In x l.
Proof.
  unfold mem. rewrite existsb_exists. split.
  - intros [y [Hy E]]. apply pystr_eqb_eq in E. subst y. exact Hy.
  - intro H. exists x. split; [exact H | apply pystr_eqb_refl].
Qed.

Lemma dedup_In (x : pystr) (l : list pystr) : In x (dedup l) <-> In x l.
Proof.
  induction l as [|y l IH]; cbn [dedup]; [reflexivity|].
  cbn [In]. rewrite filter_In, IH. split.
  - intros [H | [H _]]; [left | right]; exact H.
  - intros [H | H]; [left; exact H|].
    destruct (pystr_eqb y x) eqn:E.
    + left. apply pystr_eqb_eq, E.
    + right. split; [exact H | reflexivity].
Qed.

Lemma dedup_NoDup (l : list pystr) : NoDup (dedup l).
Proof.
  induction l as [|y l IH]; cbn [dedup]; constructor.
  - rewrite filter_In. intros [_ H]. rewrite pystr_eqb_refl in H.
    discriminate H.
  - apply NoDup_filter, IH.
Qed.

Lemma set_inter_spec (a b : list pystr) (x : pystr) :
  In x (set_inter a b) <-> In x a /\ In x b.
Proof. unfold set_inter. rewrite filter_In, dedup_In, mem_In. reflexivity. Qed.

Lemma set_diff_spec (a b : list pystr) (x : pystr) :
  In x (set_diff a b) <-> In x a /\ ~ In x b.
Proof.
  unfold set_diff. rewrite filter_In, dedup_In, negb_true_iff.
  split; intros [H1 H2]; (split; [exact H1|]).
  - intro Hin. apply mem_In in Hin. congruence.
  - destruct (mem x b) eqn:E; [|reflexivity].
    apply mem_In in E. contradiction.
Qed.

(** X20. [compare_features] answers 500 exactly when the competitors
    cannot be built; otherwise it reports the features of the subject
    and one entry per competitor, in order, that names the competitor by
    its title and lists without repetition the tags that both share, the
    tags of the competitor that the subject lacks, and the tags of the
    subject that the competitor lacks. *)
Theorem compare_features_spec
    (ddgs_text : pystr -> result (list RawResult)) (p : ProductInput) :
  match get_automated_competitors ddgs_text p with
  | Ok competitors =>
      exists report,
        compare_features ddgs_text p = Http_ok report /\
        your_features report = features_of p /\
        Forall2 (compares p) competitors (comparison report)
  | Raise _ => compare_features ddgs_text p = HTTPException 500
  end.
Proof.
  unfold compare_features.
  destruct (get_automated_competitors ddgs_text p) as [competitors|e];
    [|reflexivity].
  eexists. split; [reflexivity|]. cbn [your_features comparison].
  split; [reflexivity|].
  induction competitors as [|comp competitors IH]; cbn [map]; constructor;
    [|exact IH].
  unfold compares, features_of.
  cbn [competitor common_features missing_features unique_features].
  split; [reflexivity|].
  split; [apply NoDup_filter, dedup_NoDup|].
  split; [apply NoDup_filter, dedup_NoDup|].
  split; [apply NoDup_filter, dedup_NoDup|].
  intro tag. split; [apply set_inter_spec|].
  split; apply set_diff_spec.
Qed.

Example compare_features_ddgs0 :
  compare_features ddgs0
    (mk_product (lit "Acme X1") (lit "Compact wireless gadget, Bluetooth 5.0.")
       (lit "Gadgets") (lit "Acme")) =
  Http_ok
    {| your_features := [lit "wireless"; lit "bluetooth"; lit "design"];
       comparison :=
         [ {| competitor := lit "Zeta Z2";
              common_features := [lit "wireless"];
              missing_features := [lit "battery life"];
              unique_features := [lit "bluetooth"; lit "design"] |} ] |}.
Proof. vm_compute. reflexivity. Qed.

Section EndpointProperties.

Variable embed : pystr -> list Q.
Variable cosine : list Q -> list Q -> Q.
Variable flesch_reading_ease : pystr -> result Q.
Variable analyze_product_sentiment : ProductInput -> SentimentResult.
Variable simulate_ai_recommendation :
  ProductInput -> option Q -> AiRecommendation.
Variable fetch_product_details : pystr -> ScrapedDetails.

Lemma analyze_product_total (p : ProductInput) :
  exists a f b queries,
    score_product embed cosine flesch_reading_ease p = Ok (f, b, queries) /\
    analyze_product embed cosine flesch_reading_ease
      analyze_product_sentiment simulate_ai_recommendation p = Http_ok a /\
    a = {| ar_product := p;
           ai_visibility_score :=
             if is_recommended (simulate_ai_recommendation p (price p))
             then py_min 100 (f + 10) else f;
           score_breakdown := b;
           weakness_analysis := analyze_weaknesses p b;
           generated_queries := firstn 5 queries;
           ar_sentiment := Some (analyze_product_sentiment p);
           ai_recommendation :=
             Some (simulate_ai_recommendation p (price p)) |} /\
    0 <= f <= 100 /\ (5 <= length queries)%nat.
Proof.
  destruct (score_product_total embed cosine flesch_reading_ease p)
    as [queries [s [k [c [r H]]]]].
  destruct H as [Hq [_ [_ [_ [_ [Hsr [Hkr [Hcr [Hrr Hsp]]]]]]]]].
  pose proof (calculate_final_score_range s k c r Hsr Hkr Hcr Hrr) as Hf.
  set (f := calculate_final_score _) in *.
  assert (Hin : in_0_100 (if is_recommended
                               (simulate_ai_recommendation p (price p))
                          then py_min 100 (f + 10) else f) = true).
  { apply in_0_100_iff.
    destruct (is_recommended _); [|exact Hf].
    destruct (py_min_glb 100 (f + 10)) as [H1 H2].
    split; [apply py_min_ge; lra | exact H1]. }
  eexists. exists f. eexists. exists queries.
  split; [exact Hsp|].
  split.
  { unfold analyze_product. rewrite Hsp. cbn [bind]. cbv zeta.
    unfold new_AnalysisResult. rewrite Hin. reflexivity. }
  split; [reflexivity|]. split; [exact Hf|].
  rewrite generate_ai_queries_eq in Hq. injection Hq as <-.
  cbn [length]. lia.
Qed.


End EndpointProperties.

(** ** The endpoint that analyses a scraped page *)

Lemma contains_singleton (c : N) (s : pystr) :
  contains [c] s = true <-> In c s.
Proof.
  induction s as [|a s IH]; cbn [contains startswith In].
  - split; [discriminate | intros []].
  - rewrite orb_true_iff, andb_true_r, N.eqb_eq, IH.
    split; intros [H | H]; auto.
Qed.

Lemma first_word_spec (s : pystr) :
  In 32%N s ->
  ~ In 32%N (first_word s) /\ exists rest, s = first_word s ++ 32%N :: rest.
Proof.
  intro Hin. unfold first_word. split; [apply hd_split_on_no_sep|].
  destruct (hd_split_on_prefix 32 s) as [H | H]; [|exact H].
  exfalso. apply (hd_split_on_no_sep 32 s). rewrite <- H. exact Hin.
Qed.

Lemma first_word_empty (s : pystr) :
  In 32%N s -> (first_word s = [] <-> hd_error s = Some 32%N).
Proof.
  intro Hin. destruct (first_word_spec s Hin) as [Hno [rest Hs]]. split.
  - intro E. rewrite Hs, E. reflexivity.
  - intro E. destruct (first_word s) as [|c w]; [reflexivity|].
    rewrite Hs in E. cbn [app hd_error] in E. injection E as ->.
    exfalso. apply Hno. left. reflexivity.
Qed.

Section UrlEndpoint.

Variable embed : pystr -> list Q.
Variable cosine : list Q -> list Q -> Q.
Variable flesch_reading_ease : pystr -> result Q.
Variable analyze_product_sentiment : ProductInput -> SentimentResult.
Variable simulate_ai_recommendation :
  ProductInput -> option Q -> AiRecommendation.
Variable fetch_product_details : pystr -> ScrapedDetails.


End UrlEndpoint.


(** ** The ranking endpoint *)

Section RankingEndpoint.

Variable embed : pystr -> list Q.
Variable cosine : list Q -> list Q -> Q.
Variable flesch_reading_ease : pystr -> result Q.
Variable analyze_product_sentiment : ProductInput -> SentimentResult.


End RankingEndpoint.


(** * Properties of the optimizer and of the remaining endpoints *)

Lemma contains_join (sep x : pystr) (l : list pystr) :
  In x l -> contains x (join sep l) = true.
Proof.
  induction l as [|y l IH]; [intros []|].
  intros [-> | Hin].
  - destruct l; [apply contains_self | apply contains_prefix].
  - destruct l as [|z l]; [destruct Hin|].
    change (join sep (y :: z :: l)) with (y ++ sep ++ join sep (z :: l)).
    apply contains_app_r, contains_app_r, IH, Hin.
Qed.

Lemma contains_bullet (s : pystr) (items : list pystr) :
  In s items -> contains (lit "- " ++ s) (bullet_lines items) = true.
Proof.
  intro Hin. unfold bullet_lines. apply contains_join.
  apply (in_map (fun s => lit "- " ++ s)), Hin.
Qed.

Ltac peel_contains :=
  repeat first [ apply contains_self
               | apply contains_prefix
               | apply contains_app_l;
                 solve [apply contains_bullet; assumption]
               | apply contains_app_r ].

(** The fixed sentences of a prompt play no part in the search. *)
Ltac hide_sentences :=
  repeat match goal with
         | |- context [lit (String ?a (String ?b (String ?c ?r)))] =>
             generalize (lit (String a (String b (String c r)))); intro
         end.

Ltac find_in_prompt :=
  cbv beta iota zeta; hide_sentences; rewrite <- ?app_assoc; peel_contains.

(** X24. The prompt built for the language model opens with the role
    sentence and holds the title, the category, the brand and the
    current description of the product, a line "- s" for every
    suggestion s and for every target query, and the additional
    specifications when some are given. *)
Theorem build_optimization_prompt_spec (product : ProductInput)
    (suggestions : list pystr) (target_queries : option (list pystr))
    (additional_specs : option pystr) :
  let prompt :=
    _build_optimization_prompt product suggestions target_queries
      additional_specs in
  startswith (lit "You are an expert AI Visibility Optimizer.") prompt = true /\
  contains (title product) prompt = true /\
  contains (category product) prompt = true /\
  contains (brand product) prompt = true /\
  contains (description product) prompt = true /\
  Forall (fun s => contains (lit "- " ++ s) prompt = true) suggestions /\
  Forall (fun q => contains (lit "- " ++ q) prompt = true)
    (match target_queries with Some queries => queries | None => [] end) /\
  match additional_specs with
  | Some specs => contains specs prompt = true
  | None => True
  end.
Proof.
  cbv zeta. unfold _build_optimization_prompt. cbv zeta.
  split.
  { destruct additional_specs as [[|c specs]|];
      destruct target_queries as [[|q queries]|];
      cbv beta iota zeta; rewrite <- ?app_assoc; reflexivity. }
  split.
  { destruct additional_specs as [[|c specs]|];
      destruct target_queries as [[|q queries]|]; find_in_prompt. }
  split.
  { destruct additional_specs as [[|c specs]|];
      destruct target_queries as [[|q queries]|]; find_in_prompt. }
  split.
  { destruct additional_specs as [[|c specs]|];
      destruct target_queries as [[|q queries]|]; find_in_prompt. }
  split.
  { destruct additional_specs as [[|c specs]|];
      destruct target_queries as [[|q queries]|]; find_in_prompt. }
  split.
  { apply Forall_forall. intros s Hs.
    destruct additional_specs as [[|c specs]|];
      destruct target_queries as [[|q queries]|]; find_in_prompt. }
  split.
  { apply Forall_forall. intros s Hs.
    destruct target_queries as [[|q queries]|]; [destruct Hs| |destruct Hs].
    destruct additional_specs as [[|c specs]|]; find_in_prompt. }
  destruct additional_specs as [[|c specs]|];
    [exact (contains_prefix [] _)| |exact I].
  destruct target_queries as [[|q queries]|]; find_in_prompt.
Qed.

Lemma extract_improvements_nonempty (original optimized : pystr) :
  _extract_improvements original optimized <> [].
Proof.
  rewrite extract_improvements_eq.
  destruct (_ ++ _); discriminate.
Qed.

Section OptimizerProperties.

Variable MODEL_PROVIDER : pystr.
Variable GEMINI_API_KEY : pystr.
Variable HF_API_KEY : pystr.
Variable openai_client : option (pystr -> result pystr).
Variable _call_gemini_api : pystr -> option pystr.
Variable _call_hf_api : pystr -> option pystr.

Lemma optimize_description_cases (product : ProductInput)
    (weakness_suggestions : list pystr)
    (target_queries : option (list pystr)) (additional_specs : option pystr)
    (provider : option pystr) :
  let prompt :=
    _build_optimization_prompt product weakness_suggestions target_queries
      additional_specs in
  let optimized :=
    optimize_description MODEL_PROVIDER GEMINI_API_KEY HF_API_KEY
      openai_client _call_gemini_api _call_hf_api product
      weakness_suggestions target_queries additional_specs provider in
  optimized = _rule_based_optimization product weakness_suggestions \/
  exists text,
    text <> [] /\
    optimized = (text, _extract_improvements (description product) text) /\
    ((GEMINI_API_KEY <> [] /\ _call_gemini_api prompt = Some text) \/
     (HF_API_KEY <> [] /\ _call_hf_api prompt = Some text) \/
     (exists create content,
        openai_client = Some create /\ create prompt = Ok content /\
        text = strip content)).
Proof.
  intros prompt optimized. unfold optimized, optimize_description.
  cbv zeta. fold prompt.
  destruct (pystr_eqb _ (lit "gemini") && negb (pystr_eqb GEMINI_API_KEY []))
    eqn:Eg.
  - apply andb_true_iff in Eg. destruct Eg as [_ Eg].
    apply negb_true_iff in Eg.
    assert (Hk : GEMINI_API_KEY <> [])
      by (intro H; rewrite H in Eg; discriminate Eg).
    destruct (_call_gemini_api prompt) as [[|c text]|] eqn:E;
      [left; reflexivity| |left; reflexivity].
    right. exists (c :: text). split; [discriminate|].
    split; [reflexivity|]. left. split; [exact Hk | reflexivity].
  - destruct (pystr_eqb _ (lit "huggingface") &&
              negb (pystr_eqb HF_API_KEY [])) eqn:Eh.
    + apply andb_true_iff in Eh. destruct Eh as [_ Eh].
      apply negb_true_iff in Eh.
      assert (Hk : HF_API_KEY <> [])
        by (intro H; rewrite H in Eh; discriminate Eh).
      destruct (_call_hf_api prompt) as [[|c text]|] eqn:E;
        [left; reflexivity| |left; reflexivity].
      right. exists (c :: text). split; [discriminate|].
      split; [reflexivity|]. right. left. split; [exact Hk | reflexivity].
    + destruct openai_client as [create|]; [|left; reflexivity].
      destruct (create prompt) as [content|e] eqn:E; [|left; reflexivity].
      destruct (strip content) as [|c text] eqn:Es; [left; reflexivity|].
      right. exists (c :: text). split; [discriminate|].
      split; [reflexivity|]. right. right.
      exists create, content. split; [reflexivity|].
      split; [exact E | symmetry; exact Es].
Qed.

(** X25. [optimize_description] returns either the rule-based rewriting
    or a non-empty text that one of the providers gave for the prompt
    (for OpenAI with the white space at its ends removed), together with
    the improvements read off that text, of which there is at least
    one; a provider without key is never the source of the text; and
    with no key and no OpenAI client the result is the rule-based
    rewriting, whatever provider the request names. *)
Theorem optimize_description_spec (product : ProductInput)
    (weakness_suggestions : list pystr)
    (target_queries : option (list pystr)) (additional_specs : option pystr)
    (provider : option pystr) :
  let prompt :=
    _build_optimization_prompt product weakness_suggestions target_queries
      additional_specs in
  let optimized :=
    optimize_description MODEL_PROVIDER GEMINI_API_KEY HF_API_KEY
      openai_client _call_gemini_api _call_hf_api product
      weakness_suggestions target_queries additional_specs provider in
  (optimized = _rule_based_optimization product weakness_suggestions \/
   exists text,
     text <> [] /\
     optimized = (text, _extract_improvements (description product) text) /\
     snd optimized <> [] /\
     ((GEMINI_API_KEY <> [] /\ _call_gemini_api prompt = Some text) \/
      (HF_API_KEY <> [] /\ _call_hf_api prompt = Some text) \/
      (exists create content,
         openai_client = Some create /\ create prompt = Ok content /\
         text = strip content))) /\
  (GEMINI_API_KEY = [] -> HF_API_KEY = [] -> openai_client = None ->
   optimized = _rule_based_optimization product weakness_suggestions).
Proof.
  intros prompt optimized.
  pose proof (optimize_description_cases product weakness_suggestions
                target_queries additional_specs provider) as H.
  cbv zeta in H. fold prompt in H. fold optimized in H.
  split.
  - destruct H as [H | [text [Ht [Ho Hsrc]]]]; [left; exact H|].
    right. exists text. split; [exact Ht|]. split; [exact Ho|].
    split; [|exact Hsrc].
    rewrite Ho. cbn [snd]. apply extract_improvements_nonempty.
  - intros Hg Hh Ho.
    destruct H as [H | [text [_ [_ Hsrc]]]]; [exact H|].
    exfalso. destruct Hsrc as [[Hk _] | [[Hk _] | [create [content [Hc _]]]]].
    + apply Hk, Hg.
    + apply Hk, Hh.
    + rewrite Ho in Hc. discriminate Hc.
Qed.

End OptimizerProperties.

Lemma optimize_description_spec_witness :
  optimize_description (lit "gemini") [] [] None
    (llm_fixed (lit "A better text.")) llm_none acme_x1 [] None None
    (Some (lit "gemini")) =
  _rule_based_optimization acme_x1 [].
Proof.
  apply (optimize_description_spec (lit "gemini") [] [] None
           (llm_fixed (lit "A better text.")) llm_none acme_x1 [] None None
           (Some (lit "gemini")));
    reflexivity.
Defined.

(** With a key, the text of the configured provider is returned as it
    is, however short. *)
Example optimize_description_gemini :
  optimize_description (lit "gemini") (lit "key") [] None
    (llm_fixed (lit "Better.")) llm_none acme_x1 [] None None
    (Some (lit "gemini")) =
  (lit "Better.", [lit "Enhanced overall clarity and structure"]).
Proof. vm_compute. reflexivity. Qed.

Section OptimizationEndpoint.

Variable embed : pystr -> list Q.
Variable cosine : list Q -> list Q -> Q.
Variable flesch_reading_ease : pystr -> result Q.
Variable MODEL_PROVIDER : pystr.
Variable GEMINI_API_KEY : pystr.
Variable HF_API_KEY : pystr.
Variable openai_client : option (pystr -> result pystr).
Variable _call_gemini_api : pystr -> option pystr.
Variable _call_hf_api : pystr -> option pystr.

Lemma score_product_returns (p : ProductInput) :
  exists f b queries,
    score_product embed cosine flesch_reading_ease p = Ok (f, b, queries) /\
    0 <= f <= 100.
Proof.
  destruct (score_product_total embed cosine flesch_reading_ease p)
    as [queries [s [k [c [r H]]]]].
  destruct H as [_ [_ [_ [_ [_ [Hsr [Hkr [Hcr [Hrr Hsp]]]]]]]]].
  eexists. eexists. exists queries. split; [exact Hsp|].
  apply calculate_final_score_range; assumption.
Qed.

Lemma py_round2_difference (a b : Q) :
  0 <= a <= 100 -> 0 <= b <= 100 ->
  - (100) <= py_round2 (b - a) <= 100.
Proof.
  intros Ha Hb. unfold py_round2.
  assert (Hr : (-10000 <= round_half_even ((b - a) * 100) <= 10000)%Z).
  { apply round_half_even_range.
    - change (inject_Z (-10000)) with (-(10000)). lra.
    - change (inject_Z 10000) with 10000. lra. }
  destruct Hr as [Hlo Hhi].
  rewrite Zle_Qle in Hlo, Hhi.
  change (inject_Z (-10000)) with (-(10000)) in Hlo.
  change (inject_Z 10000) with 10000 in Hhi.
  split.
  - apply Qle_shift_div_l; lra.
  - apply Qle_shift_div_r; lra.
Qed.

(** X26. For a valid product the optimisation endpoint answers 500
    exactly when the description that the optimizer returns has fewer
    than ten characters, which the rule-based rewriting never has.
    Otherwise it returns that description with its improvements, the
    composite score of the product as original score, the composite
    score of the product with the new description (and no price,
    address, platform or rank) as optimized score, and as score delta
    their difference rounded to two decimals, between -100 and 100. *)
Theorem optimize_description_endpoint_spec (p : ProductInput)
    (target_queries : option (list pystr)) (additional_specs : option pystr)
    (provider : option pystr) :
  valid_product p = true ->
  exists f b queries,
    score_product embed cosine flesch_reading_ease p = Ok (f, b, queries) /\
    let optimized :=
      optimize_description MODEL_PROVIDER GEMINI_API_KEY HF_API_KEY
        openai_client _call_gemini_api _call_hf_api p
        (suggestions (analyze_weaknesses p b)) target_queries
        additional_specs provider in
    let answer :=
      optimize_description_endpoint embed cosine flesch_reading_ease
        MODEL_PROVIDER GEMINI_API_KEY HF_API_KEY openai_client
        _call_gemini_api _call_hf_api p target_queries additional_specs
        provider in
    ((length (fst optimized) < 10)%nat -> answer = HTTPException 500) /\
    ((10 <= length (fst optimized))%nat ->
     exists r f' b' queries',
       answer = Http_ok r /\
       score_product embed cosine flesch_reading_ease
         (mk_product (title p) (fst optimized) (category p) (brand p)) =
       Ok (f', b', queries') /\
       original_product r = p /\
       optimized_description r = fst optimized /\
       improvements r = snd optimized /\
       original_score r = f /\ optimized_score r = f' /\
       score_delta r = py_round2 (f' - f) /\
       - (100) <= score_delta r <= 100) /\
    (optimized =
       _rule_based_optimization p (suggestions (analyze_weaknesses p b)) ->
     (10 <= length (fst optimized))%nat).
Proof.
  intro Hv.
  destruct (score_product_returns p) as [f [b [queries [Hsp Hf]]]].
  exists f, b, queries. split; [exact Hsp|]. intros optimized answer.
  assert (Hvalid : valid_product
            (mk_product (title p) (fst optimized) (category p) (brand p)) =
            (10 <=? length (fst optimized))%nat).
  { unfold valid_product in *. cbn [mk_product title description category brand].
    rewrite !andb_true_iff in Hv. destruct Hv as [[[Ht _] Hc] Hb].
    rewrite Ht, Hc, Hb. cbn [andb]. rewrite !andb_true_r. reflexivity. }
  assert (Hans : answer =
            match
              (optimized_product <-
                 new_ProductInput (title p) (fst optimized) (category p)
                   (brand p) None None None None None ;;
               r' <- score_product embed cosine flesch_reading_ease
                       optimized_product ;;
               let '(optimized_score, _, _) := r' in
               Ok {| original_product := p;
                     optimized_description := fst optimized;
                     original_score := f;
                     optimized_score := optimized_score;
                     improvements := snd optimized;
                     score_delta := py_round2 (optimized_score - f) |})
            with
            | Ok a => Http_ok a
            | Raise _ => HTTPException 500
            end).
  { unfold answer, optimize_description_endpoint. rewrite Hsp. cbn [bind].
    fold optimized. destruct optimized as [desc imps]. reflexivity. }
  unfold new_ProductInput in Hans. cbv zeta in Hans.
  fold (mk_product (title p) (fst optimized) (category p) (brand p)) in Hans.
  rewrite Hvalid in Hans.
  split; [|split].
  - intro Hshort. rewrite Hans.
    apply Nat.leb_gt in Hshort. rewrite Hshort. reflexivity.
  - intro Hlong. rewrite Hans.
    apply Nat.leb_le in Hlong. rewrite Hlong. cbn [bind].
    destruct (score_product_returns
                (mk_product (title p) (fst optimized) (category p) (brand p)))
      as [f' [b' [queries' [Hsp' Hf']]]].
    rewrite Hsp'. cbn [bind].
    eexists. exists f', b', queries'.
    split; [reflexivity|]. split; [reflexivity|].
    cbn [original_product optimized_description improvements original_score
         optimized_score score_delta].
    split; [reflexivity|]. split; [reflexivity|]. split; [reflexivity|].
    split; [reflexivity|]. split; [reflexivity|]. split; [reflexivity|].
    apply py_round2_difference; assumption.
  - intros ->.
    destruct (rule_based_structure p (suggestions (analyze_weaknesses p b)))
      as [Hkeep _].
    apply contains_iff in Hkeep. destruct Hkeep as [pre [post Hkeep]].
    rewrite Hkeep, !length_app.
    unfold valid_product in Hv. rewrite !andb_true_iff in Hv.
    destruct Hv as [[[_ Hd] _] _]. apply Nat.leb_le in Hd. lia.
Qed.

End OptimizationEndpoint.

Lemma optimize_description_endpoint_spec_witness :
  valid_product acme_x1 = true /\
  exists r,
    optimize_description_endpoint embed0 cosine0 flesch0 (lit "gemini") [] []
      None llm_none llm_none acme_x1 None None (Some (lit "gemini")) =
    Http_ok r /\
    - (100) <= score_delta r <= 100.
Proof.
  split; [reflexivity|].
  destruct (optimize_description_endpoint_spec embed0 cosine0 flesch0
              (lit "gemini") [] [] None llm_none llm_none acme_x1 None None
              (Some (lit "gemini")) eq_refl)
    as [f [b [queries [_ [_ [Hok Hrule]]]]]].
  destruct Hok as [r [f' [b' [queries' [Hr [_ [_ [_ [_ [_ [_ [_ Hd]]]]]]]]]]]].
  - apply Hrule. reflexivity.
  - exists r. split; [exact Hr | exact Hd].
Defined.

(** A text of seven characters from the provider is not a valid
    description: the endpoint answers 500. *)
Example optimize_description_endpoint_short :
  optimize_description_endpoint embed0 cosine0 flesch0 (lit "gemini")
    (lit "key") [] None (llm_fixed (lit "Better.")) llm_none acme_x1 None None
    (Some (lit "gemini")) = HTTPException 500.
Proof. vm_compute. reflexivity. Qed.

(** ** The deep comparison *)

Section DeepCompareProperties.

Variable client : option (pystr -> option pystr + pystr).

Lemma given_urls_eq (competitors : list ProductInput) :
  flat_map (fun c => match url c with
                     | Some ((_ :: _) as u) => [u]
                     | _ => []
                     end) competitors =
  given_urls competitors.
Proof.
  unfold given_urls.
  induction competitors as [|c competitors IH]; [reflexivity|].
  cbn [flat_map]. rewrite filter_app, IH.
  destruct (url c) as [[|a u]|]; reflexivity.
Qed.

(** X27. The deep comparison never answers 500.  It answers that URLs
    are missing, without consulting the model, exactly when the subject
    has no address or no competitor has one; otherwise its answer is
    what [deep_compare_competitors] gives for the address of the
    subject and the addresses of the competitors that have one, in
    order, of which only the first two are used; without client that
    answer is "AI Client unavailable.". *)
Theorem deep_compare_spec (p : ProductInput)
    (competitors : list ProductInput) :
  let user_url := match url p with Some u => u | None => [] end in
  exists text,
    deep_compare client p competitors = Http_ok text /\
    (user_url = [] \/ given_urls competitors = [] ->
     text = lit "Missing URLs for deep comparison.") /\
    (user_url <> [] -> given_urls competitors <> [] ->
     text = deep_compare_competitors client user_url
              (given_urls competitors) /\
     text = deep_compare_competitors client user_url
              (firstn 2 (given_urls competitors)) /\
     (client = None -> text = lit "AI Client unavailable.")).
Proof.
  intro user_url. unfold deep_compare. cbv zeta. fold user_url.
  rewrite given_urls_eq.
  destruct user_url as [|c u].
  - eexists. split; [reflexivity|]. split; [reflexivity|].
    intro H. contradiction.
  - destruct (given_urls competitors) as [|u1 urls].
    + eexists. split; [reflexivity|]. split; [reflexivity|].
      intros _ H. contradiction.
    + eexists. split; [reflexivity|]. split.
      * intros [H | H]; discriminate H.
      * intros _ _. split; [reflexivity|]. split.
        -- unfold deep_compare_competitors.
           destruct client as [generate_content|]; [|reflexivity].
           destruct urls as [|u2 urls]; [reflexivity|].
           cbn [firstn]. reflexivity.
        -- intros ->. reflexivity.
Qed.

End DeepCompareProperties.

Lemma deep_compare_spec_witness :
  exists text,
    deep_compare None acme_x1_online [acme_x1; acme_x1_online] =
      Http_ok text /\
    text = lit "AI Client unavailable.".
Proof.
  destruct (deep_compare_spec None acme_x1_online [acme_x1; acme_x1_online])
    as [text [Ht [_ Hgiven]]].
  exists text. split; [exact Ht|].
  apply Hgiven; [discriminate | discriminate | reflexivity].
Defined.

(** With a client, the subject and at most two competitors reach the
    prompt. *)
Example deep_compare_competitors_prompt :
  deep_compare_competitors
    (Some (fun prompt => inl (Some prompt)))
    (lit "u0") [lit "u1"; lit "u2"; lit "u3"] =
  nl ++ lit "        Analyze and compare the products at these URLs: u0, u1, u2" ++
  nl ++ lit "        Perform a deep technical comparison of their specs, features, and overall value." ++
  nl ++ lit "        Highlight which one is superior for professional use and why." ++
  nl ++ lit "        ".
Proof. vm_compute. reflexivity. Qed.


(** ** The simulated recommendation *)

Section RecommendationProperties.

Variable str_float : Q -> pystr.
Variable client :
  option ((pystr -> (option pystr * list pystr) + pystr) *
          (pystr -> option pystr + pystr)).

Lemma simulate_ai_recommendation_flags (product : ProductInput)
    (price : option Q) :
  let r := simulate_ai_recommendation str_float client product price in
  (is_recommended r = true ->
   found_brand r = true \/ found_product r = true) /\
  (found_brand r = true -> is_recommended r = true) /\
  (client = None -> is_recommended r = false /\ sources r = []).
Proof.
  cbv zeta. unfold simulate_ai_recommendation.
  destruct client as [[generate_grounded generate_plain]|].
  - cbv zeta. destruct (generate_grounded _) as [[response_text uris]|e].
    + cbn [is_recommended found_brand found_product sources].
      split; [apply orb_true_iff|].
      split; [intro H; rewrite H; reflexivity | discriminate].
    + destruct (generate_plain _) as [response_text|e'];
        cbn [is_recommended found_brand found_product sources].
      * split; [intro H; left; exact H|]. split; [tauto | discriminate].
      * split; [discriminate|]. split; [tauto | discriminate].
  - cbn [is_recommended found_brand found_product sources].
    split; [discriminate|]. split; [tauto|]. intros _. split; reflexivity.
Qed.

(** X28. [simulate_ai_recommendation] always returns its dictionary:
    the recommendation text is never empty, the sources are listed once
    each and none is empty; the product is recommended only if the
    brand or the title was found in the answer, and always when the
    brand was found; without client nothing is found and no source is
    given. *)
Theorem simulate_ai_recommendation_spec (product : ProductInput)
    (price : option Q) :
  let r := simulate_ai_recommendation str_float client product price in
  recommendation_text r <> [] /\
  NoDup (sources r) /\ ~ In [] (sources r) /\
  (is_recommended r = true ->
   found_brand r = true \/ found_product r = true) /\
  (found_brand r = true -> is_recommended r = true) /\
  (client = None -> is_recommended r = false /\ sources r = []).
Proof.
  intro r.
  split; [|split; [|split;
    [|exact (simulate_ai_recommendation_flags product price)]]].
  - unfold r, simulate_ai_recommendation.
    destruct client as [[generate_grounded generate_plain]|];
      [|discriminate].
    cbv zeta. destruct (generate_grounded _) as [[response_text uris]|e].
    + cbn [recommendation_text].
      destruct response_text as [[|c t]|]; discriminate.
    + destruct (generate_plain _) as [response_text|e'];
        cbn [recommendation_text]; [|discriminate].
      intro H. apply app_eq_nil in H. destruct H as [_ H]. discriminate H.
  - unfold r, simulate_ai_recommendation.
    destruct client as [[generate_grounded generate_plain]|];
      [|constructor].
    cbv zeta. destruct (generate_grounded _) as [[response_text uris]|e].
    + cbn [sources]. apply dedup_NoDup.
    + destruct (generate_plain _); constructor.
  - unfold r, simulate_ai_recommendation.
    destruct client as [[generate_grounded generate_plain]|];
      [|intros []].
    cbv zeta. destruct (generate_grounded _) as [[response_text uris]|e].
    + cbn [sources]. intro H. apply dedup_In, filter_In in H.
      destruct H as [_ H]. discriminate H.
    + destruct (generate_plain _); intros [].
Qed.

End RecommendationProperties.

Lemma simulate_ai_recommendation_spec_witness :
  is_recommended
    (simulate_ai_recommendation str_float0 client_acme acme_x1 (Some 27611)) =
  true /\
  sources
    (simulate_ai_recommendation str_float0 client_acme acme_x1 (Some 27611)) =
  [lit "https://example.com/a"] /\
  is_recommended
    (simulate_ai_recommendation str_float0 None acme_x1 (Some 27611)) = false.
Proof.
  split; [|split].
  - apply (simulate_ai_recommendation_spec str_float0 client_acme acme_x1
             (Some 27611)).
    vm_compute. reflexivity.
  - vm_compute. reflexivity.
  - apply (simulate_ai_recommendation_spec str_float0 None acme_x1
             (Some 27611)).
    reflexivity.
Defined.

(** When both calls fail the message of the first failure is reported. *)
Example simulate_ai_recommendation_failing :
  simulate_ai_recommendation str_float0 client_failing acme_x1 None =
  {| recommendation_text := lit "Simulation failed: quota";
     is_recommended := false; found_brand := false; found_product := false;
     sources := [] |}.
Proof. vm_compute. reflexivity. Qed.

Section RecommendationBonus.

Variable embed : pystr -> list Q.
Variable cosine : list Q -> list Q -> Q.
Variable flesch_reading_ease : pystr -> result Q.
Variable analyze_product_sentiment : ProductInput -> SentimentResult.
Variable str_float : Q -> pystr.
Variable client :
  option ((pystr -> (option pystr * list pystr) + pystr) *
          (pystr -> option pystr + pystr)).


End RecommendationBonus.

